(** * Chatify: the conversation relay ([api/chat/route.ts]) and the
      composer ([page.tsx])

    A shallow embedding of the two source files and the properties of the
    relay/composer pipeline.

    - [JS]     the part of the JavaScript platform the two files lean on:
               strings as sequences of UTF-16 code units, [JSON.parse],
               property reads on parsed JSON, [ToString], [trim], [slice],
               base64.
    - [Route]  [route.ts]: [fallbackAssistant], [buildAttachmentSummary] and
               the [POST] handler, with the upstream service and the process
               environment as an explicit [World], and the list of upstream
               calls made as an explicit log.
    - [Page]   [page.tsx]: the staging of attachments and [handleSend].
    - [Link]   the composer's request as the relay receives it.
    - [Controls] [page.tsx]: the conditions of the controls, dictation,
               and the discipline of identifiers and object URLs. *)

From Stdlib Require Import List NArith ZArith Bool String Ascii Lia
  Strings.Byte DecimalString Permutation.
Import ListNotations.

Set Warnings "-register-all".

(* ================================================================== *)
(** * The JavaScript platform *)
(* ================================================================== *)

Module JS.

(** A JavaScript string is a sequence of 16-bit code units. *)
Definition jsstring := list N.

Fixpoint utf16_of_utf8 (l : list N) : jsstring :=
  match l with
  | [] => []
  | a :: r =>
      if (a <? 128)%N then a :: utf16_of_utf8 r
      else if (a <? 224)%N then
        match r with
        | b :: r' => ((a - 192) * 64 + (b - 128))%N :: utf16_of_utf8 r'
        | [] => []
        end
      else
        match r with
        | b :: c :: r' =>
            ((a - 224) * 4096 + (b - 128) * 64 + (c - 128))%N
              :: utf16_of_utf8 r'
        | _ => []
        end
  end.

(** A source literal (written in UTF-8, no character outside the Basic
    Multilingual Plane) as the string it denotes. *)
Definition lit (s : string) : jsstring :=
  utf16_of_utf8 (map N_of_ascii (list_ascii_of_string s)).

(** The same, for JSON texts in examples: a single quote in [s] stands for
    the double quote. *)
Definition litq (s : string) : jsstring :=
  map (fun c => if (c =? 39)%N then 34%N else c) (lit s).

Definition nl : jsstring := [10%N].

Fixpoint str_eqb (a b : jsstring) : bool :=
  match a, b with
  | [], [] => true
  | x :: a', y :: b' => (x =? y)%N && str_eqb a' b'
  | _, _ => false
  end.

(** [s.startsWith(p)] *)
Fixpoint startsWith (s p : jsstring) : bool :=
  match p, s with
  | [], _ => true
  | y :: p', x :: s' => (x =? y)%N && startsWith s' p'
  | _ :: _, [] => false
  end.

(** [s.includes(p)] *)
Fixpoint includes (s p : jsstring) : bool :=
  startsWith s p ||
  match s with
  | [] => false
  | _ :: s' => includes s' p
  end.

(** [s.slice(0, n)] for a non-negative [n] *)
Definition slice0 (n : nat) (s : jsstring) : jsstring := firstn n s.

(** WhiteSpace and LineTerminator code units, the ones [trim] removes. *)
Definition is_space (c : N) : bool :=
  ((9 <=? c) && (c <=? 13) || (c =? 32) || (c =? 160) || (c =? 5760)
   || (8192 <=? c) && (c <=? 8202) || (c =? 8232) || (c =? 8233)
   || (c =? 8239) || (c =? 8287) || (c =? 12288) || (c =? 65279))%N.

Fixpoint trimStart (s : jsstring) : jsstring :=
  match s with
  | c :: s' => if is_space c then trimStart s' else s
  | [] => []
  end.

(** [s.trim()] *)
Definition trim (s : jsstring) : jsstring :=
  rev (trimStart (rev (trimStart s))).

(** The decimal digits of a natural number, as [String(n)] prints an
    integer below 1e21. *)
Definition decimal (n : N) : jsstring :=
  lit (NilZero.string_of_uint (N.to_uint n)).

(** [Math.max(1, Math.round(bytes / 1024))] on a byte length.  Division by
    1024 is exact in binary floating point and [Math.round] rounds halves
    up, so the result is the integer quotient of [bytes + 512] by 1024. *)
Definition round_div_1024 (bytes : N) : N := ((bytes + 512) / 1024)%N.

(** ** Base64, as [Buffer.prototype.toString("base64")] *)

Definition b64_char (i : N) : N :=
  (if i <? 26 then 65 + i
   else if i <? 52 then 97 + (i - 26)
   else if i <? 62 then 48 + (i - 52)
   else if i =? 62 then 43 else 47)%N.

Definition b64_pad : N := 61%N.

Fixpoint base64 (bs : list N) : jsstring :=
  match bs with
  | [] => []
  | [a] =>
      [b64_char (a / 4); b64_char ((a mod 4) * 16); b64_pad; b64_pad]%N
  | [a; b] =>
      [b64_char (a / 4); b64_char ((a mod 4) * 16 + b / 16);
       b64_char ((b mod 16) * 4); b64_pad]%N
  | a :: b :: c :: rest =>
      ([b64_char (a / 4); b64_char ((a mod 4) * 16 + b / 16);
        b64_char ((b mod 16) * 4 + c / 64); b64_char (c mod 64)]%N)
        ++ base64 rest
  end.

(** ** Values obtained from [JSON.parse] *)

Inductive json : Type :=
| JNull
| JBool (b : bool)
| JNumber (lexeme : jsstring)
| JString (s : jsstring)
| JArray (elems : list json)
| JObject (props : list (jsstring * json)).

(** A JavaScript value that is [undefined] or comes from JSON. *)
Definition jsval := option json.
Abbreviation undefined := (@None json).

(** ** Exceptions *)

(** The errors the engine itself raises on the operations used here; the
    text of their [message] is the engine's. *)
Inductive engine_error :=
| NotIterable
| ReadOfNull (name : jsstring)
| NotAFunction (name : jsstring)
| NoPrimitive
| JsonSyntax (text : jsstring).

(** A thrown value: an [Error] with its message, or something else. *)
Inductive thrown :=
| JsError (message : jsstring)
| NotAnError.

Inductive outcome (A : Type) : Type :=
| Normal (a : A)
| Throw (e : thrown).
Arguments Normal {A} a.
Arguments Throw {A} e.

(** What the engine decides: how a number prints, what its errors say. *)
Record Engine := {
  Number_toString : jsstring -> jsstring;
  error_text : engine_error -> jsstring
}.

Definition raise {A} (E : Engine) (e : engine_error) : outcome A :=
  Throw (JsError (error_text E e)).

Definition obind {A B} (m : outcome A) (k : A -> outcome B) : outcome B :=
  match m with
  | Normal a => k a
  | Throw e => Throw e
  end.

(** The own property [name] of an object made by [JSON.parse]: of repeated
    keys the last one counts. *)
Fixpoint own (props : list (jsstring * json)) (name : jsstring) : jsval :=
  match props with
  | [] => undefined
  | (k, v) :: rest =>
      match own rest name with
      | Some w => Some w
      | None => if str_eqb k name then Some v else undefined
      end
  end.

(** [v.name] for a property name that no prototype defines ([role],
    [content], [choices], [message], [reply]). *)
Definition get (E : Engine) (v : json) (name : jsstring) : outcome jsval :=
  match v with
  | JNull => raise E (ReadOfNull name)
  | JObject props => Normal (own props name)
  | _ => Normal undefined
  end.

(** [v[0]] *)
Definition get0 (E : Engine) (v : json) : outcome jsval :=
  match v with
  | JNull => raise E (ReadOfNull (lit "0"))
  | JObject props => Normal (own props (lit "0"))
  | JArray elems => Normal (hd_error elems)
  | JString (c :: _) => Normal (Some (JString [c]))
  | _ => Normal undefined
  end.

(** [v?.name] and [v?.[0]]: [undefined] when [v] is [undefined] or [null]. *)
Definition opt_get (E : Engine) (v : jsval) (name : jsstring)
  : outcome jsval :=
  match v with
  | None | Some JNull => Normal undefined
  | Some j => get E j name
  end.

Definition opt_get0 (E : Engine) (v : jsval) : outcome jsval :=
  match v with
  | None | Some JNull => Normal undefined
  | Some j => get0 E j
  end.

(** [Array.prototype.join] with its separator, over printed elements. *)
Fixpoint join (sep : jsstring) (parts : list jsstring) : jsstring :=
  match parts with
  | [] => []
  | [p] => p
  | p :: rest => p ++ sep ++ join sep rest
  end.

(** [ToString] of a value from JSON, as a template literal applies it.  An
    array prints its elements joined by commas, [null] elements as empty;
    an object prints as [[object Object]] unless an own [toString] property
    hides the inherited method, in which case no primitive is found. *)
Fixpoint ToString (E : Engine) (v : json) : outcome jsstring :=
  match v with
  | JNull => Normal (lit "null")
  | JBool true => Normal (lit "true")
  | JBool false => Normal (lit "false")
  | JNumber lx => Normal (Number_toString E lx)
  | JString s => Normal s
  | JArray elems =>
      obind
        ((fix each (l : list json) : outcome (list jsstring) :=
            match l with
            | [] => Normal []
            | x :: l' =>
                obind (match x with
                       | JNull => Normal []
                       | _ => ToString E x
                       end)
                  (fun s => obind (each l') (fun ss => Normal (s :: ss)))
            end) elems)
        (fun parts => Normal (join (lit ",") parts))
  | JObject props =>
      match own props (lit "toString") with
      | Some _ => raise E NoPrimitive
      | None => Normal (lit "[object Object]")
      end
  end.

Definition ToString_val (E : Engine) (v : jsval) : outcome jsstring :=
  match v with
  | None => Normal (lit "undefined")
  | Some j => ToString E j
  end.

(** [[...v]]: an array spreads into its elements, a string into its code
    points, nothing else from JSON is iterable. *)
Fixpoint code_points (s : jsstring) : list json :=
  match s with
  | [] => []
  | a :: r =>
      match r with
      | b :: r' =>
          if ((55296 <=? a) && (a <=? 56319)
              && (56320 <=? b) && (b <=? 57343))%N
          then JString [a; b] :: code_points r'
          else JString [a] :: code_points r
      | [] => [JString [a]]
      end
  end.

Definition spread (E : Engine) (v : json) : outcome (list json) :=
  match v with
  | JArray elems => Normal elems
  | JString s => Normal (code_points s)
  | _ => raise E NotIterable
  end.

(** ** [JSON.parse] *)

Definition is_ws (c : N) : bool :=
  ((c =? 32) || (c =? 9) || (c =? 10) || (c =? 13))%N.

Fixpoint skip_ws (s : jsstring) : jsstring :=
  match s with
  | c :: s' => if is_ws c then skip_ws s' else s
  | [] => []
  end.

Definition is_digit (c : N) : bool := ((48 <=? c) && (c <=? 57))%N.

Fixpoint digits (s : jsstring) : jsstring * jsstring :=
  match s with
  | c :: s' =>
      if is_digit c then let (d, r) := digits s' in (c :: d, r) else ([], s)
  | [] => ([], [])
  end.

Definition hex (c : N) : option N :=
  (if is_digit c then Some (c - 48)
   else if (97 <=? c) && (c <=? 102) then Some (c - 87)
   else if (65 <=? c) && (c <=? 70) then Some (c - 55)
   else None)%N.

(** A number token: its lexeme and the rest of the text. *)
Definition parse_number (s : jsstring) : option (jsstring * jsstring) :=
  let (sign, s1) :=
    match s with
    | 45%N :: r => ([45%N], r)
    | _ => ([], s)
    end in
  let int :=
    match s1 with
    | 48%N :: r => Some ([48%N], r)
    | c :: _ => if is_digit c then Some (digits s1) else None
    | [] => None
    end in
  match int with
  | None => None
  | Some (i, s2) =>
      let frac :=
        match s2 with
        | 46%N :: r =>
            match digits r with
            | ([], _) => None
            | (d, r') => Some (46%N :: d, r')
            end
        | _ => Some ([], s2)
        end in
      match frac with
      | None => None
      | Some (f, s3) =>
          match s3 with
          | e :: r =>
              if ((e =? 101) || (e =? 69))%N then
                let (esign, r1) :=
                  match r with
                  | g :: r0 =>
                      if ((g =? 43) || (g =? 45))%N then ([g], r0)
                      else ([], r)
                  | [] => ([], r)
                  end in
                match digits r1 with
                | ([], _) => None
                | (d, r') => Some (sign ++ i ++ f ++ e :: esign ++ d, r')
                end
              else Some (sign ++ i ++ f, s3)
          | [] => Some (sign ++ i ++ f, s3)
          end
      end
  end.

(** The characters of a string token after its opening quote. *)
Fixpoint parse_chars (s : jsstring) : option (jsstring * jsstring) :=
  let more (c : N) (r : jsstring) :=
    match parse_chars r with
    | Some (t, r') => Some (c :: t, r')
    | None => None
    end in
  match s with
  | [] => None
  | c :: r =>
      if (c =? 34)%N then Some ([], r)
      else if (c =? 92)%N then
        match r with
        | [] => None
        | e :: r1 =>
            if (e =? 117)%N then
              match r1 with
              | h1 :: h2 :: h3 :: h4 :: r2 =>
                  match hex h1, hex h2, hex h3, hex h4 with
                  | Some a, Some b, Some c', Some d =>
                      match parse_chars r2 with
                      | Some (t, r') =>
                          Some ((a * 4096 + b * 256 + c' * 16 + d)%N :: t, r')
                      | None => None
                      end
                  | _, _, _, _ => None
                  end
              | _ => None
              end
            else
              let unit :=
                (if (e =? 34) || (e =? 92) || (e =? 47) then Some e
                 else if e =? 98 then Some 8
                 else if e =? 102 then Some 12
                 else if e =? 110 then Some 10
                 else if e =? 114 then Some 13
                 else if e =? 116 then Some 9
                 else None)%N in
              match unit with
              | Some u =>
                  match parse_chars r1 with
                  | Some (t, r') => Some (u :: t, r')
                  | None => None
                  end
              | None => None
              end
        end
      else if (c <? 32)%N then None
      else
        match parse_chars r with
        | Some (t, r') => Some (c :: t, r')
        | None => None
        end
  end.

(** A value at the head of [s] (leading white space already skipped), the
    elements of an array after its bracket, the members of an object after
    its brace. *)
Fixpoint parse_value (fuel : nat) (s : jsstring) : option (json * jsstring) :=
  match fuel with
  | O => None
  | S f =>
      match s with
      | 110%N :: 117%N :: 108%N :: 108%N :: r => Some (JNull, r)
      | 116%N :: 114%N :: 117%N :: 101%N :: r => Some (JBool true, r)
      | 102%N :: 97%N :: 108%N :: 115%N :: 101%N :: r => Some (JBool false, r)
      | 34%N :: r =>
          match parse_chars r with
          | Some (t, r') => Some (JString t, r')
          | None => None
          end
      | 91%N :: r =>
          match skip_ws r with
          | 93%N :: r' => Some (JArray [], r')
          | r1 =>
              match parse_elems f r1 with
              | Some (l, r') => Some (JArray l, r')
              | None => None
              end
          end
      | 123%N :: r =>
          match skip_ws r with
          | 125%N :: r' => Some (JObject [], r')
          | r1 =>
              match parse_members f r1 with
              | Some (l, r') => Some (JObject l, r')
              | None => None
              end
          end
      | _ =>
          match parse_number s with
          | Some (lx, r) => Some (JNumber lx, r)
          | None => None
          end
      end
  end

with parse_elems (fuel : nat) (s : jsstring)
  : option (list json * jsstring) :=
  match fuel with
  | O => None
  | S f =>
      match parse_value f s with
      | None => None
      | Some (v, r) =>
          match skip_ws r with
          | 93%N :: r' => Some ([v], r')
          | 44%N :: r' =>
              match parse_elems f (skip_ws r') with
              | Some (l, r'') => Some (v :: l, r'')
              | None => None
              end
          | _ => None
          end
      end
  end

with parse_members (fuel : nat) (s : jsstring)
  : option (list (jsstring * json) * jsstring) :=
  match fuel with
  | O => None
  | S f =>
      match s with
      | 34%N :: r0 =>
          match parse_chars r0 with
          | None => None
          | Some (k, r1) =>
              match skip_ws r1 with
              | 58%N :: r2 =>
                  match parse_value f (skip_ws r2) with
                  | None => None
                  | Some (v, r3) =>
                      match skip_ws r3 with
                      | 125%N :: r' => Some ([(k, v)], r')
                      | 44%N :: r' =>
                          match parse_members f (skip_ws r') with
                          | Some (l, r'') => Some ((k, v) :: l, r'')
                          | None => None
                          end
                      | _ => None
                      end
                  end
              | _ => None
              end
          end
      | _ => None
      end
  end.

(** [JSON.parse(text)]: the value, or [None] for the [SyntaxError].  The
    recursion goes one level down for a bracket or brace and one for each
    element or member, which takes at least a character each: twice the
    length of the text is depth enough. *)
Definition JSON_parse (text : jsstring) : option json :=
  match parse_value (2 * List.length text + 2) (skip_ws text) with
  | Some (v, r) =>
      match skip_ws r with
      | [] => Some v
      | _ => None
      end
  | None => None
  end.

(** ** [JSON.stringify] *)

Definition hex_digit (n : N) : N :=
  (if n <? 10 then 48 + n else 87 + n)%N.

Definition u_escape (c : N) : jsstring :=
  [92; 117; hex_digit (c / 4096); hex_digit ((c / 256) mod 16);
   hex_digit ((c / 16) mod 16); hex_digit (c mod 16)]%N.

Definition is_high (c : N) : bool := ((55296 <=? c) && (c <=? 56319))%N.
Definition is_low (c : N) : bool := ((56320 <=? c) && (c <=? 57343))%N.

Definition escape_unit (c : N) : jsstring :=
  (if c =? 34 then [92; 34]
   else if c =? 92 then [92; 92]
   else if c =? 8 then [92; 98]
   else if c =? 12 then [92; 102]
   else if c =? 10 then [92; 110]
   else if c =? 13 then [92; 114]
   else if c =? 9 then [92; 116]
   else if c <? 32 then u_escape c
   else if is_high c || is_low c then u_escape c
   else [c])%N.

(** The characters between the quotes: a surrogate pair is kept, a lone
    surrogate is escaped. *)
Fixpoint quote_chars (s : jsstring) : jsstring :=
  match s with
  | [] => []
  | c :: r =>
      match r with
      | d :: r' =>
          if is_high c && is_low d then c :: d :: quote_chars r'
          else escape_unit c ++ quote_chars r
      | [] => escape_unit c
      end
  end.

Definition quote (s : jsstring) : jsstring :=
  34%N :: quote_chars s ++ [34%N].

Fixpoint JSON_stringify (v : json) : jsstring :=
  match v with
  | JNull => lit "null"
  | JBool true => lit "true"
  | JBool false => lit "false"
  | JNumber lx => lx
  | JString s => quote s
  | JArray elems =>
      lit "[" ++ join (lit ",") (map JSON_stringify elems) ++ lit "]"
  | JObject props =>
      lit "{"
        ++ join (lit ",")
             (map (fun kv => quote (fst kv) ++ lit ":" ++ JSON_stringify (snd kv))
                props)
        ++ lit "}"
  end.

End JS.

(* ================================================================== *)
(** * The relay endpoint: [src/app/app/api/chat/route.ts] *)
(* ================================================================== *)

Module Route.
Import JS.

(** ** Data *)

(** [type RequestMessage], the shape the handler casts the parsed
    transcript to. *)
Inductive Role := user | assistant.

Record AttachmentRef := { ref_name : jsstring; ref_type : jsstring }.

Record RequestMessage := {
  role : Role;
  content : jsstring;
  attachments : option (list AttachmentRef)
}.

(** [type AttachmentDetail] *)
Record AttachmentDetail := {
  name : jsstring;
  type : jsstring;
  bytes : N;
  preview : jsstring
}.

(** A [File] part of the multipart body. *)
Record File := {
  file_name : jsstring;
  file_type : jsstring;
  file_bytes : list byte
}.

Inductive FormDataEntryValue :=
| FormText (s : jsstring)
| FormFile (f : File).

Definition FormData := list (jsstring * FormDataEntryValue).

(** The inbound request: what [headers.get("content-type")] answers, and
    what [request.formData()] resolves to or rejects with. *)
Record Request := {
  header_content_type : option jsstring;
  request_formData : outcome FormData
}.

(** [NextResponse.json({ reply }, { status })] *)
Record Response := { status : N; reply : jsstring }.

(** One message of the body sent upstream. *)
Record UpstreamMessage := { up_role : jsval; up_content : jsval }.

(** The [fetch] the handler issues. *)
Record UpstreamCall := {
  call_url : jsstring;
  call_method : jsstring;
  call_headers : list (jsstring * jsstring);
  call_model : jsstring;
  call_temperature : jsstring;
  call_max_tokens : N;
  call_messages : list UpstreamMessage
}.

Record UpstreamResponse := { up_status : N; up_body : jsstring }.

(** [response.ok] *)
Definition ok (r : UpstreamResponse) : bool :=
  ((200 <=? up_status r) && (up_status r <=? 299))%N.

(** What lies outside the handler: the process environment and the
    upstream service ([fetch] resolves to a response or rejects). *)
Record World := {
  OPENAI_API_KEY : option jsstring;
  fetch : UpstreamCall -> outcome UpstreamResponse
}.

(** ** Constants and pure helpers *)

Definition SYSTEM_PROMPT : jsstring :=
  lit "You are Chatify, an upbeat and deeply practical AI guide. You:
- treat every question as a real-life problem to solve with empathy.
- break answers into clear, actionable steps and highlight pros/cons when useful.
- keep explanations concise but thorough, and propose creative ideas when helpful.
- reference any shared files or images to inform your answer. If details are limited, infer possibilities and state assumptions.".

Definition fallbackAssistant (latestUserMessage attachmentSummary : jsstring)
  : jsstring :=
  lit "I couldn't reach my reasoning engine just now, but here's a quick take based on what you shared:"
    ++ nl ++ nl ++ latestUserMessage
    ++ nl ++ nl ++ attachmentSummary
    ++ nl ++ nl ++ lit "Let's retry in a moment if you need a deeper dive.".

(** One line of the summary. *)
Definition bullet (item : AttachmentDetail) : jsstring :=
  lit "• " ++ name item ++ lit " (" ++ type item ++ lit ", ~"
    ++ decimal (N.max 1 (round_div_1024 (bytes item))) ++ lit "KB)"
    ++ preview item.

Definition buildAttachmentSummary (items : list AttachmentDetail)
  : jsstring :=
  match items with
  | [] => lit "No attachments were included."
  | _ :: _ => lit "Attachments provided:" ++ nl ++ join nl (map bullet items)
  end.

(** The body of the loop over [formData.values()]. *)
Definition detail_of (entry : File) : AttachmentDetail :=
  let buffer := map Byte.to_N (file_bytes entry) in
  let snippet :=
    if startsWith (file_type entry) (lit "image/")
    then nl ++ lit "   • Visual preview (base64, truncated): "
           ++ slice0 800 (base64 buffer) ++ lit "..."
    else [] in
  {| name := file_name entry;
     type := match file_type entry with
             | [] => lit "application/octet-stream"
             | t => t
             end;
     bytes := N.of_nat (List.length buffer);
     preview := snippet |}.

Fixpoint collect_attachments (form : FormData) : list AttachmentDetail :=
  match form with
  | [] => []
  | (_, FormFile entry) :: rest => detail_of entry :: collect_attachments rest
  | (_, FormText _) :: rest => collect_attachments rest
  end.

(** [formData.get(field)]: the first entry of that name, if any. *)
Fixpoint formData_get (form : FormData) (field : jsstring)
  : option FormDataEntryValue :=
  match form with
  | [] => None
  | (k, v) :: rest => if str_eqb k field then Some v else formData_get rest field
  end.

(** ** The transcript as the parsed value it is at run time *)

(** [message.role === "user"] *)
Definition is_user (E : Engine) (message : json) : outcome bool :=
  obind (get E message (lit "role")) (fun r =>
  Normal match r with
         | Some (JString s) => str_eqb s (lit "user")
         | _ => false
         end).

(** [list.find((message) => message.role === "user")] *)
Fixpoint find_user (E : Engine) (l : list json) : outcome jsval :=
  match l with
  | [] => Normal undefined
  | message :: rest =>
      obind (is_user E message) (fun b =>
      if b then Normal (Some message) else find_user E rest)
  end.

(** [[...messages].reverse().find(...)?.content ?? ""] *)
Definition latestUserMessage (E : Engine) (messages : json) : outcome json :=
  obind (spread E messages) (fun elems =>
  obind (find_user E (rev elems)) (fun found =>
  obind (opt_get E found (lit "content")) (fun c =>
  Normal match c with
         | None | Some JNull => JString []
         | Some v => v
         end))).

(** The callback of [messages.map] at position [index] of [len]. *)
Definition enrich (E : Engine) (len : nat) (nattachments : nat)
    (attachmentSummary : jsstring) (index : nat) (message : json)
  : outcome json :=
  obind (is_user E message) (fun u =>
  if u && Nat.eqb index (len - 1) && negb (Nat.eqb nattachments 0) then
    obind (get E message (lit "role")) (fun r =>
    obind (get E message (lit "content")) (fun c =>
    obind (ToString_val E c) (fun s =>
    Normal (JObject
              ((match r with
                | Some rv => [(lit "role", rv)]
                | None => []
                end)
               ++ [(lit "content",
                    JString (s ++ nl ++ nl ++ attachmentSummary))])))))
  else Normal message).

(** [Array.prototype.map] with a callback that may throw. *)
Fixpoint map_from {A B} (f : nat -> A -> outcome B) (index : nat)
    (l : list A) : outcome (list B) :=
  match l with
  | [] => Normal []
  | x :: rest =>
      obind (f index x) (fun y =>
      obind (map_from f (S index) rest) (fun ys => Normal (y :: ys)))
  end.

(** [messages.map(...)]: only an array has the method. *)
Definition enrichedMessages (E : Engine) (messages : json)
    (nattachments : nat) (attachmentSummary : jsstring)
  : outcome (list json) :=
  match messages with
  | JArray elems =>
      map_from (enrich E (List.length elems) nattachments attachmentSummary)
        0 elems
  | _ => raise E (NotAFunction (lit "messages.map"))
  end.

(** [(message) => ({ role: message.role, content: message.content })] *)
Definition strip (E : Engine) (message : json) : outcome UpstreamMessage :=
  obind (get E message (lit "role")) (fun r =>
  obind (get E message (lit "content")) (fun c =>
  Normal {| up_role := r; up_content := c |})).

Definition system_message : UpstreamMessage :=
  {| up_role := Some (JString (lit "system"));
     up_content := Some (JString SYSTEM_PROMPT) |}.

Definition upstream_call (apiKey : jsstring) (msgs : list UpstreamMessage)
  : UpstreamCall :=
  {| call_url := lit "https://api.openai.com/v1/chat/completions";
     call_method := lit "POST";
     call_headers :=
       [(lit "Content-Type", lit "application/json");
        (lit "Authorization", lit "Bearer " ++ apiKey)];
     call_model := lit "gpt-4o-mini";
     call_temperature := lit "0.6";
     call_max_tokens := 600;
     call_messages := system_message :: msgs |}.

(** [completion?.choices?.[0]?.message?.content?.trim()] *)
Definition completion_text (E : Engine) (completion : json)
  : outcome (option jsstring) :=
  obind (opt_get E (Some completion) (lit "choices")) (fun choices =>
  obind (opt_get0 E choices) (fun first =>
  obind (opt_get E first (lit "message")) (fun message =>
  obind (opt_get E message (lit "content")) (fun c =>
  match c with
  | None | Some JNull => Normal None
  | Some (JString s) => Normal (Some (trim s))
  | Some _ => raise E (NotAFunction (lit "trim"))
  end)))).

(** ** The handler *)

(** Computations of the handler: they may throw, and they add to the log of
    calls made to the upstream service. *)
Definition M (A : Type) : Type :=
  list UpstreamCall -> outcome A * list UpstreamCall.

Definition ret {A} (a : A) : M A := fun log => (Normal a, log).

Definition bind {A B} (m : M A) (k : A -> M B) : M B :=
  fun log =>
    match m log with
    | (Normal a, log') => k a log'
    | (Throw e, log') => (Throw e, log')
    end.

Definition lift {A} (o : outcome A) : M A := fun log => (o, log).

Declare Scope handler_scope.
Delimit Scope handler_scope with handler.
Notation "x <- m ;; k" := (bind m (fun x => k))
  (at level 61, m at next level, right associativity) : handler_scope.

(** [await fetch(...)] *)
Definition await_fetch (W : World) (c : UpstreamCall) : M UpstreamResponse :=
  fun log => (fetch W c, log ++ [c]).

Definition json_response (text : jsstring) (code : N) : Response :=
  {| status := code; reply := text |}.

(** [fallbackAssistant(latestUserMessage, summary)] on the run-time value
    of [latestUserMessage], which the template prints. *)
Definition call_fallbackAssistant (E : Engine) (latest : json)
    (summary : jsstring) : M Response :=
  (text <- lift (ToString E latest) ;;
   ret (json_response (fallbackAssistant text summary) 200))%handler.

(** The body of the [try] block. *)
Definition POST_try (E : Engine) (W : World) (request : Request)
  : M Response :=
  (let contentType :=
     match header_content_type request with
     | Some s => s
     | None => []
     end in
   if negb (includes contentType (lit "multipart/form-data")) then
     ret (json_response (lit "Invalid payload format.") 400)
   else
     formData <- lift (request_formData request) ;;
     match formData_get formData (lit "messages") with
     | Some (FormText rawMessages) =>
         match JSON_parse rawMessages with
         | None =>
             ret (json_response
                    (lit "The conversation payload could not be parsed.") 400)
         | Some messages =>
             let attachments := collect_attachments formData in
             latest <- lift (latestUserMessage E messages) ;;
             let attachmentSummary := buildAttachmentSummary attachments in
             match OPENAI_API_KEY W with
             | None | Some [] =>
                 call_fallbackAssistant E latest attachmentSummary
             | Some apiKey =>
                 enriched <- lift (enrichedMessages E messages
                                     (List.length attachments)
                                     attachmentSummary) ;;
                 sent <- lift (map_from (fun _ => strip E) 0 enriched) ;;
                 response <- await_fetch W (upstream_call apiKey sent) ;;
                 if negb (ok response) then
                   let responder := up_body response in
                   call_fallbackAssistant E latest
                     (attachmentSummary ++ nl ++ lit "(Reason: "
                        ++ slice0 200 responder ++ lit ")")
                 else
                   match JSON_parse (up_body response) with
                   | None => lift (raise E (JsonSyntax (up_body response)))
                   | Some completion =>
                       text <- lift (completion_text E completion) ;;
                       match text with
                       | Some replyText => ret (json_response replyText 200)
                       | None =>
                           call_fallbackAssistant E latest attachmentSummary
                       end
                   end
             end
         end
     | _ => ret (json_response (lit "Missing conversation context.") 400)
     end)%handler.

(** The [catch] clause. *)
Definition POST_catch (error : thrown) : Response :=
  let message :=
    match error with
    | JsError m => m
    | NotAnError => lit "Unknown error"
    end in
  json_response
    (lit "I had trouble completing that request (" ++ message
       ++ lit "). Let's try again in a moment.") 200.

(** [POST(request)]: the response, and the upstream calls made. *)
Definition POST (E : Engine) (W : World) (request : Request)
  : Response * list UpstreamCall :=
  match POST_try E W request [] with
  | (Normal response, log) => (response, log)
  | (Throw error, log) => (POST_catch error, log)
  end.

(** ** The transcript under its declared type *)

Definition role_name (r : Role) : jsstring :=
  match r with
  | user => lit "user"
  | assistant => lit "assistant"
  end.

Definition as_Role (v : jsval) : option Role :=
  match v with
  | Some (JString s) =>
      if str_eqb s (lit "user") then Some user
      else if str_eqb s (lit "assistant") then Some assistant
      else None
  | _ => None
  end.

Definition as_AttachmentRef (v : json) : option AttachmentRef :=
  match v with
  | JObject props =>
      match own props (lit "name"), own props (lit "type") with
      | Some (JString n), Some (JString t) =>
          Some {| ref_name := n; ref_type := t |}
      | _, _ => None
      end
  | _ => None
  end.

Fixpoint all_some {A B} (f : A -> option B) (l : list A) : option (list B) :=
  match l with
  | [] => Some []
  | x :: rest =>
      match f x, all_some f rest with
      | Some y, Some ys => Some (y :: ys)
      | _, _ => None
      end
  end.

(** A parsed value that has the shape of a [RequestMessage]. *)
Definition as_RequestMessage (v : json) : option RequestMessage :=
  match v with
  | JObject props =>
      match as_Role (own props (lit "role")), own props (lit "content") with
      | Some r, Some (JString c) =>
          match own props (lit "attachments") with
          | None => Some {| role := r; content := c; attachments := None |}
          | Some (JArray refs) =>
              match all_some as_AttachmentRef refs with
              | Some l =>
                  Some {| role := r; content := c; attachments := Some l |}
              | None => None
              end
          | Some _ => None
          end
      | _, _ => None
      end
  | _ => None
  end.

(** A parsed value that has the shape of [RequestMessage[]]. *)
Definition as_messages (v : json) : option (list RequestMessage) :=
  match v with
  | JArray elems => all_some as_RequestMessage elems
  | _ => None
  end.

(** The requests that pass the three checks of the handler, with their
    form and parsed transcript. *)
Definition accepted (request : Request) : option (FormData * json) :=
  match header_content_type request, request_formData request with
  | Some ct, Normal form =>
      if includes ct (lit "multipart/form-data") then
        match formData_get form (lit "messages") with
        | Some (FormText raw) =>
            match JSON_parse raw with
            | Some v => Some (form, v)
            | None => None
            end
        | _ => None
        end
      else None
  | _, _ => None
  end.

(** The valid requests: accepted, and the transcript has its type. *)
Definition valid (request : Request)
  : option (FormData * list RequestMessage) :=
  match accepted request with
  | Some (form, v) =>
      match as_messages v with
      | Some ms => Some (form, ms)
      | None => None
      end
  | None => None
  end.

Definition is_user_message (m : RequestMessage) : bool :=
  match role m with
  | user => true
  | assistant => false
  end.

(** The content of the latest user-role message, [""] without one. *)
Definition latest_user_content (ms : list RequestMessage) : jsstring :=
  match find is_user_message (rev ms) with
  | Some m => content m
  | None => []
  end.

(** Position of the latest user-role message. *)
Fixpoint latest_user_index (ms : list RequestMessage) : option nat :=
  match ms with
  | [] => None
  | m :: rest =>
      match latest_user_index rest with
      | Some i => Some (S i)
      | None => if is_user_message m then Some 0 else None
      end
  end.

(** What the upstream service is sent for a typed message. *)
Definition sent_as (r : Role) (c : jsstring) : UpstreamMessage :=
  {| up_role := Some (JString (role_name r));
     up_content := Some (JString c) |}.

Definition configured (W : World) : bool :=
  match OPENAI_API_KEY W with
  | None | Some [] => false
  | Some _ => true
  end.

(** The callback of [messages.map], read with the declared types. *)
Definition enrich_typed (len nattachments : nat)
    (attachmentSummary : jsstring) (index : nat) (message : RequestMessage)
  : RequestMessage :=
  if is_user_message message && Nat.eqb index (len - 1)
     && negb (Nat.eqb nattachments 0)
  then {| role := role message;
          content := content message ++ nl ++ nl ++ attachmentSummary;
          attachments := None |}
  else message.

Fixpoint map_index {A B} (f : nat -> A -> B) (index : nat) (l : list A)
  : list B :=
  match l with
  | [] => []
  | x :: rest => f index x :: map_index f (S index) rest
  end.

Definition enrichedMessages_typed (messages : list RequestMessage)
    (nattachments : nat) (attachmentSummary : jsstring)
  : list RequestMessage :=
  map_index (enrich_typed (List.length messages) nattachments
               attachmentSummary) 0 messages.

Definition sent_of (m : RequestMessage) : UpstreamMessage :=
  sent_as (role m) (content m).

(** The handler past its three checks, read with the declared types (what
    [POST] computes on a valid request, lemma [POST_valid]). *)
Definition POST_typed (E : Engine) (W : World) (formData : FormData)
    (messages : list RequestMessage) : Response * list UpstreamCall :=
  let attachments := collect_attachments formData in
  let latest := latest_user_content messages in
  let attachmentSummary := buildAttachmentSummary attachments in
  match OPENAI_API_KEY W with
  | None | Some [] =>
      (json_response (fallbackAssistant latest attachmentSummary) 200, [])
  | Some apiKey =>
      let call :=
        upstream_call apiKey
          (map sent_of
             (enrichedMessages_typed messages (List.length attachments)
                attachmentSummary)) in
      match fetch W call with
      | Throw error => (POST_catch error, [call])
      | Normal response =>
          if negb (ok response) then
            (json_response
               (fallbackAssistant latest
                  (attachmentSummary ++ nl ++ lit "(Reason: "
                     ++ slice0 200 (up_body response) ++ lit ")")) 200,
             [call])
          else
            match JSON_parse (up_body response) with
            | None =>
                (POST_catch
                   (JsError (error_text E (JsonSyntax (up_body response)))),
                 [call])
            | Some completion =>
                match completion_text E completion with
                | Throw error => (POST_catch error, [call])
                | Normal (Some replyText) =>
                    (json_response replyText 200, [call])
                | Normal None =>
                    (json_response
                       (fallbackAssistant latest attachmentSummary) 200,
                     [call])
                end
            end
      end
  end.

(** The three structural failures. *)
Definition content_type_of (request : Request) : jsstring :=
  match header_content_type request with
  | Some s => s
  | None => []
  end.

Definition wrong_content_type (request : Request) : Prop :=
  includes (content_type_of request) (lit "multipart/form-data") = false.

Definition messages_missing (request : Request) : Prop :=
  exists form,
    request_formData request = Normal form /\
    (formData_get form (lit "messages") = None \/
     exists f, formData_get form (lit "messages") = Some (FormFile f)).

Definition messages_not_json (request : Request) : Prop :=
  exists form raw,
    request_formData request = Normal form /\
    formData_get form (lit "messages") = Some (FormText raw) /\
    JSON_parse raw = None.

(** The [messages] field is a text that is not a transcript of the expected
    structure: not JSON, or JSON of another shape. *)
Definition messages_ill_structured (request : Request) : Prop :=
  exists form raw,
    request_formData request = Normal form /\
    formData_get form (lit "messages") = Some (FormText raw) /\
    match JSON_parse raw with
    | Some v => as_messages v = None
    | None => True
    end.

(** The file parts of a form, in order. *)
Fixpoint file_parts (form : FormData) : list File :=
  match form with
  | [] => []
  | (_, FormFile f) :: rest => f :: file_parts rest
  | (_, FormText _) :: rest => file_parts rest
  end.

End Route.

(* ================================================================== *)
(** * The composer: [src/app/app/page.tsx] *)
(* ================================================================== *)

Module Page.
Import JS.

(** ** Data *)

Definition File := Route.File.

(** [type AttachmentDraft] *)
Record AttachmentDraft := {
  draft_id : jsstring;
  draft_file : File;
  draft_preview : jsstring
}.

(** [type PersistedAttachment] *)
Record PersistedAttachment := {
  att_id : jsstring;
  att_name : jsstring;
  att_type : jsstring;
  att_url : jsstring
}.

Inductive ChatRole := user | assistant.

(** [type ChatMessage] *)
Record ChatMessage := {
  msg_id : jsstring;
  msg_role : ChatRole;
  msg_content : jsstring;
  msg_createdAt : N;
  msg_attachments : option (list PersistedAttachment)
}.

Definition MAX_ATTACHMENTS : Z := 4.

(** What [fetch("/api/chat")] resolves to: [response.ok], and what
    [response.json()] gives, a payload with or without a [reply] text, or
    an exception. *)
Record ChatResponse := {
  response_ok : bool;
  response_json : outcome (option jsstring)
}.

(** What lies outside the component.  Identifiers, object URLs and the
    clock are drawn by number: the state counts the draws. *)
Record Browser := {
  generateId : nat -> jsstring;
  createObjectURL : nat -> File -> jsstring;
  Date_now : nat -> N;
  fileToDataUrl : File -> outcome jsstring;
  fetch_api_chat : Route.FormData -> outcome ChatResponse
}.

(** The state of [Home]: the [useState] cells the handlers below touch,
    the number of draws made, the object URLs revoked and the requests
    sent so far.  [speakQueue] holds the text last queued for synthesis;
    the effect that speaks it and empties the cell is not modelled. *)
Record State := {
  messages : list ChatMessage;
  input : jsstring;
  pendingAttachments : list AttachmentDraft;
  isThinking : bool;
  autoSpeak : bool;
  speechSupported_output : bool;
  speakQueue : option jsstring;
  draws : nat;
  revoked : list jsstring;
  requests : list Route.FormData
}.

Definition greeting : jsstring :=
  lit "Hi, I'm Chatify—your friendly AI co-pilot for everyday challenges. Ask me anything, speak to me, or share images and files so we can tackle it together!".

Definition initial (B : Browser) (speech : bool) : State :=
  {| messages :=
       [{| msg_id := generateId B 0;
           msg_role := assistant;
           msg_content := greeting;
           msg_createdAt := Date_now B 0;
           msg_attachments := None |}];
     input := [];
     pendingAttachments := [];
     isThinking := false;
     autoSpeak := true;
     speechSupported_output := speech;
     speakQueue := None;
     draws := 1;
     revoked := [];
     requests := [] |}.

(** ** Staging *)

(** [files.slice(0, availableSlots).map((file) => ({ id, file, preview }))] *)
Fixpoint drafts_of (B : Browser) (draw : nat) (files : list File)
  : list AttachmentDraft :=
  match files with
  | [] => []
  | file :: rest =>
      {| draft_id := generateId B draw;
         draft_file := file;
         draft_preview := createObjectURL B draw file |}
        :: drafts_of B (S draw) rest
  end.

Definition handleFileChange (B : Browser) (files : list File) (s : State)
  : State :=
  match files with
  | [] => s
  | _ :: _ =>
      let prev := pendingAttachments s in
      let availableSlots := (MAX_ATTACHMENTS - Z.of_nat (List.length prev))%Z in
      if (availableSlots <=? 0)%Z then s
      else
        let chosen := firstn (Z.to_nat availableSlots) files in
        let nextFiles := drafts_of B (draws s) chosen in
        {| messages := messages s;
           input := input s;
           pendingAttachments := prev ++ nextFiles;
           isThinking := isThinking s;
           autoSpeak := autoSpeak s;
           speechSupported_output := speechSupported_output s;
           speakQueue := speakQueue s;
           draws := draws s + List.length chosen;
           revoked := revoked s;
           requests := requests s |}
  end.

Definition removeAttachment (id : jsstring) (s : State) : State :=
  let prev := pendingAttachments s in
  let next := filter (fun item => negb (str_eqb (draft_id item) id)) prev in
  let removed := find (fun item => str_eqb (draft_id item) id) prev in
  {| messages := messages s;
     input := input s;
     pendingAttachments := next;
     isThinking := isThinking s;
     autoSpeak := autoSpeak s;
     speechSupported_output := speechSupported_output s;
     speakQueue := speakQueue s;
     draws := draws s;
     revoked := match removed with
                | Some item => revoked s ++ [draft_preview item]
                | None => revoked s
                end;
     requests := requests s |}.

(** ** Sending *)

Definition role_name (r : ChatRole) : jsstring :=
  match r with
  | user => lit "user"
  | assistant => lit "assistant"
  end.

Definition serializeMessagesForRequest (conversation : list ChatMessage)
  : json :=
  JArray
    (map (fun message =>
            JObject
              ([(lit "role", JString (role_name (msg_role message)));
                (lit "content", JString (msg_content message))]
               ++ match msg_attachments message with
                  | Some l =>
                      [(lit "attachments",
                        JArray
                          (map (fun attachment =>
                                  JObject
                                    [(lit "name",
                                      JString (att_name attachment));
                                     (lit "type",
                                      JString (att_type attachment))])
                             l))]
                  | None => []
                  end))
       conversation).

(** The callback given to [Promise.allSettled]: the persisted attachment,
    or the rejection of [fileToDataUrl]. *)
Definition convert (B : Browser) (item : AttachmentDraft)
  : outcome PersistedAttachment :=
  match fileToDataUrl B (draft_file item) with
  | Normal url =>
      Normal {| att_id := draft_id item;
                att_name := Route.file_name (draft_file item);
                att_type := match Route.file_type (draft_file item) with
                            | [] => lit "application/octet-stream"
                            | t => t
                            end;
                att_url := url |}
  | Throw e => Throw e
  end.

(** [results.filter(fulfilled).map((result) => result.value)] *)
Fixpoint fulfilled {A} (results : list (outcome A)) : list A :=
  match results with
  | [] => []
  | Normal a :: rest => a :: fulfilled rest
  | Throw _ :: rest => fulfilled rest
  end.

(** [formData.append(`attachment-${index}`, file, file.name)] for each *)
Fixpoint append_files (index : nat) (snapshot : list AttachmentDraft)
  : Route.FormData :=
  match snapshot with
  | [] => []
  | item :: rest =>
      (lit "attachment-" ++ decimal (N.of_nat index),
       Route.FormFile (draft_file item))
        :: append_files (S index) rest
  end.

(** The assistant turn the [try] block or the [catch] clause makes. *)
Definition reply_content (result : outcome ChatResponse) : jsstring :=
  let failure (error : thrown) :=
    match error with
    | JsError message =>
        lit "I ran into an issue: " ++ message ++ lit ". Please try again."
    | NotAnError => lit "Something unexpected happened. Let's try again!"
    end in
  match result with
  | Throw error => failure error
  | Normal response =>
      if negb (response_ok response) then
        failure (JsError (lit "Failed to reach Chatify"))
      else
        match response_json response with
        | Throw error => failure error
        | Normal (Some text) => text
        | Normal None =>
            lit "I'm here, but I couldn't understand the request just yet."
        end
  end.

(** [!input.trim() && pendingAttachments.length === 0] *)
Definition nothing_to_send (s : State) : bool :=
  match trim (input s) with
  | [] => true
  | _ :: _ => false
  end && Nat.eqb (List.length (pendingAttachments s)) 0.

(** [handleSend], as one step from the state it is called in: the
    conversions and the request it awaits are answered by [B], and no other
    event comes in between. *)
Definition handleSend (B : Browser) (s : State) : State :=
  if nothing_to_send s then s
  else
    let attachmentsSnapshot := pendingAttachments s in
    let conversionResults := map (convert B) attachmentsSnapshot in
    let attachmentSnapshots := fulfilled conversionResults in
    let userMessage :=
      {| msg_id := generateId B (draws s);
         msg_role := user;
         msg_content := trim (input s);
         msg_createdAt := Date_now B (draws s);
         msg_attachments := Some attachmentSnapshots |} in
    let nextConversation := messages s ++ [userMessage] in
    let formData :=
      (lit "messages",
       Route.FormText
         (JSON_stringify (serializeMessagesForRequest nextConversation)))
        :: append_files 0 attachmentsSnapshot in
    let assistantMessage :=
      {| msg_id := generateId B (S (draws s));
         msg_role := assistant;
         msg_content := reply_content (fetch_api_chat B formData);
         msg_createdAt := Date_now B (S (draws s));
         msg_attachments := None |} in
    {| messages := nextConversation ++ [assistantMessage];
       input := [];
       pendingAttachments := [];
       isThinking := false;
       autoSpeak := autoSpeak s;
       speechSupported_output := speechSupported_output s;
       speakQueue :=
         if speechSupported_output s && autoSpeak s
         then Some (msg_content assistantMessage)
         else speakQueue s;
       draws := S (S (draws s));
       revoked := revoked s ++ map draft_preview attachmentsSnapshot;
       requests := requests s ++ [formData] |}.

(** The submit handler of the form. *)
Definition preventDefault (B : Browser) (s : State) : State :=
  if negb (isThinking s) then handleSend B s else s.

(** ** The component as a machine *)

Inductive event :=
| FileChange (files : list File)
| RemoveAttachment (id : jsstring)
| SetInput (text : jsstring)
| Submit.

Definition step (B : Browser) (s : State) (e : event) : State :=
  match e with
  | FileChange files => handleFileChange B files s
  | RemoveAttachment id => removeAttachment id s
  | SetInput text =>
      {| messages := messages s;
         input := text;
         pendingAttachments := pendingAttachments s;
         isThinking := isThinking s;
         autoSpeak := autoSpeak s;
         speechSupported_output := speechSupported_output s;
         speakQueue := speakQueue s;
         draws := draws s;
         revoked := revoked s;
         requests := requests s |}
  | Submit => preventDefault B s
  end.

Definition run (B : Browser) (events : list event) (s : State) : State :=
  fold_left (step B) events s.

(** The cap, on what is staged and on what has been sent. *)
Definition capped (s : State) : Prop :=
  List.length (pendingAttachments s) <= 4 /\
  forall formData,
    In formData (requests s) ->
    List.length (Route.file_parts formData) <= 4.

(** Whether [fileToDataUrl] resolves for the file of a draft. *)
Definition readable (B : Browser) (item : AttachmentDraft) : bool :=
  match fileToDataUrl B (draft_file item) with
  | Normal _ => true
  | Throw _ => false
  end.

(** What [Route.POST] answers, as the composer's [fetch] sees it. *)
Definition seen (r : Route.Response) : ChatResponse :=
  {| response_ok := ((200 <=? Route.status r) && (Route.status r <=? 299))%N;
     response_json := Normal (Some (Route.reply r)) |}.

End Page.

(* ================================================================== *)
(** * From the composer to the relay *)
(* ================================================================== *)

Module Link.
Import JS.

(** ** Values and texts of [JSON.stringify] *)

(** A character read, put in front of what the rest of a string token
    reads as. *)
Definition more (c : N) (p : option (jsstring * jsstring)) :=
  match p with
  | Some (t, r) => Some (c :: t, r)
  | None => None
  end.

(** The values without a number in them, as the serialised transcript is. *)
Fixpoint number_free (v : json) : bool :=
  match v with
  | JNumber _ => false
  | JArray elems => forallb number_free elems
  | JObject props => forallb (fun kv => number_free (snd kv)) props
  | _ => true
  end.

(** Depth of recursion [parse_value] needs on the text of a value. *)
Fixpoint weight (v : json) : nat :=
  match v with
  | JArray elems => S (list_sum (map (fun e => S (weight e)) elems))
  | JObject props => S (list_sum (map (fun kv => S (weight (snd kv))) props))
  | _ => 1
  end.

(** Induction over a value and the values inside it. *)
Definition json_induction (P : json -> Prop)
    (Hnull : P JNull) (Hbool : forall b, P (JBool b))
    (Hnum : forall lx, P (JNumber lx)) (Hstr : forall s, P (JString s))
    (Harr : forall elems, Forall P elems -> P (JArray elems))
    (Hobj : forall props, Forall (fun kv => P (snd kv)) props ->
                          P (JObject props)) :
  forall v, P v :=
  fix go (v : json) : P v :=
    match v with
    | JNull => Hnull
    | JBool b => Hbool b
    | JNumber lx => Hnum lx
    | JString s => Hstr s
    | JArray elems =>
        Harr elems
          ((fix all (l : list json) : Forall P l :=
              match l with
              | [] => Forall_nil P
              | x :: l' => Forall_cons x (go x) (all l')
              end) elems)
    | JObject props =>
        Hobj props
          ((fix all (l : list (jsstring * json))
              : Forall (fun kv => P (snd kv)) l :=
              match l with
              | [] => Forall_nil _
              | kv :: l' => Forall_cons kv (go (snd kv)) (all l')
              end) props)
    end.

(** The characters a value without numbers starts with. *)
Definition opens_value (c : N) : Prop :=
  c = 110%N \/ c = 116%N \/ c = 102%N \/ c = 34%N \/ c = 91%N \/ c = 123%N.

(** ** The wire *)

Definition role_of (r : Page.ChatRole) : Route.Role :=
  match r with
  | Page.user => Route.user
  | Page.assistant => Route.assistant
  end.

(** A message of the composer as the relay types it. *)
Definition to_RequestMessage (m : Page.ChatMessage) : Route.RequestMessage :=
  {| Route.role := role_of (Page.msg_role m);
     Route.content := Page.msg_content m;
     Route.attachments :=
       option_map
         (map (fun a => {| Route.ref_name := Page.att_name a;
                           Route.ref_type := Page.att_type a |}))
         (Page.msg_attachments m) |}.

(** The reference the transcript keeps of a draft: the name and the type
    [handleSend] persists, which [serializeMessagesForRequest] passes on. *)
Definition ref_of (item : Page.AttachmentDraft) : Route.AttachmentRef :=
  {| Route.ref_name := Route.file_name (Page.draft_file item);
     Route.ref_type := match Route.file_type (Page.draft_file item) with
                       | [] => lit "application/octet-stream"
                       | t => t
                       end |}.

(** A message of the transcript without its attachment references. *)
Definition bare (m : Route.RequestMessage) : Route.RequestMessage :=
  {| Route.role := Route.role m;
     Route.content := Route.content m;
     Route.attachments := None |}.

(** The request the relay receives for a form the composer posts, over a
    transport that delivers it as posted: the browser announces
    [multipart/form-data] with the boundary it chose, and
    [request.formData()] gives the entries back unchanged, in the order
    they were appended. *)
Definition received (boundary : jsstring) (formData : Route.FormData)
  : Route.Request :=
  {| Route.header_content_type :=
       Some (lit "multipart/form-data; boundary=" ++ boundary);
     Route.request_formData := Normal formData |}.

(** [fetch("/api/chat", ...)] answered by the relay itself. *)
Definition relay_fetch (E : Engine) (W : Route.World) (boundary : jsstring)
    (formData : Route.FormData) : outcome Page.ChatResponse :=
  Normal (Page.seen (fst (Route.POST E W (received boundary formData)))).

(** A browser whose [/api/chat] is the relay in world [W]. *)
Definition wired (E : Engine) (W : Route.World) (boundary : jsstring)
    (B : Page.Browser) : Page.Browser :=
  {| Page.generateId := Page.generateId B;
     Page.createObjectURL := Page.createObjectURL B;
     Page.Date_now := Page.Date_now B;
     Page.fileToDataUrl := Page.fileToDataUrl B;
     Page.fetch_api_chat := relay_fetch E W boundary |}.

(** The user turn [handleSend] makes in state [s]. *)
Definition user_turn (B : Page.Browser) (s : Page.State) : Page.ChatMessage :=
  {| Page.msg_id := Page.generateId B (Page.draws s);
     Page.msg_role := Page.user;
     Page.msg_content := trim (Page.input s);
     Page.msg_createdAt := Page.Date_now B (Page.draws s);
     Page.msg_attachments :=
       Some (Page.fulfilled
               (map (Page.convert B) (Page.pendingAttachments s))) |}.

(** The form [handleSend] posts from state [s]. *)
Definition outgoing (B : Page.Browser) (s : Page.State) : Route.FormData :=
  (lit "messages",
   Route.FormText
     (JSON_stringify
        (Page.serializeMessagesForRequest
           (Page.messages s ++ [user_turn B s]))))
    :: Page.append_files 0 (Page.pendingAttachments s).

(** The attachment summary the relay makes of the drafts staged in [s]. *)
Definition staged_summary (s : Page.State) : jsstring :=
  Route.buildAttachmentSummary
    (map (fun d => Route.detail_of (Page.draft_file d))
       (Page.pendingAttachments s)).

End Link.

(* ================================================================== *)
(** * The composer: controls, dictation, identifiers *)
(* ================================================================== *)

Module Controls.
Import JS Page.

(** [canSend]: [Boolean(input.trim()) || pendingAttachments.length > 0] *)
Definition canSend (s : State) : bool :=
  match trim (input s) with
  | [] => false
  | _ :: _ => true
  end || Nat.ltb 0 (List.length (pendingAttachments s)).

(** The submit button: [disabled={!canSend || isThinking}] *)
Definition submit_disabled (s : State) : bool :=
  negb (canSend s) || isThinking s.

(** The file input:
    [disabled={pendingAttachments.length >= MAX_ATTACHMENTS}] *)
Definition attach_disabled (s : State) : bool :=
  (MAX_ATTACHMENTS <=? Z.of_nat (List.length (pendingAttachments s)))%Z.

(** A [SpeechRecognitionResult]: the transcripts of its alternatives. *)
Definition SpeechRecognitionResult := list jsstring.

(** [results.map((result) => result[0]?.transcript ?? "").join(" ")] *)
Definition transcript_of (results : list SpeechRecognitionResult)
  : jsstring :=
  join (lit " ")
    (map (fun result => match result with
                        | first :: _ => first
                        | [] => []
                        end) results).

(** The function [recognition.onresult] gives to [setInput]:
    [(prev) => (prev ? `${prev.trim()} ${transcript}`.trim() : transcript)] *)
Definition onresult (results : list SpeechRecognitionResult)
    (prev : jsstring) : jsstring :=
  let transcript := transcript_of results in
  match prev with
  | [] => transcript
  | _ :: _ => trim (trim prev ++ lit " " ++ transcript)
  end.

(** A text that does not begin with white space. *)
Definition clean (s : jsstring) : Prop :=
  match s with
  | [] => True
  | c :: _ => is_space c = false
  end.



(** The roles of a transcript after [n] exchanges. *)
Definition exchanges (n : nat) : list ChatRole :=
  assistant :: List.concat (repeat [user; assistant] n).

End Controls.

(* ================================================================== *)
(** * Sample inputs *)
(* ================================================================== *)

Module Samples.
Import JS Route.

(** An engine for the examples: a number prints as it is written (true of
    literals in canonical form), errors read as V8 words them. *)
Definition sample_engine : Engine :=
  {| Number_toString := fun lexeme => lexeme;
     error_text := fun e =>
       match e with
       | NotIterable => lit "messages is not iterable"
       | ReadOfNull name =>
           lit "Cannot read properties of null (reading '" ++ name ++ lit "')"
       | NotAFunction name => name ++ lit " is not a function"
       | NoPrimitive => lit "Cannot convert object to primitive value"
       | JsonSyntax _ => lit "Unexpected token in JSON"
       end |}.

(** No credential in the environment. *)
Definition offline : World :=
  {| OPENAI_API_KEY := None;
     fetch := fun _ => Throw (JsError (lit "fetch failed")) |}.

Definition sample_key : jsstring := lit "sk-test".

(** A credential, and an upstream service that answers every call alike. *)
Definition online (answer : outcome UpstreamResponse) : World :=
  {| OPENAI_API_KEY := Some sample_key; fetch := fun _ => answer |}.

Definition multipart (raw : jsstring) (files : FormData) : Request :=
  {| header_content_type :=
       Some (lit "multipart/form-data; boundary=----x");
     request_formData := Normal ((lit "messages", FormText raw) :: files) |}.

Definition notes_txt : File :=
  {| file_name := lit "notes.txt";
     file_type := lit "text/plain";
     file_bytes := [x68; x69] |}.

Definition one_file : FormData := [(lit "attachment-0", FormFile notes_txt)].

(** The transcript [user:"A", assistant:"B", user:"C"]. *)
Definition transcript_ABC : jsstring :=
  litq "[{'role':'user','content':'A'},{'role':'assistant','content':'B'},{'role':'user','content':'C'}]".

Definition messages_ABC : list RequestMessage :=
  [{| role := user; content := lit "A"; attachments := None |};
   {| role := assistant; content := lit "B"; attachments := None |};
   {| role := user; content := lit "C"; attachments := None |}].

(** The transcript [user:"A", assistant:"B"]: the user turn is not last. *)
Definition transcript_AB : jsstring :=
  litq "[{'role':'user','content':'A'},{'role':'assistant','content':'B'}]".

Definition messages_AB : list RequestMessage :=
  [{| role := user; content := lit "A"; attachments := None |};
   {| role := assistant; content := lit "B"; attachments := None |}].

(** A lone message where the array of messages should be. *)
Definition transcript_lone : jsstring :=
  litq "{'role':'user','content':'Hello'}".

(** An array of something else than messages. *)
Definition transcript_numbers : jsstring := litq "[42]".

(** A user message whose content is an object with a [toString] entry. *)
Definition transcript_object : jsstring :=
  litq "[{'role':'user','content':{'toString':1}}]".

Definition request_ABC : Request := multipart transcript_ABC one_file.
Definition request_AB : Request := multipart transcript_AB one_file.
Definition request_lone : Request := multipart transcript_lone [].
Definition request_numbers : Request := multipart transcript_numbers [].
Definition request_object : Request := multipart transcript_object [].

(** The first end-to-end scenario: "Hello", no attachment. *)
Definition transcript_hello : jsstring :=
  litq "[{'role':'user','content':'Hello'}]".

Definition request_hello : Request := multipart transcript_hello [].

Definition form_hello : FormData := [(lit "messages", FormText transcript_hello)].

Definition value_hello : json :=
  JArray [JObject [(lit "role", JString (lit "user"));
                   (lit "content", JString (lit "Hello"))]].

Definition messages_hello : list RequestMessage :=
  [{| role := user; content := lit "Hello"; attachments := None |}].

Definition call_hello : UpstreamCall :=
  upstream_call sample_key [sent_as user (lit "Hello")].

(** A JSON body where the multipart one is expected. *)
Definition request_json : Request :=
  {| header_content_type := Some (lit "application/json");
     request_formData :=
       Throw (JsError (lit "Content-Type was not one of multipart/form-data or application/x-www-form-urlencoded.")) |}.

Definition error_500 : UpstreamResponse :=
  {| up_status := 500; up_body := lit "upstream exploded" |}.

Definition no_choice_200 : UpstreamResponse :=
  {| up_status := 200; up_body := litq "{'choices':[]}" |}.

Definition completion_200 : UpstreamResponse :=
  {| up_status := 200;
     up_body := litq "{'choices':[{'message':{'role':'assistant','content':'  Try this.  '}}]}" |}.

(** A browser for the examples: identifiers and URLs by number, a file is
    readable unless it is empty, and the relay answers every request with
    [answer]. *)
Definition sample_browser (answer : outcome Page.ChatResponse) : Page.Browser :=
  {| Page.generateId := fun n => lit "id-" ++ decimal (N.of_nat n);
     Page.createObjectURL := fun n _ => lit "blob:" ++ decimal (N.of_nat n);
     Page.Date_now := fun n => N.of_nat n;
     Page.fileToDataUrl := fun f =>
       match file_bytes f with
       | [] => Throw (JsError (lit "Unable to read " ++ file_name f))
       | bs => Normal (lit "data:" ++ file_type f ++ lit ";base64,"
                         ++ base64 (map Byte.to_N bs))
       end;
     Page.fetch_api_chat := fun _ => answer |}.

Definition empty_bin : File :=
  {| file_name := lit "empty.bin"; file_type := []; file_bytes := [] |}.

(** A state of the composer with a text typed and drafts staged. *)
Definition composing (text : jsstring) (files : list File) : Page.State :=
  {| Page.messages := [];
     Page.input := text;
     Page.pendingAttachments :=
       Page.drafts_of (sample_browser (Throw NotAnError)) 0 files;
     Page.isThinking := false;
     Page.autoSpeak := true;
     Page.speechSupported_output := false;
     Page.speakQueue := None;
     Page.draws := List.length files;
     Page.revoked := [];
     Page.requests := [] |}.

End Samples.

(* ================================================================== *)
(** * Scenarios *)
(* ================================================================== *)

Module Scenarios.
Import JS Samples.

(** The browser of the examples. *)
Definition desk : Page.Browser := sample_browser (Throw NotAnError).

(** The draft [desk] makes of a file at draw [n]. *)
Definition draft_at (n : nat) (file : Route.File) : Page.AttachmentDraft :=
  {| Page.draft_id := Page.generateId desk n;
     Page.draft_file := file;
     Page.draft_preview := Page.createObjectURL desk n file |}.

(** "Hi" typed between blanks, [notes.txt] staged. *)
Definition hi_with_notes : Page.State := composing (lit "  Hi ") [notes_txt].

(** Blanks typed, nothing staged. *)
Definition blank : Page.State := composing (lit "   ") [].

(** Four drafts staged. *)
Definition full : Page.State :=
  composing [] [notes_txt; empty_bin; notes_txt; empty_bin].

(** Three drafts staged. *)
Definition three : Page.State :=
  composing [] [notes_txt; empty_bin; notes_txt].

(** The first four bytes of a PNG file. *)
Definition photo_png : Route.File :=
  {| Route.file_name := lit "photo.png";
     Route.file_type := lit "image/png";
     Route.file_bytes := [x89; x50; x4e; x47] |}.

(** "Hello" with a reference to an attachment of an earlier turn. *)
Definition transcript_refs : jsstring :=
  litq "[{'role':'user','content':'Hello','attachments':[{'name':'a.txt','type':'text/plain'}]}]".

Definition request_refs : Route.Request := multipart transcript_refs [].

Definition form_refs : Route.FormData :=
  [(lit "messages", Route.FormText transcript_refs)].

Definition messages_refs : list Route.RequestMessage :=
  [{| Route.role := Route.user;
      Route.content := lit "Hello";
      Route.attachments :=
        Some [{| Route.ref_name := lit "a.txt";
                 Route.ref_type := lit "text/plain" |}] |}].

(** The form of [request_hello] with a field the handler does not read and
    the file under another name. *)
Definition form_renamed : Route.FormData :=
  [(lit "note", Route.FormText (lit "x"));
   (lit "messages", Route.FormText transcript_hello);
   (lit "upload", Route.FormFile notes_txt)].

Definition form_posted : Route.FormData :=
  (lit "messages", Route.FormText transcript_hello) :: one_file.


(** A file picked, a text typed, the form submitted. *)
Definition session : list Page.event :=
  [Page.FileChange [notes_txt]; Page.SetInput (lit "Hi"); Page.Submit].

End Scenarios.

(* ================================================================== *)
(** * Properties of the relay *)
(* ================================================================== *)

Module RouteFacts.
Import JS Route.

Lemma str_eqb_eq (a b : jsstring) : str_eqb a b = true <-> a = b.
Proof.
  revert b; induction a as [|x a IH]; intros [|y b]; simpl;
    try (split; congruence).
  rewrite andb_true_iff, N.eqb_eq, IH.
  split; [intros [-> ->]; reflexivity | intros H; inversion H; auto].
Qed.

Lemma str_eqb_refl (a : jsstring) : str_eqb a a = true.
Proof. apply str_eqb_eq; reflexivity. Qed.

(** ** The typed view and the run-time value agree *)

Section Typed.
Variable E : Engine.

Lemma as_Role_name (v : jsval) (r : Role) :
  as_Role v = Some r -> v = Some (JString (role_name r)).
Proof.
  unfold as_Role.
  destruct v as [[| | |s| |]|]; try discriminate.
  destruct (str_eqb s (lit "user")) eqn:Hu.
  - apply str_eqb_eq in Hu; intros [= <-]; subst; reflexivity.
  - destruct (str_eqb s (lit "assistant")) eqn:Ha; try discriminate.
    apply str_eqb_eq in Ha; intros [= <-]; subst; reflexivity.
Qed.

Lemma as_RequestMessage_props (v : json) (m : RequestMessage) :
  as_RequestMessage v = Some m ->
  exists props,
    v = JObject props /\
    own props (lit "role") = Some (JString (role_name (role m))) /\
    own props (lit "content") = Some (JString (content m)).
Proof.
  unfold as_RequestMessage.
  destruct v as [| | | | |props]; try discriminate.
  destruct (as_Role (own props (lit "role"))) as [r|] eqn:Hr;
    try discriminate.
  apply as_Role_name in Hr.
  destruct (own props (lit "content")) as [[| | |c| |]|] eqn:Hc;
    try discriminate.
  intros H; exists props.
  destruct (own props (lit "attachments")) as [[| | | |refs|]|];
    try discriminate;
    [destruct (all_some as_AttachmentRef refs); try discriminate|];
    injection H as <-; simpl; auto.
Qed.

Lemma get_role_typed (v : json) (m : RequestMessage) :
  as_RequestMessage v = Some m ->
  get E v (lit "role") = Normal (Some (JString (role_name (role m)))).
Proof.
  intros H; apply as_RequestMessage_props in H as (props & -> & Hr & _).
  simpl; rewrite Hr; reflexivity.
Qed.

Lemma get_content_typed (v : json) (m : RequestMessage) :
  as_RequestMessage v = Some m ->
  get E v (lit "content") = Normal (Some (JString (content m))).
Proof.
  intros H; apply as_RequestMessage_props in H as (props & -> & _ & Hc).
  simpl; rewrite Hc; reflexivity.
Qed.

Lemma is_user_typed (v : json) (m : RequestMessage) :
  as_RequestMessage v = Some m ->
  is_user E v = Normal (is_user_message m).
Proof.
  intros H; unfold is_user; rewrite (get_role_typed _ _ H); simpl.
  unfold is_user_message; destruct (role m); reflexivity.
Qed.

Lemma strip_typed (v : json) (m : RequestMessage) :
  as_RequestMessage v = Some m -> strip E v = Normal (sent_of m).
Proof.
  intros H; unfold strip.
  rewrite (get_role_typed _ _ H), (get_content_typed _ _ H); reflexivity.
Qed.

Lemma all_some_app {A B} (f : A -> option B) (l1 l2 : list A) r1 r2 :
  all_some f l1 = Some r1 -> all_some f l2 = Some r2 ->
  all_some f (l1 ++ l2) = Some (r1 ++ r2).
Proof.
  revert r1; induction l1 as [|x l1 IH]; simpl; intros r1 H1 H2.
  - injection H1 as <-; assumption.
  - destruct (f x) as [y|]; try discriminate.
    destruct (all_some f l1) as [ys|]; try discriminate.
    injection H1 as <-.
    rewrite (IH ys eq_refl H2); reflexivity.
Qed.

Lemma all_some_rev {A B} (f : A -> option B) (l : list A) r :
  all_some f l = Some r -> all_some f (rev l) = Some (rev r).
Proof.
  revert r; induction l as [|x l IH]; simpl; intros r H.
  - injection H as <-; reflexivity.
  - destruct (f x) as [y|] eqn:Hx; try discriminate.
    destruct (all_some f l) as [ys|]; try discriminate.
    injection H as <-; simpl.
    apply all_some_app; [apply IH; reflexivity|].
    simpl; rewrite Hx; reflexivity.
Qed.

Lemma all_some_length {A B} (f : A -> option B) (l : list A) r :
  all_some f l = Some r -> List.length r = List.length l.
Proof.
  revert r; induction l as [|x l IH]; simpl; intros r H.
  - injection H as <-; reflexivity.
  - destruct (f x); try discriminate.
    destruct (all_some f l) as [ys|]; try discriminate.
    injection H as <-; simpl; f_equal; apply IH; reflexivity.
Qed.

Lemma find_user_typed (l : list json) (ms : list RequestMessage) :
  all_some as_RequestMessage l = Some ms ->
  exists found,
    find_user E l = Normal found /\
    opt_get E found (lit "content") =
      Normal match find is_user_message ms with
             | Some m => Some (JString (content m))
             | None => undefined
             end.
Proof.
  revert ms; induction l as [|x l IH]; simpl; intros ms H.
  - injection H as <-; exists undefined; split; reflexivity.
  - destruct (as_RequestMessage x) as [m|] eqn:Hx; try discriminate.
    destruct (all_some as_RequestMessage l) as [ms'|]; try discriminate.
    injection H as <-; simpl.
    rewrite (is_user_typed _ _ Hx); simpl.
    destruct (is_user_message m).
    + exists (Some x); split; [reflexivity|].
      pose proof (get_content_typed _ _ Hx) as Hc.
      apply as_RequestMessage_props in Hx as (props & -> & _).
      exact Hc.
    + apply IH; reflexivity.
Qed.

Lemma latestUserMessage_typed (v : json) (ms : list RequestMessage) :
  as_messages v = Some ms ->
  latestUserMessage E v = Normal (JString (latest_user_content ms)).
Proof.
  unfold as_messages, latestUserMessage, latest_user_content.
  destruct v as [| | | |elems|]; try discriminate.
  intros H; simpl.
  destruct (find_user_typed _ _ (all_some_rev _ _ _ H)) as (found & -> & Hc).
  simpl; rewrite Hc; simpl.
  destruct (find is_user_message (rev ms)); reflexivity.
Qed.

Lemma enrich_typed_one (len n : nat) (summary : jsstring) (i : nat)
    (x : json) (m : RequestMessage) :
  as_RequestMessage x = Some m ->
  exists y,
    enrich E len n summary i x = Normal y /\
    strip E y = Normal (sent_of (enrich_typed len n summary i m)).
Proof.
  intros H; unfold enrich, enrich_typed.
  rewrite (is_user_typed _ _ H); simpl.
  destruct (is_user_message m && Nat.eqb i (len - 1) && negb (Nat.eqb n 0)).
  - rewrite (get_role_typed _ _ H), (get_content_typed _ _ H); simpl.
    eexists; split; [reflexivity|reflexivity].
  - exists x; split; [reflexivity|apply strip_typed; assumption].
Qed.

Lemma enrich_typed_all (len n : nat) (summary : jsstring)
    (elems : list json) :
  forall (ms : list RequestMessage) (i : nat),
  all_some as_RequestMessage elems = Some ms ->
  exists enriched,
    map_from (enrich E len n summary) i elems = Normal enriched /\
    forall j,
      map_from (fun _ => strip E) j enriched =
        Normal (map sent_of (map_index (enrich_typed len n summary) i ms)).
Proof.
  induction elems as [|x elems IH]; simpl; intros ms i H.
  - injection H as <-; exists []; split; [reflexivity|intros; reflexivity].
  - destruct (as_RequestMessage x) as [m|] eqn:Hx; try discriminate.
    destruct (all_some as_RequestMessage elems) as [ms'|]; try discriminate.
    injection H as <-.
    destruct (enrich_typed_one len n summary i _ _ Hx) as (y & Hy & Hs).
    destruct (IH ms' (S i) eq_refl) as (ys & Hys & Hss).
    exists (y :: ys); split.
    + rewrite Hy; simpl; rewrite Hys; reflexivity.
    + intros j; simpl; rewrite Hs; simpl; rewrite Hss; reflexivity.
Qed.

Lemma valid_inv (request : Request) (form : FormData)
    (ms : list RequestMessage) :
  valid request = Some (form, ms) ->
  exists ct raw elems,
    header_content_type request = Some ct /\
    includes ct (lit "multipart/form-data") = true /\
    request_formData request = Normal form /\
    formData_get form (lit "messages") = Some (FormText raw) /\
    JSON_parse raw = Some (JArray elems) /\
    all_some as_RequestMessage elems = Some ms.
Proof.
  unfold valid, accepted.
  destruct (header_content_type request) as [ct|]; try discriminate.
  destruct (request_formData request) as [f|]; try discriminate.
  destruct (includes ct (lit "multipart/form-data")) eqn:Hi;
    try discriminate.
  destruct (formData_get f (lit "messages")) as [[raw|]|] eqn:Hg;
    try discriminate.
  destruct (JSON_parse raw) as [v|] eqn:Hp; try discriminate.
  destruct (as_messages v) as [l|] eqn:Hm; try discriminate.
  intros [= <- <-].
  destruct v as [| | | |elems|]; try discriminate.
  exists ct, raw, elems; auto 10.
Qed.

(** On a valid request the handler computes what its typed reading says. *)
Lemma POST_valid (W : World) (request : Request) (form : FormData)
    (ms : list RequestMessage) :
  valid request = Some (form, ms) ->
  POST E W request = POST_typed E W form ms.
Proof.
  intros H.
  destruct (valid_inv _ _ _ H) as (ct & raw & elems & Hct & Hi & Hf & Hg & Hp & Hm).
  assert (Hl : latestUserMessage E (JArray elems)
               = Normal (JString (latest_user_content ms)))
    by (apply latestUserMessage_typed; exact Hm).
  unfold POST, POST_try, POST_typed, call_fallbackAssistant, bind, lift, ret.
  rewrite Hct, Hi, Hf; simpl.
  rewrite Hg, Hp, Hl; simpl.
  destruct (OPENAI_API_KEY W) as [[|k key]|]; try reflexivity.
  unfold enrichedMessages, enrichedMessages_typed.
  destruct (enrich_typed_all (List.length elems)
              (List.length (collect_attachments form))
              (buildAttachmentSummary (collect_attachments form))
              elems _ 0 Hm) as (enriched & -> & Hs).
  rewrite Hs, (all_some_length _ _ _ Hm).
  unfold await_fetch; simpl.
  destruct (fetch W _) as [response|error]; try reflexivity.
  destruct (ok response); simpl; try reflexivity.
  destruct (JSON_parse (up_body response)) as [completion|]; try reflexivity.
  destruct (completion_text E completion) as [[t|]|e]; reflexivity.
Qed.

End Typed.

(** ** The handler on any request *)

Ltac case_head :=
  match goal with
  | |- context [match ?x with _ => _ end] =>
      lazymatch x with
      | context [match _ with _ => _ end] => fail
      | _ => destruct x eqn:?
      end
  | |- context [if ?x then _ else _] =>
      lazymatch x with
      | context [match _ with _ => _ end] => fail
      | _ => destruct x eqn:?
      end
  end.

Section Untyped.
Variable E : Engine.
Variable W : World.

Lemma accepted_inv (request : Request) (form : FormData) (v : json) :
  accepted request = Some (form, v) ->
  exists ct raw,
    header_content_type request = Some ct /\
    includes ct (lit "multipart/form-data") = true /\
    request_formData request = Normal form /\
    formData_get form (lit "messages") = Some (FormText raw) /\
    JSON_parse raw = Some v.
Proof.
  unfold accepted.
  destruct (header_content_type request) as [ct|]; try discriminate.
  destruct (request_formData request) as [f|]; try discriminate.
  destruct (includes ct (lit "multipart/form-data")) eqn:Hi;
    try discriminate.
  destruct (formData_get f (lit "messages")) as [[raw|]|] eqn:Hg;
    try discriminate.
  destruct (JSON_parse raw) as [w|] eqn:Hp; try discriminate.
  intros [= <- <-]; exists ct, raw; auto.
Qed.

(** Past the three checks every path answers 200, and without a credential
    none of them reaches the upstream service. *)
Lemma POST_accepted (request : Request) (form : FormData) (v : json) :
  accepted request = Some (form, v) ->
  status (fst (POST E W request)) = 200%N /\
  (configured W = false -> snd (POST E W request) = []).
Proof.
  intros H.
  destruct (accepted_inv _ _ _ H) as (ct & raw & Hct & Hi & Hf & Hg & Hp).
  unfold POST, POST_try, call_fallbackAssistant, await_fetch, configured,
    bind, lift, ret, raise.
  rewrite Hct, Hi, Hf; cbn [negb]; cbv beta iota zeta.
  rewrite Hg, Hp.
  repeat (case_head; cbv beta iota zeta); cbn [fst snd];
    (split; [reflexivity|]); try reflexivity; try discriminate.
Qed.

End Untyped.

(** ** The three rejections *)

Section Rejections.
Variable E : Engine.
Variable W : World.

Lemma POST_wrong_content_type (request : Request) :
  wrong_content_type request ->
  POST E W request = (json_response (lit "Invalid payload format.") 400, []).
Proof.
  unfold wrong_content_type, content_type_of, POST, POST_try.
  intros ->; reflexivity.
Qed.

Lemma POST_messages_missing (request : Request) :
  ~ wrong_content_type request -> messages_missing request ->
  POST E W request =
    (json_response (lit "Missing conversation context.") 400, []).
Proof.
  unfold wrong_content_type, content_type_of, POST, POST_try, bind, lift.
  intros Hct (form & Hf & Hg).
  apply not_false_is_true in Hct; rewrite Hct, Hf; simpl.
  destruct Hg as [-> | [f ->]]; reflexivity.
Qed.

Lemma POST_messages_not_json (request : Request) :
  ~ wrong_content_type request -> messages_not_json request ->
  POST E W request =
    (json_response (lit "The conversation payload could not be parsed.")
       400, []).
Proof.
  unfold wrong_content_type, content_type_of, POST, POST_try, bind, lift.
  intros Hct (form & raw & Hf & Hg & Hp).
  apply not_false_is_true in Hct; rewrite Hct, Hf; simpl.
  rewrite Hg, Hp; reflexivity.
Qed.

Lemma POST_formData_throws (request : Request) (error : thrown) :
  ~ wrong_content_type request -> request_formData request = Throw error ->
  POST E W request = (POST_catch error, []).
Proof.
  unfold wrong_content_type, content_type_of, POST, POST_try, bind, lift.
  intros Hct Hf.
  apply not_false_is_true in Hct; rewrite Hct, Hf; reflexivity.
Qed.

(** Every request is rejected by one of the checks, fails to yield its
    form, or is accepted. *)
Lemma request_cases (request : Request) :
  wrong_content_type request \/
  (~ wrong_content_type request /\
   ((exists error, request_formData request = Throw error) \/
    messages_missing request \/
    messages_not_json request \/
    exists form v, accepted request = Some (form, v))).
Proof.
  unfold wrong_content_type, content_type_of, messages_missing,
    messages_not_json, accepted.
  destruct (header_content_type request) as [ct|];
    [|left; reflexivity].
  destruct (includes ct (lit "multipart/form-data")) eqn:Hi;
    [right; split; [discriminate|] | left; reflexivity].
  destruct (request_formData request) as [form|error];
    [|left; exists error; reflexivity].
  right.
  destruct (formData_get form (lit "messages")) as [[raw|f]|] eqn:Hg.
  - destruct (JSON_parse raw) as [v|] eqn:Hp.
    + right; right; exists form, v; reflexivity.
    + right; left; exists form, raw; auto.
  - left; exists form; split; [reflexivity|right; exists f; exact Hg].
  - left; exists form; split; [reflexivity|left; exact Hg].
Qed.

Lemma accepted_not_rejected (request : Request) (form : FormData)
    (v : json) :
  accepted request = Some (form, v) ->
  ~ (wrong_content_type request \/ messages_missing request \/
     messages_not_json request).
Proof.
  intros H.
  destruct (accepted_inv _ _ _ H) as (ct & raw & Hct & Hi & Hf & Hg & Hp).
  unfold wrong_content_type, content_type_of, messages_missing,
    messages_not_json.
  rewrite Hct, Hi, Hf.
  intros [Hw | [(f & [= <-] & Hm) | (f & r & [= <-] & Hm & Hn)]].
  - discriminate.
  - rewrite Hg in Hm; destruct Hm as [Hm | [x Hm]]; discriminate.
  - rewrite Hg in Hm; injection Hm as <-; congruence.
Qed.

(** The status is 400 exactly on the three rejections, 200 otherwise. *)
Lemma POST_status (request : Request) :
  (status (fst (POST E W request)) = 400%N /\
   (wrong_content_type request \/ messages_missing request \/
    messages_not_json request)) \/
  (status (fst (POST E W request)) = 200%N /\
   ~ (wrong_content_type request \/ messages_missing request \/
      messages_not_json request)).
Proof.
  destruct (request_cases request)
    as [Hw | (Hw & [(e & He) | [Hm | [Hn | (form & v & Ha)]]])].
  - left; rewrite (POST_wrong_content_type _ Hw); auto.
  - right; rewrite (POST_formData_throws _ _ Hw He); split;
      [reflexivity|].
    unfold messages_missing, messages_not_json; rewrite He.
    intros [? | [(f & ? & _) | (f & r & ? & _)]];
      [contradiction | discriminate | discriminate].
  - left; rewrite (POST_messages_missing _ Hw Hm); auto.
  - left; rewrite (POST_messages_not_json _ Hw Hn); auto.
  - right; split;
      [apply (POST_accepted E W _ _ _ Ha)
      |apply (accepted_not_rejected _ _ _ Ha)].
Qed.

(** Without a credential no request at all reaches the upstream service. *)
Lemma POST_offline (request : Request) :
  configured W = false -> snd (POST E W request) = [].
Proof.
  intros Hc.
  destruct (request_cases request)
    as [Hw | (Hw & [(e & He) | [Hm | [Hn | (form & v & Ha)]]])].
  - rewrite (POST_wrong_content_type _ Hw); reflexivity.
  - rewrite (POST_formData_throws _ _ Hw He); reflexivity.
  - rewrite (POST_messages_missing _ Hw Hm); reflexivity.
  - rewrite (POST_messages_not_json _ Hw Hn); reflexivity.
  - apply (POST_accepted E W _ _ _ Ha); assumption.
Qed.

End Rejections.

(** ** After the upstream call, whatever the transcript *)

Section AfterCall.
Variable E : Engine.
Variable W : World.

(** The call the handler logged is the one [fetch] was given; when the
    answer is OK and a text is extracted from it, that text is the reply. *)
Lemma POST_extracted (request : Request) (form : FormData) (v : json)
    (call : UpstreamCall) (response : UpstreamResponse) (completion : json)
    (text : jsstring) :
  accepted request = Some (form, v) ->
  snd (POST E W request) = [call] ->
  fetch W call = Normal response ->
  ok response = true ->
  JSON_parse (up_body response) = Some completion ->
  completion_text E completion = Normal (Some text) ->
  fst (POST E W request) = json_response text 200.
Proof.
  intros H.
  destruct (accepted_inv _ _ _ H) as (ct & raw & Hct & Hi & Hf & Hg & Hp).
  unfold POST, POST_try, call_fallbackAssistant, await_fetch,
    bind, lift, ret, raise.
  rewrite Hct, Hi, Hf; cbn [negb]; cbv beta iota zeta.
  rewrite Hg, Hp.
  repeat (case_head; cbv beta iota zeta); cbn [fst snd];
    try discriminate;
    intros [= <-] Hfetch Hok Hparse Htext;
    rewrite ?negb_true_iff, ?negb_false_iff in *;
    congruence.
Qed.

End AfterCall.

(** ** The fallback paths, whatever the transcript *)

Section General.
Variable E : Engine.
Variable W : World.

(** The reply of the fallback paths: the template prints the latest user
    content, which may throw. *)
Lemma POST_unconfigured (request : Request) (form : FormData) (v : json) :
  accepted request = Some (form, v) ->
  configured W = false ->
  POST E W request =
    match latestUserMessage E v with
    | Throw error => (POST_catch error, [])
    | Normal latest =>
        match ToString E latest with
        | Throw error => (POST_catch error, [])
        | Normal text =>
            (json_response
               (fallbackAssistant text
                  (buildAttachmentSummary (collect_attachments form))) 200,
             [])
        end
    end.
Proof.
  intros H Hc.
  destruct (accepted_inv _ _ _ H) as (ct & raw & Hct & Hi & Hf & Hg & Hp).
  unfold POST, POST_try, call_fallbackAssistant, bind, lift, ret.
  rewrite Hct, Hi, Hf; cbn [negb]; cbv beta iota zeta.
  rewrite Hg, Hp.
  destruct (latestUserMessage E v) as [latest|error]; [|reflexivity].
  unfold configured in Hc.
  destruct (OPENAI_API_KEY W) as [[|k key]|]; try discriminate;
    destruct (ToString E latest); reflexivity.
Qed.

Lemma POST_called (request : Request) (form : FormData) (v : json)
    (call : UpstreamCall) :
  accepted request = Some (form, v) ->
  snd (POST E W request) = [call] ->
  exists latest, latestUserMessage E v = Normal latest.
Proof.
  intros H.
  destruct (accepted_inv _ _ _ H) as (ct & raw & Hct & Hi & Hf & Hg & Hp).
  unfold POST, POST_try, bind, lift.
  rewrite Hct, Hi, Hf; cbn [negb]; cbv beta iota zeta.
  rewrite Hg, Hp.
  destruct (latestUserMessage E v) as [latest|error];
    [intros _; exists latest; reflexivity|discriminate].
Qed.

Lemma POST_not_ok (request : Request) (form : FormData) (v : json)
    (call : UpstreamCall) (response : UpstreamResponse) (latest : json) :
  accepted request = Some (form, v) ->
  snd (POST E W request) = [call] ->
  fetch W call = Normal response ->
  ok response = false ->
  latestUserMessage E v = Normal latest ->
  fst (POST E W request) =
    match ToString E latest with
    | Normal text =>
        json_response
          (fallbackAssistant text
             (buildAttachmentSummary (collect_attachments form) ++ nl
                ++ lit "(Reason: " ++ slice0 200 (up_body response)
                ++ lit ")")) 200
    | Throw error => POST_catch error
    end.
Proof.
  intros H.
  destruct (accepted_inv _ _ _ H) as (ct & raw & Hct & Hi & Hf & Hg & Hp).
  unfold POST, POST_try, call_fallbackAssistant, await_fetch,
    bind, lift, ret, raise.
  rewrite Hct, Hi, Hf; cbn [negb]; cbv beta iota zeta.
  rewrite Hg, Hp.
  intros Hlog Hfetch Hok Hl; revert Hlog Hfetch; rewrite Hl.
  cbv beta iota zeta.
  repeat (case_head; cbv beta iota zeta); cbn [fst snd];
    try discriminate;
    intros [= <-] Hfetch;
    rewrite ?negb_true_iff, ?negb_false_iff in *;
    congruence.
Qed.

Lemma POST_nothing_extracted (request : Request) (form : FormData)
    (v : json) (call : UpstreamCall) (response : UpstreamResponse)
    (completion latest : json) :
  accepted request = Some (form, v) ->
  snd (POST E W request) = [call] ->
  fetch W call = Normal response ->
  ok response = true ->
  JSON_parse (up_body response) = Some completion ->
  completion_text E completion = Normal None ->
  latestUserMessage E v = Normal latest ->
  fst (POST E W request) =
    match ToString E latest with
    | Normal text =>
        json_response
          (fallbackAssistant text
             (buildAttachmentSummary (collect_attachments form))) 200
    | Throw error => POST_catch error
    end.
Proof.
  intros H.
  destruct (accepted_inv _ _ _ H) as (ct & raw & Hct & Hi & Hf & Hg & Hp).
  unfold POST, POST_try, call_fallbackAssistant, await_fetch,
    bind, lift, ret, raise.
  rewrite Hct, Hi, Hf; cbn [negb]; cbv beta iota zeta.
  rewrite Hg, Hp.
  intros Hlog Hfetch Hok Hparse Htext Hl; revert Hlog Hfetch; rewrite Hl.
  cbv beta iota zeta.
  repeat (case_head; cbv beta iota zeta); cbn [fst snd];
    try discriminate;
    intros [= <-] Hfetch;
    rewrite ?negb_true_iff, ?negb_false_iff in *;
    congruence.
Qed.

End General.

Lemma POST_rejected (E : Engine) (W : World) (request : Request) :
  wrong_content_type request \/ messages_missing request \/
  messages_not_json request ->
  exists text,
    text <> [] /\ POST E W request = (json_response text 400, []).
Proof.
  intros H.
  destruct (includes (content_type_of request) (lit "multipart/form-data"))
    eqn:Hi.
  - assert (Hw : ~ wrong_content_type request)
      by (unfold wrong_content_type; rewrite Hi; discriminate).
    destruct H as [H | [H | H]]; [contradiction| |].
    + eexists; split; [|apply (POST_messages_missing E W _ Hw H)].
      vm_compute; discriminate.
    + eexists; split; [|apply (POST_messages_not_json E W _ Hw H)].
      vm_compute; discriminate.
  - eexists; split; [|apply (POST_wrong_content_type E W _ Hi)].
    vm_compute; discriminate.
Qed.

(** A 400 answer carries a non-empty reply, and no call was made. *)
Lemma POST_400 (E : Engine) (W : World) (request : Request) :
  status (fst (POST E W request)) = 400%N ->
  reply (fst (POST E W request)) <> [] /\ snd (POST E W request) = [].
Proof.
  intros Hs.
  destruct (POST_status E W request) as [(_ & Hr) | (Hs' & _)];
    [|rewrite Hs in Hs'; discriminate].
  destruct (POST_rejected E W request Hr) as (text & Hne & ->); auto.
Qed.

(** ** Positions in the transcript *)

Lemma nth_error_map_index {A B} (f : nat -> A -> B) (l : list A) :
  forall i k,
    nth_error (map_index f i l) k = option_map (f (i + k)) (nth_error l k).
Proof.
  induction l as [|x l IH]; intros i [|k]; simpl; try reflexivity.
  - rewrite Nat.add_0_r; reflexivity.
  - rewrite IH; simpl; rewrite Nat.add_succ_r; reflexivity.
Qed.

Lemma map_index_length {A B} (f : nat -> A -> B) (l : list A) :
  forall i, List.length (map_index f i l) = List.length l.
Proof. induction l; intros; simpl; auto. Qed.

(** A user-role message in last position is the latest user-role one. *)
Lemma latest_user_index_last (ms : list RequestMessage) (m : RequestMessage) :
  nth_error ms (List.length ms - 1) = Some m ->
  is_user_message m = true ->
  latest_user_index ms = Some (List.length ms - 1).
Proof.
  induction ms as [|x ms IH]; [discriminate|].
  destruct ms as [|y ms'].
  - simpl; intros [= ->] ->; reflexivity.
  - intros Hn Hu.
    assert (Hn' : nth_error (y :: ms') (List.length (y :: ms') - 1) = Some m)
      by (simpl in *; rewrite Nat.sub_0_r; exact Hn).
    change (latest_user_index (x :: y :: ms'))
      with (match latest_user_index (y :: ms') with
            | Some i => Some (S i)
            | None => if is_user_message x then Some 0 else None
            end).
    rewrite (IH Hn' Hu); simpl; rewrite Nat.sub_0_r; reflexivity.
Qed.

(** What [enrich_typed] does at one position. *)
Lemma enrich_typed_cases (len n : nat) (summary : jsstring) (i : nat)
    (m : RequestMessage) :
  (enrich_typed len n summary i m = m /\
   (is_user_message m = false \/ i <> len - 1 \/ n = 0)) \/
  (enrich_typed len n summary i m =
     {| role := role m;
        content := content m ++ nl ++ nl ++ summary;
        attachments := None |} /\
   is_user_message m = true /\ i = len - 1 /\ n <> 0).
Proof.
  unfold enrich_typed.
  destruct (is_user_message m); simpl; [|left; auto].
  destruct (Nat.eqb_spec i (len - 1)); simpl; [|left; auto].
  destruct (Nat.eqb_spec n 0); simpl; [left; auto|right; auto].
Qed.

End RouteFacts.

(* ================================================================== *)
(** * The relay: enrichment, fallback, rejections *)
(* ================================================================== *)

Module Relay.
Import JS Route RouteFacts Samples.

Lemma POST_typed_log (E : Engine) (W : World) (form : FormData)
    (ms : list RequestMessage) (k : N) (key : jsstring) :
  OPENAI_API_KEY W = Some (k :: key) ->
  snd (POST_typed E W form ms) =
    [upstream_call (k :: key)
       (map sent_of
          (enrichedMessages_typed ms
             (List.length (collect_attachments form))
             (buildAttachmentSummary (collect_attachments form))))].
Proof.
  intros Hk; unfold POST_typed; rewrite Hk.
  destruct (fetch W _) as [r|e]; [|reflexivity].
  destruct (negb (ok r)); [reflexivity|].
  destruct (JSON_parse (up_body r)) as [c|]; [|reflexivity].
  destruct (completion_text E c) as [[t|]|e]; reflexivity.
Qed.

Lemma nth_error_sent (ms : list RequestMessage) (n : nat)
    (summary : jsstring) (i : nat) (m : RequestMessage) :
  nth_error ms i = Some m ->
  nth_error (map sent_of (enrichedMessages_typed ms n summary)) i =
    Some (sent_of (enrich_typed (List.length ms) n summary i m)).
Proof.
  intros H; unfold enrichedMessages_typed.
  rewrite nth_error_map, nth_error_map_index, H; reflexivity.
Qed.

(** C1, as stated, fails: in [user:"A", assistant:"B"] with one attachment
    the latest user-role message is "A" and a file part is present, yet "A"
    goes upstream as it came and the summary is appended to nothing. *)
Lemma latest_user_turn_before_an_assistant_turn_is_not_enriched :
  valid request_AB
    = Some ((lit "messages", FormText transcript_AB) :: one_file,
            messages_AB) /\
  latest_user_index messages_AB = Some 0 /\
  collect_attachments one_file <> [] /\
  snd (POST sample_engine (online (Normal error_500)) request_AB)
    = [upstream_call sample_key
         [sent_as user (lit "A"); sent_as assistant (lit "B")]].
Proof.
  split; [vm_compute; reflexivity|].
  split; [reflexivity|].
  split; [discriminate|].
  vm_compute; reflexivity.
Qed.

(** C1, amended.  On a valid request, with a credential, the transcript
    goes upstream message for message.  A message that is not in last
    position, or is not user-role, and every message when there is no file
    part, is sent with its role and content as they came; so is every
    message that is not the latest user-role one.  A user-role message in
    last position, when there are file parts, is sent with its content
    followed by a blank line and the attachment summary. *)
Theorem enrichment_targets_a_last_user_turn
    (E : Engine) (W : World) (request : Request) (form : FormData)
    (ms : list RequestMessage) (key : jsstring) :
  valid request = Some (form, ms) ->
  OPENAI_API_KEY W = Some key ->
  key <> [] ->
  exists sent,
    snd (POST E W request) = [upstream_call key sent] /\
    List.length sent = List.length ms /\
    (forall i m,
       nth_error ms i = Some m ->
       i <> List.length ms - 1 \/ role m <> user \/
       collect_attachments form = [] ->
       nth_error sent i = Some (sent_as (role m) (content m))) /\
    (forall i m,
       nth_error ms i = Some m ->
       latest_user_index ms <> Some i ->
       nth_error sent i = Some (sent_as (role m) (content m))) /\
    (forall m,
       nth_error ms (List.length ms - 1) = Some m ->
       role m = user ->
       collect_attachments form <> [] ->
       nth_error sent (List.length ms - 1) =
         Some (sent_as user
                 (content m ++ nl ++ nl
                    ++ buildAttachmentSummary (collect_attachments form)))).
Proof.
  intros Hv Hk Hne.
  destruct key as [|k key]; [contradiction|].
  rewrite (POST_valid E W _ _ _ Hv), (POST_typed_log E W form ms _ _ Hk).
  set (atts := collect_attachments form).
  set (summary := buildAttachmentSummary atts).
  exists (map sent_of (enrichedMessages_typed ms (List.length atts) summary)).
  split; [reflexivity|].
  split.
  { unfold enrichedMessages_typed.
    rewrite length_map, map_index_length; reflexivity. }
  assert (Hcase : forall i m,
    nth_error ms i = Some m ->
    nth_error (map sent_of
                 (enrichedMessages_typed ms (List.length atts) summary)) i
      = Some (sent_of m) \/
    (nth_error (map sent_of
                  (enrichedMessages_typed ms (List.length atts) summary)) i
       = Some (sent_as (role m) (content m ++ nl ++ nl ++ summary)) /\
     latest_user_index ms = Some i /\ i = List.length ms - 1 /\
     role m = user /\ atts <> [])).
  { intros i m Hi.
    rewrite (nth_error_sent ms _ summary i m Hi).
    destruct (enrich_typed_cases (List.length ms) (List.length atts)
                summary i m) as [(-> & _) | (-> & Hu & -> & Hn)].
    - left; reflexivity.
    - right; split; [reflexivity|].
      split; [apply (latest_user_index_last ms m Hi Hu)|].
      split; [reflexivity|].
      split; [unfold is_user_message in Hu; destruct (role m);
              [reflexivity|discriminate]|].
      intros Ha; apply Hn; rewrite Ha; reflexivity. }
  split; [|split].
  - intros i m Hi Hwhy.
    destruct (Hcase i m Hi) as [Hs | (_ & _ & Hlast & Hr & Ha)];
      [exact Hs|].
    destruct Hwhy as [?|[?|?]]; contradiction.
  - intros i m Hi Hwhy.
    destruct (Hcase i m Hi) as [Hs | (_ & Hl & _)];
      [exact Hs|contradiction].
  - intros m Hi Hr Ha.
    assert (Hu : is_user_message m = true)
      by (unfold is_user_message; rewrite Hr; reflexivity).
    rewrite (nth_error_sent ms _ summary _ m Hi).
    unfold enrich_typed; rewrite Hu, Nat.eqb_refl.
    destruct atts as [|a atts']; [contradiction|].
    rewrite Hr; reflexivity.
Qed.

(** The transcript [user:"A", assistant:"B", user:"C"] with one attachment:
    "A" and "B" go upstream as they are, "C" with the summary appended. *)
Lemma enrichment_targets_a_last_user_turn_witness :
  valid request_ABC
    = Some ((lit "messages", FormText transcript_ABC) :: one_file,
            messages_ABC) /\
  exists sent,
    snd (POST sample_engine (online (Normal error_500)) request_ABC)
      = [upstream_call sample_key sent] /\
    nth_error sent 0 = Some (sent_as user (lit "A")) /\
    nth_error sent 1 = Some (sent_as assistant (lit "B")) /\
    nth_error sent 2 =
      Some (sent_as user
              (lit "C" ++ nl ++ nl
                 ++ buildAttachmentSummary (collect_attachments one_file))) /\
    buildAttachmentSummary (collect_attachments one_file)
      = lit "Attachments provided:" ++ nl
          ++ lit "• notes.txt (text/plain, ~1KB)".
Proof.
  assert (Hv : valid request_ABC
               = Some ((lit "messages", FormText transcript_ABC) :: one_file,
                       messages_ABC)) by (vm_compute; reflexivity).
  split; [exact Hv|].
  destruct (enrichment_targets_a_last_user_turn sample_engine
              (online (Normal error_500)) request_ABC _ _ sample_key
              Hv eq_refl)
    as (sent & Hlog & _ & Hframe & _ & Hlast).
  { discriminate. }
  exists sent; split; [exact Hlog|].
  split; [|split; [|split]].
  - apply (Hframe 0 _ eq_refl); left; discriminate.
  - apply (Hframe 1 _ eq_refl); left; discriminate.
  - apply (Hlast _ eq_refl eq_refl); discriminate.
  - vm_compute; reflexivity.
Defined.

(** A reply that starts like the [catch] clause's is no fallback reply. *)
Lemma not_a_fallback (text : jsstring) :
  nth 2 text 0%N = 104%N ->
  forall latest summary, text <> fallbackAssistant latest summary.
Proof.
  intros H latest summary ->.
  vm_compute in H; discriminate.
Qed.

(** C2, as stated, fails: a multipart body that parses, carrying a lone
    message object where the array should be, and no credential; the
    answer is the [catch] clause's text, not a fallback reply. *)
Lemma lone_message_is_not_answered_by_fallback :
  request_formData request_lone
    = Normal [(lit "messages", FormText transcript_lone)] /\
  JSON_parse transcript_lone
    = Some (JObject [(lit "role", JString (lit "user"));
                     (lit "content", JString (lit "Hello"))]) /\
  configured offline = false /\
  POST sample_engine offline request_lone
    = (json_response
         (lit "I had trouble completing that request (messages is not iterable). Let's try again in a moment.")
         200, []) /\
  forall latest summary,
    reply (fst (POST sample_engine offline request_lone))
      <> fallbackAssistant latest summary.
Proof.
  split; [vm_compute; reflexivity|].
  split; [vm_compute; reflexivity|].
  split; [reflexivity|].
  split; [vm_compute; reflexivity|].
  apply not_a_fallback; vm_compute; reflexivity.
Qed.

(** C2, amended.  Without a credential the handler calls nothing, whatever
    the request.  If moreover the request passes the three checks, the
    answer has status 200; whenever the latest user content of the parsed
    transcript is read and printed as a text, the reply is the fallback
    reply made of that text and the attachment summary, and two such
    requests with the same text and the same attachments get the same
    response; on a transcript of the declared type that text is the content
    of the latest user-role message; and when reading or printing the
    latest user content throws, the answer is the [catch] clause's. *)
Theorem fallback_without_credential
    (E : Engine) (W : World) (request : Request) :
  configured W = false ->
  snd (POST E W request) = [] /\
  forall form v,
    accepted request = Some (form, v) ->
    status (fst (POST E W request)) = 200%N /\
    (forall latest text,
       latestUserMessage E v = Normal latest ->
       ToString E latest = Normal text ->
       POST E W request =
         (json_response
            (fallbackAssistant text
               (buildAttachmentSummary (collect_attachments form))) 200,
          []) /\
       forall E' W' request' form' v' latest',
         configured W' = false ->
         accepted request' = Some (form', v') ->
         latestUserMessage E' v' = Normal latest' ->
         ToString E' latest' = Normal text ->
         collect_attachments form' = collect_attachments form ->
         POST E' W' request' = POST E W request) /\
    (forall ms,
       as_messages v = Some ms ->
       latestUserMessage E v = Normal (JString (latest_user_content ms)) /\
       POST E W request =
         (json_response
            (fallbackAssistant (latest_user_content ms)
               (buildAttachmentSummary (collect_attachments form))) 200,
          [])) /\
    (forall error,
       latestUserMessage E v = Throw error \/
       (exists latest,
          latestUserMessage E v = Normal latest /\
          ToString E latest = Throw error) ->
       POST E W request = (POST_catch error, [])).
Proof.
  intros Hc; split; [apply POST_offline, Hc|].
  intros form v Ha.
  pose proof (POST_unconfigured E W request form v Ha Hc) as Heq.
  split; [apply (POST_accepted E W _ _ _ Ha)|].
  split; [|split].
  - intros latest text Hl Ht; rewrite Hl, Ht in Heq.
    split; [exact Heq|].
    intros E' W' request' form' v' latest' Hc' Ha' Hl' Ht' Hf.
    rewrite (POST_unconfigured E' W' request' form' v' Ha' Hc').
    rewrite Hl', Ht', Hf, Heq; reflexivity.
  - intros ms Hms.
    pose proof (latestUserMessage_typed E v ms Hms) as Hl.
    split; [exact Hl|].
    rewrite Hl in Heq; exact Heq.
  - intros error [Hl | (latest & Hl & Ht)]; rewrite Hl in Heq;
      [|rewrite Ht in Heq]; exact Heq.
Qed.

(** "Hello", no attachment, no credential: the reply carries "Hello" and
    "No attachments were included."; and a transcript that is not of the
    declared type, an array holding one number, is answered by the fallback
    reply all the same. *)
Lemma fallback_without_credential_witness :
  POST sample_engine offline request_hello =
    (json_response
       (fallbackAssistant (lit "Hello") (lit "No attachments were included."))
       200, []) /\
  POST sample_engine offline request_numbers =
    (json_response
       (fallbackAssistant [] (lit "No attachments were included."))
       200, []).
Proof.
  split.
  - assert (Ha : accepted request_hello = Some (form_hello, value_hello))
      by (vm_compute; reflexivity).
    assert (Hl : latestUserMessage sample_engine value_hello
                 = Normal (JString (lit "Hello")))
      by (vm_compute; reflexivity).
    pose proof (proj1 (proj1 (proj2 (proj2
      (fallback_without_credential sample_engine offline request_hello
         eq_refl) form_hello value_hello Ha)) _ _ Hl eq_refl)) as H.
    rewrite H; vm_compute; reflexivity.
  - assert (Ha : accepted request_numbers
                 = Some ([(lit "messages", FormText transcript_numbers)],
                         JArray [JNumber (lit "42")]))
      by (vm_compute; reflexivity).
    assert (Hl : latestUserMessage sample_engine (JArray [JNumber (lit "42")])
                 = Normal (JString []))
      by (vm_compute; reflexivity).
    pose proof (proj1 (proj1 (proj2 (proj2
      (fallback_without_credential sample_engine offline request_numbers
         eq_refl) _ _ Ha)) _ _ Hl eq_refl)) as H.
    rewrite H; vm_compute; reflexivity.
Defined.

(** C3, as stated, fails: the upstream service answers 500 to a request
    whose latest user content is an object with an own [toString] entry;
    the template cannot print it, and the answer, though 200, is the
    [catch] clause's text. *)
Lemma unprintable_content_is_not_answered_by_fallback :
  (exists call,
     snd (POST sample_engine (online (Normal error_500)) request_object)
       = [call] /\
     fetch (online (Normal error_500)) call = Normal error_500) /\
  ok error_500 = false /\
  fst (POST sample_engine (online (Normal error_500)) request_object)
    = json_response
        (lit "I had trouble completing that request (Cannot convert object to primitive value). Let's try again in a moment.")
        200 /\
  forall latest summary,
    reply (fst (POST sample_engine (online (Normal error_500))
                  request_object))
      <> fallbackAssistant latest summary.
Proof.
  split; [eexists; split; [vm_compute; reflexivity|reflexivity]|].
  split; [vm_compute; reflexivity|].
  split; [vm_compute; reflexivity|].
  apply not_a_fallback; vm_compute; reflexivity.
Qed.

Lemma slice0_prefix (n : nat) (s : jsstring) :
  List.length (slice0 n s) <= n /\ exists rest, s = slice0 n s ++ rest.
Proof.
  unfold slice0; split.
  - rewrite length_firstn; apply Nat.le_min_l.
  - exists (skipn n s); symmetry; apply firstn_skipn.
Qed.

(** C3, amended.  When the upstream call made for an accepted request is
    answered with a non-success status, the response has status 200 and the
    latest user content of the transcript has been read; whenever that
    content is printed as a text, the reply is the fallback reply for that
    text and the attachment summary followed by a line with the first 200
    code units of the error body; on a transcript of the declared type the
    text is the content of the latest user-role message; and when printing
    throws, the answer is the [catch] clause's. *)
Theorem upstream_error_absorbed
    (E : Engine) (W : World) (request : Request) (form : FormData)
    (v : json) (call : UpstreamCall) (response : UpstreamResponse) :
  accepted request = Some (form, v) ->
  snd (POST E W request) = [call] ->
  fetch W call = Normal response ->
  ok response = false ->
  status (fst (POST E W request)) = 200%N /\
  (exists latest, latestUserMessage E v = Normal latest) /\
  (forall latest text,
     latestUserMessage E v = Normal latest ->
     ToString E latest = Normal text ->
     fst (POST E W request) =
       json_response
         (fallbackAssistant text
            (buildAttachmentSummary (collect_attachments form) ++ nl
               ++ lit "(Reason: " ++ slice0 200 (up_body response)
               ++ lit ")")) 200) /\
  (forall ms,
     as_messages v = Some ms ->
     fst (POST E W request) =
       json_response
         (fallbackAssistant (latest_user_content ms)
            (buildAttachmentSummary (collect_attachments form) ++ nl
               ++ lit "(Reason: " ++ slice0 200 (up_body response)
               ++ lit ")")) 200) /\
  (forall latest error,
     latestUserMessage E v = Normal latest ->
     ToString E latest = Throw error ->
     fst (POST E W request) = POST_catch error) /\
  List.length (slice0 200 (up_body response)) <= 200 /\
  exists rest, up_body response = slice0 200 (up_body response) ++ rest.
Proof.
  intros Ha Hlog Hfetch Hok.
  split; [apply (POST_accepted E W _ _ _ Ha)|].
  split; [apply (POST_called E W _ _ _ _ Ha Hlog)|].
  split; [|split; [|split; [|apply slice0_prefix]]].
  - intros latest text Hl Ht.
    rewrite (POST_not_ok E W _ _ _ _ _ _ Ha Hlog Hfetch Hok Hl), Ht.
    reflexivity.
  - intros ms Hms.
    rewrite (POST_not_ok E W _ _ _ _ _ _ Ha Hlog Hfetch Hok
               (latestUserMessage_typed E v ms Hms)).
    reflexivity.
  - intros latest error Hl Ht.
    rewrite (POST_not_ok E W _ _ _ _ _ _ Ha Hlog Hfetch Hok Hl), Ht.
    reflexivity.
Qed.

(** The third end-to-end scenario: the upstream service answers 500. *)
Lemma upstream_error_absorbed_witness :
  fst (POST sample_engine (online (Normal error_500)) request_hello) =
    json_response
      (fallbackAssistant (lit "Hello")
         (lit "No attachments were included." ++ nl
            ++ lit "(Reason: upstream exploded)")) 200.
Proof.
  assert (Ha : accepted request_hello = Some (form_hello, value_hello))
    by (vm_compute; reflexivity).
  assert (Hlog : snd (POST sample_engine (online (Normal error_500))
                        request_hello) = [call_hello])
    by (vm_compute; reflexivity).
  assert (Hl : latestUserMessage sample_engine value_hello
               = Normal (JString (lit "Hello")))
    by (vm_compute; reflexivity).
  pose proof (proj1 (proj2 (proj2
    (upstream_error_absorbed sample_engine (online (Normal error_500))
       request_hello form_hello value_hello call_hello error_500
       Ha Hlog eq_refl eq_refl))) _ _ Hl eq_refl) as H.
  rewrite H; vm_compute; reflexivity.
Defined.

(** C4, as stated, fails: a [messages] text that is JSON but no array of
    message records is not rejected; it is answered 200 like a
    conversation without a user turn. *)
Lemma array_of_numbers_is_not_rejected :
  messages_ill_structured request_numbers /\
  POST sample_engine offline request_numbers =
    (json_response
       (fallbackAssistant [] (lit "No attachments were included.")) 200,
     []) /\
  status (fst (POST sample_engine offline request_numbers)) <> 400%N.
Proof.
  split.
  - exists [(lit "messages", FormText transcript_numbers)],
      transcript_numbers.
    split; [reflexivity|].
    split; vm_compute; reflexivity.
  - split; [vm_compute; reflexivity|vm_compute; discriminate].
Qed.

(** C4, amended.  The handler answers 400 exactly when the content type
    does not contain [multipart/form-data], or the form has no [messages]
    entry or a file under that name, or the [messages] text is not JSON;
    the 400 answers carry a non-empty reply and no upstream call is made on
    them; every other answer has status 200. *)
Theorem structural_rejections
    (E : Engine) (W : World) (request : Request) :
  (status (fst (POST E W request)) = 400%N <->
   wrong_content_type request \/ messages_missing request \/
   messages_not_json request) /\
  (status (fst (POST E W request)) = 400%N ->
   reply (fst (POST E W request)) <> [] /\ snd (POST E W request) = []) /\
  (status (fst (POST E W request)) <> 400%N ->
   status (fst (POST E W request)) = 200%N).
Proof.
  assert (Hiff : status (fst (POST E W request)) = 400%N <->
                 wrong_content_type request \/ messages_missing request \/
                 messages_not_json request).
  { destruct (POST_status E W request) as [(Hs & Hr) | (Hs & Hr)].
    - split; auto.
    - split; [rewrite Hs; discriminate|contradiction]. }
  split; [exact Hiff|].
  split.
  - apply POST_400.
  - intros Hs.
    destruct (POST_status E W request) as [(Hs' & _) | (Hs' & _)];
      [contradiction|exact Hs'].
Qed.

(** A body announced as JSON is turned away with an explanation. *)
Lemma structural_rejections_witness :
  status (fst (POST sample_engine offline request_json)) = 400%N /\
  reply (fst (POST sample_engine offline request_json)) <> [].
Proof.
  assert (Hs : status (fst (POST sample_engine offline request_json))
               = 400%N).
  { apply (proj1 (structural_rejections sample_engine offline request_json)).
    left; vm_compute; reflexivity. }
  split; [exact Hs|].
  apply (proj1 (proj2 (structural_rejections sample_engine offline
                         request_json)) Hs).
Defined.

(** C5, as stated, fails: the upstream service answers 200 with no choice,
    so that nothing is extracted, to a request whose latest user content is
    an object with an own [toString] entry; the answer is the [catch]
    clause's text, not the fallback reply. *)
Lemma nothing_extracted_is_not_always_fallback :
  (exists call,
     snd (POST sample_engine (online (Normal no_choice_200)) request_object)
       = [call] /\
     fetch (online (Normal no_choice_200)) call = Normal no_choice_200) /\
  ok no_choice_200 = true /\
  (exists completion,
     JSON_parse (up_body no_choice_200) = Some completion /\
     completion_text sample_engine completion = Normal None) /\
  forall latest summary,
    reply (fst (POST sample_engine (online (Normal no_choice_200))
                  request_object))
      <> fallbackAssistant latest summary.
Proof.
  split; [eexists; split; [vm_compute; reflexivity|reflexivity]|].
  split; [vm_compute; reflexivity|].
  split; [eexists; split; vm_compute; reflexivity|].
  apply not_a_fallback; vm_compute; reflexivity.
Qed.

(** The text of a completion body of the expected shape. *)
Lemma completion_text_shape (E : Engine)
    (props first message : list (jsstring * json)) (rest : list json)
    (s : jsstring) :
  own props (lit "choices") = Some (JArray (JObject first :: rest)) ->
  own first (lit "message") = Some (JObject message) ->
  own message (lit "content") = Some (JString s) ->
  completion_text E (JObject props) = Normal (Some (trim s)).
Proof.
  intros Hc Hm Hs; unfold completion_text, opt_get, get.
  rewrite Hc; cbn [obind opt_get0 get0 hd_error].
  rewrite Hm; cbn [obind]; rewrite Hs; reflexivity.
Qed.

(** C5, amended.  When the upstream call made for an accepted request is
    answered with a success status and a JSON body: if the body has the
    expected shape, the reply is the content of its first choice's message,
    trimmed; and if the chain [completion?.choices?.[0]?.message?.content]
    is [undefined] or [null], so that nothing is extracted, the latest user
    content of the transcript has been read and, whenever it is printed as
    a text, the reply is the fallback reply for that text and the
    attachment summary; on a transcript of the declared type the text is
    the content of the latest user-role message; and when printing throws,
    the answer is the [catch] clause's. *)
Theorem completion_reply
    (E : Engine) (W : World) (request : Request) (form : FormData)
    (v : json) (call : UpstreamCall) (response : UpstreamResponse)
    (completion : json) :
  accepted request = Some (form, v) ->
  snd (POST E W request) = [call] ->
  fetch W call = Normal response ->
  ok response = true ->
  JSON_parse (up_body response) = Some completion ->
  (forall props first message rest s,
     completion = JObject props ->
     own props (lit "choices") = Some (JArray (JObject first :: rest)) ->
     own first (lit "message") = Some (JObject message) ->
     own message (lit "content") = Some (JString s) ->
     fst (POST E W request) = json_response (trim s) 200) /\
  (exists latest, latestUserMessage E v = Normal latest) /\
  (forall latest text,
     completion_text E completion = Normal None ->
     latestUserMessage E v = Normal latest ->
     ToString E latest = Normal text ->
     fst (POST E W request) =
       json_response
         (fallbackAssistant text
            (buildAttachmentSummary (collect_attachments form))) 200) /\
  (forall ms,
     as_messages v = Some ms ->
     completion_text E completion = Normal None ->
     fst (POST E W request) =
       json_response
         (fallbackAssistant (latest_user_content ms)
            (buildAttachmentSummary (collect_attachments form))) 200) /\
  (forall latest error,
     completion_text E completion = Normal None ->
     latestUserMessage E v = Normal latest ->
     ToString E latest = Throw error ->
     fst (POST E W request) = POST_catch error).
Proof.
  intros Ha Hlog Hfetch Hok Hparse.
  split; [|split; [apply (POST_called E W _ _ _ _ Ha Hlog)|split; [|split]]].
  - intros props first message rest s -> Hc Hm Hs.
    apply (POST_extracted E W request form v call response _ _
             Ha Hlog Hfetch Hok Hparse).
    apply (completion_text_shape E props first message rest s Hc Hm Hs).
  - intros latest text Hnone Hl Ht.
    rewrite (POST_nothing_extracted E W _ _ _ _ _ _ _
               Ha Hlog Hfetch Hok Hparse Hnone Hl), Ht.
    reflexivity.
  - intros ms Hms Hnone.
    rewrite (POST_nothing_extracted E W _ _ _ _ _ _ _
               Ha Hlog Hfetch Hok Hparse Hnone
               (latestUserMessage_typed E v ms Hms)).
    reflexivity.
  - intros latest error Hnone Hl Ht.
    rewrite (POST_nothing_extracted E W _ _ _ _ _ _ _
               Ha Hlog Hfetch Hok Hparse Hnone Hl), Ht.
    reflexivity.
Qed.

(** The fourth end-to-end scenario: the completion "  Try this.  " is
    answered as "Try this."; and a completion without a choice is answered
    by the fallback reply. *)
Lemma completion_reply_witness :
  fst (POST sample_engine (online (Normal completion_200)) request_hello)
    = json_response (lit "Try this.") 200 /\
  fst (POST sample_engine (online (Normal no_choice_200)) request_hello)
    = json_response
        (fallbackAssistant (lit "Hello")
           (lit "No attachments were included.")) 200.
Proof.
  assert (Ha : accepted request_hello = Some (form_hello, value_hello))
    by (vm_compute; reflexivity).
  split.
  - assert (Hlog : snd (POST sample_engine (online (Normal completion_200))
                          request_hello) = [call_hello])
      by (vm_compute; reflexivity).
    assert (Hp : JSON_parse (up_body completion_200)
                 = Some (JObject
                     [(lit "choices",
                       JArray
                         [JObject
                            [(lit "message",
                              JObject
                                [(lit "role", JString (lit "assistant"));
                                 (lit "content",
                                  JString (lit "  Try this.  "))])]])]))
      by (vm_compute; reflexivity).
    pose proof (proj1
      (completion_reply sample_engine (online (Normal completion_200))
         request_hello form_hello value_hello call_hello completion_200 _
         Ha Hlog eq_refl eq_refl Hp) _ _ _ _ _
      eq_refl eq_refl eq_refl eq_refl) as H.
    rewrite H; vm_compute; reflexivity.
  - assert (Hlog : snd (POST sample_engine (online (Normal no_choice_200))
                          request_hello) = [call_hello])
      by (vm_compute; reflexivity).
    assert (Hp : JSON_parse (up_body no_choice_200)
                 = Some (JObject [(lit "choices", JArray [])]))
      by (vm_compute; reflexivity).
    assert (Hl : latestUserMessage sample_engine value_hello
                 = Normal (JString (lit "Hello")))
      by (vm_compute; reflexivity).
    pose proof (proj1 (proj2 (proj2
      (completion_reply sample_engine (online (Normal no_choice_200))
         request_hello form_hello value_hello call_hello no_choice_200 _
         Ha Hlog eq_refl eq_refl Hp))) _ _ eq_refl Hl eq_refl) as H.
    rewrite H; vm_compute; reflexivity.
Defined.

(** ** The attachment summary *)

Lemma join_concat (sep x : jsstring) (l : list jsstring) :
  sep ++ join sep (x :: l) = List.concat (map (fun p => sep ++ p) (x :: l)).
Proof.
  revert x; induction l as [|y l IH]; intros x.
  - simpl; rewrite app_nil_r; reflexivity.
  - change (join sep (x :: y :: l)) with (x ++ sep ++ join sep (y :: l)).
    rewrite IH; simpl; rewrite <- !app_assoc; reflexivity.
Qed.

Lemma collect_attachments_files (form : FormData) :
  collect_attachments form = map detail_of (file_parts form).
Proof.
  induction form as [|[k [t|f]] form IH]; simpl; congruence.
Qed.

(** C6.  The summary is a function of the list of attachments: without a
    file part it is exactly "No attachments were included."; otherwise it
    is the heading followed by one bullet line per attachment, in the order
    of the file parts; forms with the same file parts get the same
    summary. *)
Theorem attachment_summary_text :
  (forall form,
     file_parts form = [] ->
     buildAttachmentSummary (collect_attachments form)
       = lit "No attachments were included.") /\
  (forall item items,
     buildAttachmentSummary (item :: items)
       = lit "Attachments provided:"
           ++ List.concat (map (fun each => nl ++ bullet each) (item :: items))) /\
  (forall form,
     collect_attachments form = map detail_of (file_parts form)) /\
  (forall form form',
     file_parts form = file_parts form' ->
     buildAttachmentSummary (collect_attachments form)
       = buildAttachmentSummary (collect_attachments form')).
Proof.
  split; [|split; [|split]].
  - intros form H; rewrite collect_attachments_files, H; reflexivity.
  - intros item items.
    change (buildAttachmentSummary (item :: items))
      with (lit "Attachments provided:"
              ++ nl ++ join nl (bullet item :: map bullet items)).
    rewrite join_concat, <- (map_map bullet (fun p => nl ++ p)).
    reflexivity.
  - apply collect_attachments_files.
  - intros form form' H; rewrite !collect_attachments_files, H; reflexivity.
Qed.

(** One text file of two bytes, and no file at all. *)
Lemma attachment_summary_text_witness :
  buildAttachmentSummary [detail_of notes_txt]
    = lit "Attachments provided:" ++ nl
        ++ lit "• notes.txt (text/plain, ~1KB)" /\
  buildAttachmentSummary (collect_attachments form_hello)
    = lit "No attachments were included.".
Proof.
  split.
  - pose proof (proj1 (proj2 attachment_summary_text)
                  (detail_of notes_txt) []) as H.
    rewrite H; vm_compute; reflexivity.
  - apply (proj1 attachment_summary_text form_hello); reflexivity.
Defined.

(** ** Totality *)

(** C9.  Every request gets a response with a reply text, of status 200 or
    400; the status is 200 unless one of the three structural checks
    rejects the request; and whatever is thrown inside the [try] block is
    answered, with status 200, by the text naming the failure. *)
Theorem handler_always_replies
    (E : Engine) (W : World) (request : Request) :
  (status (fst (POST E W request)) = 200%N \/
   status (fst (POST E W request)) = 400%N) /\
  (~ (wrong_content_type request \/ messages_missing request \/
      messages_not_json request) ->
   status (fst (POST E W request)) = 200%N) /\
  (forall error log,
     POST_try E W request [] = (Throw error, log) ->
     POST E W request =
       (json_response
          (lit "I had trouble completing that request ("
             ++ match error with
                | JsError message => message
                | NotAnError => lit "Unknown error"
                end
             ++ lit "). Let's try again in a moment.") 200,
        log)).
Proof.
  split; [|split].
  - destruct (POST_status E W request) as [(Hs & _) | (Hs & _)]; auto.
  - intros Hn.
    destruct (POST_status E W request) as [(_ & Hr) | (Hs & _)];
      [contradiction|exact Hs].
  - intros error log H; unfold POST; rewrite H; reflexivity.
Qed.

(** The network fails under the upstream call: the failure is the reply. *)
Lemma handler_always_replies_witness :
  POST sample_engine (online (Throw (JsError (lit "fetch failed"))))
    request_hello =
    (json_response
       (lit "I had trouble completing that request (fetch failed). Let's try again in a moment.")
       200,
     [call_hello]).
Proof.
  pose proof (proj2 (proj2
    (handler_always_replies sample_engine
       (online (Throw (JsError (lit "fetch failed")))) request_hello))
    (JsError (lit "fetch failed")) [call_hello]) as H.
  assert (Ht : POST_try sample_engine
                 (online (Throw (JsError (lit "fetch failed"))))
                 request_hello []
               = (Throw (JsError (lit "fetch failed")), [call_hello]))
    by (vm_compute; reflexivity).
  specialize (H Ht).
  rewrite H; vm_compute; reflexivity.
Defined.

End Relay.

(* ================================================================== *)
(** * The transcript on its way to the relay *)
(* ================================================================== *)

Module Wire.
Import JS Link.

(** ** [JSON.parse] after [JSON.stringify] *)

Lemma hex_hex_digit (n : N) : (n < 16)%N -> hex (hex_digit n) = Some n.
Proof.
  intros H; unfold hex, hex_digit, is_digit.
  destruct (N.ltb_spec n 10).
  - replace ((48 <=? 48 + n) && (48 + n <=? 57))%N with true.
    + f_equal; lia.
    + symmetry; apply andb_true_iff; split; apply N.leb_le; lia.
  - replace ((48 <=? 87 + n) && (87 + n <=? 57))%N with false.
    + replace ((97 <=? 87 + n) && (87 + n <=? 102))%N with true.
      * f_equal; lia.
      * symmetry; apply andb_true_iff; split; apply N.leb_le; lia.
    + symmetry; apply andb_false_iff; right; apply N.leb_gt; lia.
Qed.

Lemma unit_digits (c : N) :
  (c < 65536)%N ->
  (c / 4096 < 16 /\ (c / 256) mod 16 < 16 /\ (c / 16) mod 16 < 16 /\
   c mod 16 < 16 /\
   c / 4096 * 4096 + (c / 256) mod 16 * 256 + (c / 16) mod 16 * 16 + c mod 16
     = c)%N.
Proof.
  intros H.
  assert (H1 : (c / 4096 < 16)%N) by (apply N.Div0.div_lt_upper_bound; lia).
  assert (H2 : ((c / 256) mod 16 < 16)%N) by (apply N.mod_lt; discriminate).
  assert (H3 : ((c / 16) mod 16 < 16)%N) by (apply N.mod_lt; discriminate).
  assert (H4 : (c mod 16 < 16)%N) by (apply N.mod_lt; discriminate).
  repeat (split; [assumption|]).
  pose proof (N.div_mod c 16 ltac:(discriminate)) as E1.
  pose proof (N.div_mod (c / 16) 16 ltac:(discriminate)) as E2.
  pose proof (N.div_mod (c / 256) 16 ltac:(discriminate)) as E3.
  rewrite N.Div0.div_div in E2; change (16 * 16)%N with 256%N in E2.
  rewrite N.Div0.div_div in E3; change (256 * 16)%N with 4096%N in E3.
  lia.
Qed.

Lemma parse_u_escape (c : N) (t : jsstring) :
  (c < 65536)%N ->
  parse_chars (u_escape c ++ t) = more c (parse_chars t).
Proof.
  intros H; destruct (unit_digits c H) as (H1 & H2 & H3 & H4 & H5).
  unfold u_escape.
  cbn [app parse_chars].
  change (92 =? 34)%N with false; change (92 =? 92)%N with true.
  change (117 =? 117)%N with true; cbv beta iota.
  rewrite !hex_hex_digit by assumption.
  rewrite H5; reflexivity.
Qed.

Lemma parse_raw (c : N) (t : jsstring) :
  c <> 34%N -> c <> 92%N -> (32 <= c)%N ->
  parse_chars (c :: t) = more c (parse_chars t).
Proof.
  intros H1 H2 H3; cbn [parse_chars].
  apply N.eqb_neq in H1, H2; rewrite H1, H2.
  replace (c <? 32)%N with false by (symmetry; apply N.ltb_ge; exact H3).
  reflexivity.
Qed.

Lemma parse_escape_unit (c : N) (t : jsstring) :
  parse_chars (escape_unit c ++ t) = more c (parse_chars t).
Proof.
  unfold escape_unit.
  repeat match goal with
         | |- context [if (c =? ?k)%N then _ else _] =>
             destruct (N.eqb_spec c k); [subst c; reflexivity|]
         end.
  destruct (N.ltb_spec c 32); [apply parse_u_escape; lia|].
  destruct (is_high c || is_low c) eqn:Hs.
  - apply parse_u_escape.
    unfold is_high, is_low in Hs.
    apply orb_true_iff in Hs as [Hs|Hs];
      apply andb_true_iff in Hs as [_ Hs]; apply N.leb_le in Hs; lia.
  - apply (parse_raw c t); assumption.
Qed.

Lemma parse_pair (c d : N) (t : jsstring) :
  is_high c && is_low d = true ->
  parse_chars (c :: d :: t) = more c (more d (parse_chars t)).
Proof.
  unfold is_high, is_low; intros H.
  apply andb_true_iff in H as [Hc Hd].
  apply andb_true_iff in Hc as [Hc _], Hd as [Hd _].
  apply N.leb_le in Hc, Hd.
  rewrite (parse_raw c) by lia.
  rewrite (parse_raw d) by lia.
  reflexivity.
Qed.

Lemma quote_chars_cons (c : N) (r : jsstring) :
  quote_chars (c :: r) =
    match r with
    | d :: r' =>
        if is_high c && is_low d then c :: d :: quote_chars r'
        else escape_unit c ++ quote_chars r
    | [] => escape_unit c ++ quote_chars r
    end.
Proof.
  destruct r; [simpl; rewrite app_nil_r|]; reflexivity.
Qed.

(** Reading back the characters [JSON.stringify] writes for a string. *)
Lemma parse_quote_chars (s rest : jsstring) :
  parse_chars (quote_chars s ++ 34%N :: rest) = Some (s, rest).
Proof.
  remember (List.length s) as n eqn:Hn.
  revert s Hn; induction n as [n IH] using lt_wf_ind; intros s Hn.
  destruct s as [|c r]; [reflexivity|].
  rewrite quote_chars_cons.
  destruct r as [|d r'].
  - rewrite <- app_assoc, parse_escape_unit; reflexivity.
  - destruct (is_high c && is_low d) eqn:Hp.
    + cbn [app]; rewrite (parse_pair c d _ Hp).
      rewrite (IH (List.length r')) by (subst n; simpl; lia || reflexivity).
      reflexivity.
    + rewrite <- app_assoc, parse_escape_unit.
      rewrite (IH (List.length (d :: r'))) by (subst n; simpl; lia || reflexivity).
      reflexivity.
Qed.

Lemma stringify_head (v : json) (t : jsstring) :
  number_free v = true ->
  exists c t', JSON_stringify v ++ t = c :: t' /\ opens_value c.
Proof.
  unfold opens_value.
  destruct v as [|[|]|lx|s|elems|props]; intros H; try discriminate;
    cbn [JSON_stringify]; eexists; eexists; (split; [reflexivity|]); auto 10.
Qed.

Lemma skip_ws_opens (c : N) (t : jsstring) :
  opens_value c -> skip_ws (c :: t) = c :: t.
Proof.
  intros [ -> | [ -> | [ -> | [ -> | [ -> | -> ]]]]]; reflexivity.
Qed.

Lemma skip_ws_stringify (v : json) (t : jsstring) :
  number_free v = true ->
  skip_ws (JSON_stringify v ++ t) = JSON_stringify v ++ t.
Proof.
  intros H; destruct (stringify_head v t H) as (c & t' & -> & Hc).
  apply skip_ws_opens, Hc.
Qed.

Lemma join_cons2 (sep x y : jsstring) (l : list jsstring) :
  join sep (x :: y :: l) = x ++ sep ++ join sep (y :: l).
Proof. reflexivity. Qed.


(** Elements of an array, given that each reads back. *)
Lemma parse_elems_stringify (l : list json) :
  Forall (fun v => number_free v = true ->
            forall fuel rest, weight v <= fuel ->
              parse_value fuel (JSON_stringify v ++ rest) = Some (v, rest)) l ->
  forallb number_free l = true ->
  forall x fuel rest,
    (number_free x = true ->
     forall fuel rest, weight x <= fuel ->
       parse_value fuel (JSON_stringify x ++ rest) = Some (x, rest)) ->
    number_free x = true ->
    list_sum (map (fun e => S (weight e)) (x :: l)) <= fuel ->
    parse_elems fuel
      (join (lit ",") (map JSON_stringify (x :: l)) ++ 93%N :: rest)
      = Some (x :: l, rest).
Proof.
  induction 1 as [|y l Hy Hl IH]; intros Hnf x fuel rest Hx Hxf Hfuel.
  - destruct fuel as [|f]; [simpl in Hfuel; lia|].
    cbn [map join parse_elems].
    rewrite Hx by (assumption || (simpl in Hfuel; lia)).
    reflexivity.
  - destruct fuel as [|f]; [simpl in Hfuel; lia|].
    cbn [forallb] in Hnf; apply andb_true_iff in Hnf as [Hyf Hnf].
    cbn [map]; rewrite join_cons2.
    cbn [parse_elems]; rewrite <- !app_assoc.
    rewrite Hx by (assumption || (simpl in Hfuel; lia)).
    change (lit "," ++ ?t) with (44%N :: t).
    cbn [skip_ws is_ws N.eqb Pos.eqb orb app].
    change (map JSON_stringify (y :: l)) with
      (JSON_stringify y :: map JSON_stringify l) in *.
    assert (Hskip : forall t,
      skip_ws (join (lit ",") (JSON_stringify y :: map JSON_stringify l) ++ t)
        = join (lit ",") (JSON_stringify y :: map JSON_stringify l) ++ t).
    { intros t; destruct l as [|z l'].
      - cbn [map join]; apply skip_ws_stringify, Hyf.
      - cbn [map]; rewrite join_cons2, <- app_assoc.
        apply skip_ws_stringify, Hyf. }
    rewrite Hskip.
    assert (Hrec := IH Hnf y f rest Hy Hyf).
    cbn [map] in Hrec; rewrite Hrec by (simpl in Hfuel |- *; lia).
    reflexivity.
Qed.


Lemma parse_members_stringify (l : list (jsstring * json)) :
  Forall (fun kv => number_free (snd kv) = true ->
            forall fuel rest, weight (snd kv) <= fuel ->
              parse_value fuel (JSON_stringify (snd kv) ++ rest)
                = Some (snd kv, rest)) l ->
  forallb (fun kv => number_free (snd kv)) l = true ->
  forall x fuel rest,
    (number_free (snd x) = true ->
     forall fuel rest, weight (snd x) <= fuel ->
       parse_value fuel (JSON_stringify (snd x) ++ rest)
         = Some (snd x, rest)) ->
    number_free (snd x) = true ->
    list_sum (map (fun kv => S (weight (snd kv))) (x :: l)) <= fuel ->
    parse_members fuel
      (join (lit ",")
         (map (fun kv => quote (fst kv) ++ lit ":" ++ JSON_stringify (snd kv))
            (x :: l)) ++ 125%N :: rest)
      = Some (x :: l, rest).
Proof.
  assert (Hone : forall (x : jsstring * json) f t,
    (number_free (snd x) = true ->
     forall fuel rest, weight (snd x) <= fuel ->
       parse_value fuel (JSON_stringify (snd x) ++ rest)
         = Some (snd x, rest)) ->
    number_free (snd x) = true -> weight (snd x) <= f ->
    parse_members (S f)
      ((quote (fst x) ++ lit ":" ++ JSON_stringify (snd x)) ++ t) =
    match skip_ws t with
    | 125%N :: r' => Some ([x], r')
    | 44%N :: r' =>
        match parse_members f (skip_ws r') with
        | Some (l, r'') => Some (x :: l, r'')
        | None => None
        end
    | _ => None
    end).
  { intros [k v] f t Hv Hvf Hw; cbn [fst snd] in *.
    unfold quote; cbn [app parse_members].
    rewrite <- !app_assoc; cbn [app].
    rewrite parse_quote_chars.
    change (lit ":" ++ ?u) with (58%N :: u).
    cbn [skip_ws is_ws N.eqb Pos.eqb orb].
    rewrite (skip_ws_stringify v _ Hvf), (Hv Hvf f _ Hw).
    reflexivity. }
  induction 1 as [|y l Hy Hl IH]; intros Hnf x fuel rest Hx Hxf Hfuel.
  - destruct fuel as [|f]; [simpl in Hfuel; lia|].
    cbn [map join].
    rewrite (Hone x f (125%N :: rest) Hx Hxf) by (simpl in Hfuel; lia).
    reflexivity.
  - destruct fuel as [|f]; [simpl in Hfuel; lia|].
    cbn [forallb] in Hnf; apply andb_true_iff in Hnf as [Hyf Hnf].
    cbn [map]; rewrite join_cons2, <- app_assoc.
    rewrite (Hone x f _ Hx Hxf) by (simpl in Hfuel; lia).
    rewrite <- app_assoc.
    change (lit "," ++ ?t) with (44%N :: t).
    cbn [skip_ws is_ws N.eqb Pos.eqb orb app].
    set (str := fun kv : jsstring * json =>
                  quote (fst kv) ++ lit ":" ++ JSON_stringify (snd kv)) in *.
    assert (Hskip : forall t,
      skip_ws (join (lit ",") (str y :: map str l) ++ t)
        = join (lit ",") (str y :: map str l) ++ t).
    { intros t; destruct l as [|z l']; [cbn [map join]|
        cbn [map]; rewrite join_cons2, <- app_assoc];
        unfold str at 1, quote; reflexivity. }
    rewrite Hskip.
    assert (Hrec := IH Hnf y f rest Hy Hyf).
    cbn [map] in Hrec; fold str in Hrec.
    rewrite Hrec by (simpl in Hfuel |- *; lia).
    reflexivity.
Qed.

(** Reading back what [JSON.stringify] writes, given fuel for the depth. *)
Lemma parse_value_stringify (v : json) :
  number_free v = true ->
  forall fuel rest,
    weight v <= fuel ->
    parse_value fuel (JSON_stringify v ++ rest) = Some (v, rest).
Proof.
  induction v as [|b|lx|s|elems IH|props IH] using json_induction;
    intros Hnf fuel rest Hfuel;
    (destruct fuel as [|f]; [simpl in Hfuel; lia|]).
  - reflexivity.
  - destruct b; reflexivity.
  - discriminate.
  - cbn [JSON_stringify]; unfold quote.
    cbn [app parse_value]; rewrite <- app_assoc; cbn [app].
    rewrite parse_quote_chars; reflexivity.
  - cbn [JSON_stringify number_free weight] in *.
    destruct elems as [|x elems].
    + reflexivity.
    + inversion IH as [|? ? Hx Hl]; subst.
      cbn [forallb] in Hnf; apply andb_true_iff in Hnf as [Hxf Hnf].
      rewrite <- !app_assoc.
      change (lit "[" ++ ?t) with (91%N :: t).
      change (lit "]" ++ rest) with (93%N :: rest).
      cbn [app parse_value].
      assert (Hh : exists c t',
        join (lit ",") (map JSON_stringify (x :: elems)) ++ 93%N :: rest
          = c :: t' /\ opens_value c).
      { destruct elems as [|y l]; [cbn [map join]|
          cbn [map]; rewrite join_cons2, <- app_assoc];
          apply stringify_head, Hxf. }
      destruct Hh as (c & t' & Ht & Hc).
      pose proof (parse_elems_stringify elems Hl Hnf x f rest Hx Hxf) as Hp.
      rewrite Ht in *; rewrite (skip_ws_opens c t' Hc).
      specialize (Hp (le_S_n _ _ Hfuel)).
      destruct Hc as [ -> | [ -> | [ -> | [ -> | [ -> | -> ]]]]];
        cbv beta iota; rewrite Hp; reflexivity.
  - cbn [JSON_stringify number_free weight] in *.
    destruct props as [|x props].
    + reflexivity.
    + inversion IH as [|? ? Hx Hl]; subst.
      cbn [forallb] in Hnf; apply andb_true_iff in Hnf as [Hxf Hnf].
      rewrite <- !app_assoc.
      change (lit "{" ++ ?t) with (123%N :: t).
      change (lit "}" ++ rest) with (125%N :: rest).
      cbn [app parse_value].
      set (str := fun kv : jsstring * json =>
                    quote (fst kv) ++ lit ":" ++ JSON_stringify (snd kv)) in *.
      assert (Hh : exists t',
        join (lit ",") (map str (x :: props)) ++ 125%N :: rest = 34%N :: t').
      { destruct props as [|y l]; [cbn [map join]|
          cbn [map]; rewrite join_cons2, <- app_assoc];
          unfold str at 1, quote; eexists; reflexivity. }
      destruct Hh as (t' & Ht).
      pose proof (parse_members_stringify props Hl Hnf x f rest Hx Hxf) as Hp.
      fold str in Hp; rewrite Ht in *.
      cbn [skip_ws is_ws N.eqb Pos.eqb orb].
      rewrite Hp by (apply le_S_n; exact Hfuel).
      reflexivity.
Qed.

Lemma weight_join {A} (w : A -> nat) (str : A -> jsstring) (items : list A) :
  Forall (fun a => w a <= List.length (str a)) items ->
  list_sum (map (fun a => S (w a)) items)
    <= List.length (join (lit ",") (map str items)) + 1.
Proof.
  induction 1 as [|x l Hx Hl IH]; [simpl; lia|].
  destruct l as [|y l'].
  - simpl; lia.
  - change (map str (x :: y :: l')) with (str x :: str y :: map str l').
    rewrite join_cons2, !length_app.
    change (List.length (lit ",")) with 1.
    change (map str (y :: l')) with (str y :: map str l') in IH.
    cbn [map] in *; unfold list_sum in *; cbn [fold_right] in *; lia.
Qed.

Lemma weight_stringify (v : json) :
  number_free v = true -> weight v <= List.length (JSON_stringify v).
Proof.
  induction v as [|b|lx|s|elems IH|props IH] using json_induction;
    intros Hnf.
  - simpl; lia.
  - destruct b; simpl; lia.
  - discriminate.
  - cbn [JSON_stringify weight]; unfold quote; simpl; lia.
  - cbn [JSON_stringify weight number_free] in *.
    rewrite !length_app.
    change (List.length (lit "[")) with 1; change (List.length (lit "]")) with 1.
    assert (H : Forall (fun e => weight e <= List.length (JSON_stringify e))
                  elems).
    { rewrite forallb_forall in Hnf; rewrite Forall_forall in *; auto. }
    pose proof (weight_join weight JSON_stringify elems H); lia.
  - cbn [JSON_stringify weight number_free] in *.
    rewrite !length_app.
    change (List.length (lit "{")) with 1; change (List.length (lit "}")) with 1.
    assert (H : Forall (fun kv : jsstring * json =>
                          weight (snd kv)
                            <= List.length (quote (fst kv) ++ lit ":"
                                              ++ JSON_stringify (snd kv)))
                  props).
    { rewrite forallb_forall in Hnf; rewrite Forall_forall in *.
      intros kv Hin; rewrite !length_app.
      specialize (IH kv Hin (Hnf kv Hin)); lia. }
    pose proof (weight_join (fun kv => weight (snd kv)) _ props H) as Hj.
    exact (le_n_S _ _ Hj).
Qed.

(** [JSON.parse(JSON.stringify(v))] is [v], for a value without numbers. *)
Lemma JSON_parse_stringify (v : json) :
  number_free v = true -> JSON_parse (JSON_stringify v) = Some v.
Proof.
  intros Hnf; unfold JSON_parse.
  pose proof (skip_ws_stringify v [] Hnf) as Hs.
  pose proof (parse_value_stringify v Hnf
                (2 * List.length (JSON_stringify v) + 2) []) as Hp.
  rewrite app_nil_r in Hs, Hp.
  rewrite Hs, Hp; [reflexivity|].
  pose proof (weight_stringify v Hnf); lia.
Qed.

(** ** The transcript on the wire *)

Lemma all_some_refs (l : list Page.PersistedAttachment) :
  Route.all_some Route.as_AttachmentRef
    (map (fun attachment =>
            JObject [(lit "name", JString (Page.att_name attachment));
                     (lit "type", JString (Page.att_type attachment))]) l)
  = Some (map (fun a => {| Route.ref_name := Page.att_name a;
                           Route.ref_type := Page.att_type a |}) l).
Proof.
  induction l as [|a l IH]; [reflexivity|].
  cbn [map Route.all_some]; rewrite IH; reflexivity.
Qed.

Lemma as_RequestMessage_plain (r : Page.ChatRole) (c : jsstring) :
  Route.as_RequestMessage
    (JObject [(lit "role", JString (Page.role_name r));
              (lit "content", JString c)])
  = Some {| Route.role := role_of r; Route.content := c;
            Route.attachments := None |}.
Proof. destruct r; reflexivity. Qed.

Lemma as_RequestMessage_refs (r : Page.ChatRole) (c : jsstring)
    (refs : list json) :
  Route.as_RequestMessage
    (JObject [(lit "role", JString (Page.role_name r));
              (lit "content", JString c);
              (lit "attachments", JArray refs)])
  = match Route.all_some Route.as_AttachmentRef refs with
    | Some l => Some {| Route.role := role_of r; Route.content := c;
                        Route.attachments := Some l |}
    | None => None
    end.
Proof. destruct r; reflexivity. Qed.

(** The relay's typed reading of what the composer serialises. *)
Lemma serialize_typed (conversation : list Page.ChatMessage) :
  Route.as_messages (Page.serializeMessagesForRequest conversation)
    = Some (map to_RequestMessage conversation).
Proof.
  unfold Route.as_messages, Page.serializeMessagesForRequest.
  induction conversation as [|m l IH]; [reflexivity|].
  cbn [map Route.all_some]; rewrite IH.
  destruct m as [id r c t [atts|]]; unfold to_RequestMessage;
    cbn [Page.msg_role Page.msg_content Page.msg_attachments option_map app].
  - rewrite as_RequestMessage_refs, all_some_refs; reflexivity.
  - rewrite as_RequestMessage_plain; reflexivity.
Qed.

Lemma refs_number_free (atts : list Page.PersistedAttachment) :
  forallb number_free
    (map (fun attachment =>
            JObject [(lit "name", JString (Page.att_name attachment));
                     (lit "type", JString (Page.att_type attachment))]) atts)
  = true.
Proof. induction atts as [|a atts IH]; [reflexivity|exact IH]. Qed.

Lemma serialize_number_free (conversation : list Page.ChatMessage) :
  number_free (Page.serializeMessagesForRequest conversation) = true.
Proof.
  unfold Page.serializeMessagesForRequest; cbn [number_free].
  induction conversation as [|m l IH]; [reflexivity|].
  cbn [map forallb]; rewrite IH, andb_true_r.
  destruct (Page.msg_attachments m) as [atts|]; [|reflexivity].
  cbn; rewrite refs_number_free; reflexivity.
Qed.

(** What the composer stringifies, the relay parses back. *)
Lemma transcript_round_trip (conversation : list Page.ChatMessage) :
  JSON_parse (JSON_stringify (Page.serializeMessagesForRequest conversation))
    = Some (Page.serializeMessagesForRequest conversation).
Proof. apply JSON_parse_stringify, serialize_number_free. Qed.

Lemma startsWith_app (p x : jsstring) : startsWith (p ++ x) p = true.
Proof.
  induction p as [|c p IH]; [destruct x; reflexivity|].
  cbn [app startsWith]; rewrite N.eqb_refl, IH; reflexivity.
Qed.

Lemma includes_prefix (p x : jsstring) : includes (p ++ x) p = true.
Proof.
  destruct (p ++ x) eqn:H; cbn [includes];
    rewrite <- H, startsWith_app; reflexivity.
Qed.

Lemma received_accepted (boundary : jsstring) (form : Route.FormData)
    (raw : jsstring) (v : json) :
  Route.formData_get form (lit "messages") = Some (Route.FormText raw) ->
  JSON_parse raw = Some v ->
  Route.accepted (received boundary form) = Some (form, v).
Proof.
  intros Hg Hp; unfold Route.accepted, received.
  cbn [Route.header_content_type Route.request_formData].
  change (lit "multipart/form-data; boundary=")
    with (lit "multipart/form-data" ++ lit "; boundary=").
  rewrite <- app_assoc, includes_prefix, Hg, Hp; reflexivity.
Qed.

(** The form the composer posts is a valid request for the relay, and its
    transcript is the conversation with the new user turn. *)
Lemma outgoing_valid (B : Page.Browser) (s : Page.State)
    (boundary : jsstring) :
  Route.valid (received boundary (outgoing B s))
    = Some (outgoing B s,
            map to_RequestMessage (Page.messages s ++ [user_turn B s])).
Proof.
  unfold Route.valid.
  rewrite (received_accepted boundary (outgoing B s) _ _ eq_refl
             (transcript_round_trip _)).
  rewrite serialize_typed; reflexivity.
Qed.

Lemma handleSend_outgoing (B : Page.Browser) (s : Page.State) :
  Page.nothing_to_send s = false ->
  Page.requests (Page.handleSend B s) = Page.requests s ++ [outgoing B s] /\
  exists assistantMessage,
    Page.messages (Page.handleSend B s)
      = Page.messages s ++ [user_turn B s; assistantMessage] /\
    Page.msg_role assistantMessage = Page.assistant /\
    Page.msg_content assistantMessage
      = Page.reply_content (Page.fetch_api_chat B (outgoing B s)).
Proof.
  intros H; unfold Page.handleSend; rewrite H.
  split; [reflexivity|].
  eexists; cbn [Page.messages].
  split; [rewrite <- app_assoc; reflexivity|].
  split; reflexivity.
Qed.

(** X1.  The transcript survives the wire: for every conversation, the text
    [handleSend] makes of it with [JSON.stringify] is parsed by the relay's
    [JSON.parse] into the value that was serialised, and that value has the
    type the relay casts it to, each message with its role, its content and
    the names and types of its attachments, in order. *)
Theorem transcript_survives_the_wire (conversation : list Page.ChatMessage) :
  JSON_parse (JSON_stringify (Page.serializeMessagesForRequest conversation))
    = Some (Page.serializeMessagesForRequest conversation) /\
  Route.as_messages (Page.serializeMessagesForRequest conversation)
    = Some (map to_RequestMessage conversation).
Proof. split; [apply transcript_round_trip|apply serialize_typed]. Qed.

End Wire.

(* ================================================================== *)
(** * The composer: staging and sending *)
(* ================================================================== *)

Module Composer.
Import JS Page Link Samples.

Lemma drafts_of_files (B : Browser) (files : list File) :
  forall draw, map draft_file (drafts_of B draw files) = files.
Proof.
  induction files as [|f files IH]; intros draw; simpl;
    [|rewrite IH]; reflexivity.
Qed.

Lemma drafts_of_length (B : Browser) (files : list File) (draw : nat) :
  List.length (drafts_of B draw files) = List.length files.
Proof.
  rewrite <- (drafts_of_files B files draw) at 2.
  rewrite length_map; reflexivity.
Qed.

Lemma file_parts_append_files (snapshot : list AttachmentDraft) :
  forall index,
    Route.file_parts (append_files index snapshot)
      = map draft_file snapshot.
Proof.
  induction snapshot as [|item rest IH]; intros index; simpl;
    [|rewrite IH]; reflexivity.
Qed.

(** What staging does to the list of staged files. *)
Lemma handleFileChange_files (B : Browser) (files : list File) (s : State) :
  map draft_file (pendingAttachments (handleFileChange B files s)) =
    map draft_file (pendingAttachments s)
      ++ firstn (4 - List.length (pendingAttachments s)) files.
Proof.
  unfold handleFileChange, MAX_ATTACHMENTS.
  destruct files as [|f files].
  - rewrite firstn_nil, app_nil_r; reflexivity.
  - destruct (Z.leb_spec (4 - Z.of_nat (List.length (pendingAttachments s))) 0)
      as [Hle|Hgt].
    + replace (4 - List.length (pendingAttachments s)) with 0 by lia.
      rewrite app_nil_r; reflexivity.
    + cbn [pendingAttachments].
      rewrite map_app, drafts_of_files.
      replace (Z.to_nat (4 - Z.of_nat (List.length (pendingAttachments s))))
        with (4 - List.length (pendingAttachments s)) by lia.
      reflexivity.
Qed.

Lemma handleFileChange_full (B : Browser) (files : list File) (s : State) :
  4 <= List.length (pendingAttachments s) ->
  handleFileChange B files s = s.
Proof.
  intros H; unfold handleFileChange, MAX_ATTACHMENTS.
  destruct files as [|f files]; [reflexivity|].
  destruct (Z.leb_spec (4 - Z.of_nat (List.length (pendingAttachments s))) 0);
    [reflexivity|lia].
Qed.

Lemma handleFileChange_requests (B : Browser) (files : list File)
    (s : State) :
  requests (handleFileChange B files s) = requests s.
Proof.
  unfold handleFileChange.
  destruct files; [reflexivity|].
  destruct (_ <=? 0)%Z; reflexivity.
Qed.

Lemma step_capped (B : Browser) (s : State) (e : event) :
  capped s -> capped (step B s e).
Proof.
  intros [Hp Hr]; destruct e as [files|id|text|]; simpl.
  - split.
    + rewrite <- (length_map draft_file), handleFileChange_files.
      rewrite length_app, length_map, length_firstn; lia.
    + rewrite handleFileChange_requests; exact Hr.
  - split; [|exact Hr]; simpl.
    etransitivity; [apply filter_length_le|exact Hp].
  - split; assumption.
  - unfold preventDefault, handleSend.
    destruct (negb (isThinking s)); [|split; assumption].
    destruct (nothing_to_send s); [split; assumption|].
    split; [simpl; lia|].
    cbn [requests]; intros formData Hin.
    apply in_app_or in Hin as [Hin | [<- | []]]; [auto|].
    cbn [Route.file_parts].
    rewrite file_parts_append_files, length_map; exact Hp.
Qed.

Lemma run_capped (B : Browser) (events : list event) :
  forall s, capped s -> capped (run B events s).
Proof.
  induction events as [|e events IH]; intros s H; simpl; [exact H|].
  apply IH, step_capped, H.
Qed.

Lemma handleSend_request (B : Browser) (s : State) :
  nothing_to_send s = false ->
  exists formData,
    requests (handleSend B s) = requests s ++ [formData] /\
    Route.file_parts formData = map draft_file (pendingAttachments s).
Proof.
  intros H; unfold handleSend; rewrite H.
  eexists; split; [reflexivity|].
  cbn [Route.file_parts]; apply file_parts_append_files.
Qed.

(** C7.  Staging appends the first files of the batch that fit under the
    cap of 4, in order; with 4 drafts staged it changes nothing; a batch of
    5 on an empty staging area stages the first 4; a send carries every
    staged file, without a cap of its own; hence, whatever the events, at
    most 4 drafts are staged and no request sent carries more than 4 file
    parts. *)
Theorem staging_is_capped (B : Browser) :
  (forall s files,
     map draft_file (pendingAttachments (handleFileChange B files s)) =
       map draft_file (pendingAttachments s)
         ++ firstn (4 - List.length (pendingAttachments s)) files) /\
  (forall s files,
     List.length (pendingAttachments s) = 4 ->
     handleFileChange B files s = s) /\
  (forall s f1 f2 f3 f4 f5,
     pendingAttachments s = [] ->
     map draft_file
       (pendingAttachments (handleFileChange B [f1; f2; f3; f4; f5] s))
       = [f1; f2; f3; f4]) /\
  (forall s,
     nothing_to_send s = false ->
     exists formData,
       requests (handleSend B s) = requests s ++ [formData] /\
       Route.file_parts formData = map draft_file (pendingAttachments s)) /\
  (forall speech events,
     List.length (pendingAttachments (run B events (initial B speech))) <= 4
     /\
     forall formData,
       In formData (requests (run B events (initial B speech))) ->
       List.length (Route.file_parts formData) <= 4).
Proof.
  split; [|split; [|split; [|split]]].
  - intros s files; apply handleFileChange_files.
  - intros s files H; apply handleFileChange_full; rewrite H; auto.
  - intros s f1 f2 f3 f4 f5 H.
    rewrite handleFileChange_files, H; reflexivity.
  - intros s; apply handleSend_request.
  - intros speech events.
    apply (run_capped B events (initial B speech)).
    split; [simpl; lia|intros formData []].
Qed.

(** Five files picked at once in the initial state: four are staged. *)
Lemma staging_is_capped_witness :
  map draft_file
    (pendingAttachments
       (handleFileChange (sample_browser (Throw NotAnError))
          [notes_txt; empty_bin; notes_txt; empty_bin; notes_txt]
          (initial (sample_browser (Throw NotAnError)) false)))
    = [notes_txt; empty_bin; notes_txt; empty_bin].
Proof.
  apply (proj1 (proj2 (proj2
           (staging_is_capped (sample_browser (Throw NotAnError)))))).
  reflexivity.
Defined.

(** ** Sending *)

Lemma fulfilled_convert (B : Browser) (l : list AttachmentDraft) :
  map att_id (fulfilled (map (convert B) l))
    = map draft_id (filter (readable B) l).
Proof.
  induction l as [|item l IH]; [reflexivity|].
  cbn [map filter]; unfold readable at 1, convert at 1.
  destruct (fileToDataUrl B (draft_file item)); cbn [fulfilled map];
    rewrite IH; reflexivity.
Qed.

Lemma In_fulfilled_convert (B : Browser) (l : list AttachmentDraft)
    (a : PersistedAttachment) :
  In a (fulfilled (map (convert B) l)) <->
  exists item, In item l /\ convert B item = Normal a.
Proof.
  induction l as [|item l IH]; simpl.
  - split; [intros []|intros (x & [] & _)].
  - destruct (convert B item) as [b|e] eqn:Hc; simpl; rewrite IH.
    + split.
      * intros [<- | (x & Hx & Hx')];
          [exists item; auto|exists x; auto].
      * intros (x & [<- | Hx] & Hx');
          [left; congruence|right; exists x; auto].
    + split.
      * intros (x & Hx & Hx'); exists x; auto.
      * intros (x & [<- | Hx] & Hx'); [congruence|exists x; auto].
Qed.

Lemma fulfilled_refs (B : Browser) (l : list AttachmentDraft) :
  map (fun a => {| Route.ref_name := att_name a;
                   Route.ref_type := att_type a |})
    (fulfilled (map (convert B) l))
    = map ref_of (filter (readable B) l).
Proof.
  induction l as [|item l IH]; [reflexivity|].
  cbn [map filter]; unfold readable at 1, convert at 1.
  destruct (fileToDataUrl B (draft_file item)); cbn [fulfilled map];
    rewrite IH; reflexivity.
Qed.

(** C8.  A send that has something to send appends the user turn and an
    assistant turn to the transcript and issues its request with every
    staged file as a part, whatever the conversions did; the user turn
    carries the trimmed text and, in staging order, the attachments whose
    conversion succeeded, those whose conversion failed being left out; and
    the [messages] field of the request is the text of the conversation
    with that user turn, which the relay parses into a transcript of the
    declared type that ends with the user message, its content the trimmed
    text and its attachment references those of the readable drafts, in
    staging order, and of no other. *)
Theorem unreadable_attachments_are_dropped (B : Browser) (s : State) :
  nothing_to_send s = false ->
  exists userMessage assistantMessage formData,
    messages (handleSend B s)
      = messages s ++ [userMessage; assistantMessage] /\
    msg_role userMessage = user /\
    msg_content userMessage = trim (input s) /\
    msg_attachments userMessage
      = Some (fulfilled (map (convert B) (pendingAttachments s))) /\
    map att_id (fulfilled (map (convert B) (pendingAttachments s)))
      = map draft_id (filter (readable B) (pendingAttachments s)) /\
    (forall a,
       In a (fulfilled (map (convert B) (pendingAttachments s))) <->
       exists item,
         In item (pendingAttachments s) /\ convert B item = Normal a) /\
    msg_role assistantMessage = assistant /\
    requests (handleSend B s) = requests s ++ [formData] /\
    Route.file_parts formData = map draft_file (pendingAttachments s) /\
    exists raw transcript,
      formData
        = (lit "messages", Route.FormText raw)
            :: append_files 0 (pendingAttachments s) /\
      raw = JSON_stringify
              (serializeMessagesForRequest (messages s ++ [userMessage])) /\
      JSON_parse raw = Some transcript /\
      Route.as_messages transcript
        = Some (map to_RequestMessage (messages s)
                ++ [{| Route.role := Route.user;
                       Route.content := trim (input s);
                       Route.attachments :=
                         Some (map ref_of
                                 (filter (readable B)
                                    (pendingAttachments s))) |}]).
Proof.
  intros H; unfold handleSend; rewrite H.
  do 3 eexists; cbn [messages requests].
  split; [rewrite <- app_assoc; reflexivity|].
  split; [reflexivity|].
  split; [reflexivity|].
  split; [reflexivity|].
  split; [apply fulfilled_convert|].
  split; [intros a; apply In_fulfilled_convert|].
  split; [reflexivity|].
  split; [reflexivity|].
  split; [cbn [Route.file_parts]; apply file_parts_append_files|].
  do 2 eexists.
  split; [reflexivity|].
  split; [reflexivity|].
  split; [apply Wire.transcript_round_trip|].
  rewrite Wire.serialize_typed, map_app; cbn [map].
  unfold to_RequestMessage at 2;
    cbn [msg_role msg_content msg_attachments option_map role_of].
  rewrite fulfilled_refs; reflexivity.
Qed.

(** A text and two drafts, the second unreadable: the user turn keeps the
    trimmed text and the first attachment, the request both files, and the
    transcript it carries the reference to the first file only. *)
Lemma unreadable_attachments_are_dropped_witness :
  exists userMessage assistantMessage formData,
    messages (handleSend (sample_browser (Throw NotAnError))
                (composing (lit "  see these ") [notes_txt; empty_bin]))
      = [userMessage; assistantMessage] /\
    msg_content userMessage = lit "see these" /\
    option_map (map att_name) (msg_attachments userMessage)
      = Some [lit "notes.txt"] /\
    Route.file_parts formData = [notes_txt; empty_bin] /\
    exists raw transcript,
      Route.formData_get formData (lit "messages")
        = Some (Route.FormText raw) /\
      JSON_parse raw = Some transcript /\
      Route.as_messages transcript
        = Some [{| Route.role := Route.user;
                   Route.content := lit "see these";
                   Route.attachments :=
                     Some [{| Route.ref_name := lit "notes.txt";
                              Route.ref_type := lit "text/plain" |}] |}].
Proof.
  assert (H : nothing_to_send
                (composing (lit "  see these ") [notes_txt; empty_bin])
              = false) by (vm_compute; reflexivity).
  destruct (unreadable_attachments_are_dropped
              (sample_browser (Throw NotAnError))
              (composing (lit "  see these ") [notes_txt; empty_bin]) H)
    as (u & a & fd & Hm & _ & Hc & Ha & _ & _ & _ & _ & Hf
        & raw & transcript & Hfd & _ & Hp & Ht).
  exists u, a, fd.
  split; [exact Hm|].
  split; [rewrite Hc; vm_compute; reflexivity|].
  split; [rewrite Ha; vm_compute; reflexivity|].
  split; [rewrite Hf; vm_compute; reflexivity|].
  exists raw, transcript.
  split; [rewrite Hfd; reflexivity|].
  split; [exact Hp|].
  rewrite Ht; vm_compute; reflexivity.
Defined.

Lemma seen_400 (r : Route.Response) :
  Route.status r = 400%N ->
  response_ok (seen r) = false /\
  response_json (seen r) = Normal (Some (Route.reply r)).
Proof. intros H; unfold seen; rewrite H; split; reflexivity. Qed.

(** C10.  When the relay's response to a send is not OK, the assistant
    turn appended is the fixed text about failing to reach Chatify, whatever
    the body of the response holds; the 400 responses of the relay are such
    responses, and their body holds the relay's explanation. *)
Theorem relay_explanation_is_discarded
    (B : Browser) (s : State) (formData : Route.FormData)
    (response : ChatResponse) :
  requests (handleSend B s) = requests s ++ [formData] ->
  fetch_api_chat B formData = Normal response ->
  response_ok response = false ->
  (exists userMessage assistantMessage,
     messages (handleSend B s)
       = messages s ++ [userMessage; assistantMessage] /\
     msg_role userMessage = user /\
     msg_role assistantMessage = assistant /\
     msg_content assistantMessage
       = lit "I ran into an issue: Failed to reach Chatify. Please try again.")
  /\
  (forall E W request,
     Route.status (fst (Route.POST E W request)) = 400%N ->
     response_ok (seen (fst (Route.POST E W request))) = false /\
     response_json (seen (fst (Route.POST E W request)))
       = Normal (Some (Route.reply (fst (Route.POST E W request)))) /\
     Route.reply (fst (Route.POST E W request)) <> []).
Proof.
  intros Hreq Hfetch Hok; split.
  - revert Hreq; unfold handleSend.
    destruct (nothing_to_send s).
    + intros H; apply (f_equal (@List.length _)) in H.
      rewrite length_app in H; simpl in H; lia.
    + cbn [requests messages]; intros H.
      apply app_inj_tail in H as [_ H]; rewrite H, Hfetch.
      do 2 eexists.
      split; [rewrite <- app_assoc; reflexivity|].
      split; [reflexivity|].
      split; [reflexivity|].
      unfold reply_content; cbn [msg_content]; rewrite Hok; reflexivity.
  - intros E W request H400.
    destruct (seen_400 _ H400) as [H1 H2].
    split; [exact H1|split; [exact H2|]].
    apply (proj1 (RouteFacts.POST_400 E W request H400)).
Qed.

(** The relay turns a JSON body away with "Invalid payload format."; the
    composer shows its own text instead. *)
Lemma relay_explanation_is_discarded_witness :
  Route.reply (fst (Route.POST sample_engine offline request_json))
    = lit "Invalid payload format." /\
  exists userMessage assistantMessage,
    messages
      (handleSend
         (sample_browser
            (Normal (seen (fst (Route.POST sample_engine offline
                                  request_json)))))
         (composing (lit "Hi") []))
      = [userMessage; assistantMessage] /\
    msg_content assistantMessage
      = lit "I ran into an issue: Failed to reach Chatify. Please try again.".
Proof.
  split; [vm_compute; reflexivity|].
  assert (Hreq : exists formData,
    requests
      (handleSend
         (sample_browser
            (Normal (seen (fst (Route.POST sample_engine offline
                                  request_json)))))
         (composing (lit "Hi") []))
      = requests (composing (lit "Hi") []) ++ [formData])
    by (eexists; vm_compute; reflexivity).
  destruct Hreq as (formData & Hreq).
  destruct (proj1 (relay_explanation_is_discarded _ _ formData _
                     Hreq eq_refl eq_refl))
    as (u & a & Hm & _ & _ & Hc).
  exists u, a; split; [exact Hm|exact Hc].
Defined.

End Composer.

(* ================================================================== *)
(** * The composer and the relay together *)
(* ================================================================== *)

Module Exchange.
Import JS Link Wire Samples Scenarios.

(** ** A send answered by the relay *)

Lemma collect_outgoing (B : Page.Browser) (s : Page.State) :
  Route.collect_attachments (outgoing B s)
    = map (fun d => Route.detail_of (Page.draft_file d))
        (Page.pendingAttachments s).
Proof.
  rewrite Relay.collect_attachments_files; unfold outgoing.
  cbn [Route.file_parts].
  rewrite Composer.file_parts_append_files, map_map; reflexivity.
Qed.

Lemma latest_user_content_last (ms : list Route.RequestMessage)
    (m : Route.RequestMessage) :
  Route.is_user_message m = true ->
  Route.latest_user_content (ms ++ [m]) = Route.content m.
Proof.
  intros H; unfold Route.latest_user_content.
  rewrite rev_app_distr; cbn [rev app find]; rewrite H; reflexivity.
Qed.

Lemma map_index_app {A B} (f : nat -> A -> B) (l1 l2 : list A) :
  forall i,
    Route.map_index f i (l1 ++ l2)
      = Route.map_index f i l1 ++ Route.map_index f (i + List.length l1) l2.
Proof.
  induction l1 as [|x l1 IH]; intros i; cbn [app Route.map_index List.length].
  - rewrite Nat.add_0_r; reflexivity.
  - rewrite IH, Nat.add_succ_r; reflexivity.
Qed.

Lemma map_index_id {A} (f : nat -> A -> A) (l : list A) :
  forall i,
    (forall k x, i <= k < i + List.length l -> f k x = x) ->
    Route.map_index f i l = l.
Proof.
  induction l as [|x l IH]; intros i H; cbn [Route.map_index]; [reflexivity|].
  rewrite H by (cbn [List.length]; lia).
  rewrite IH; [reflexivity|].
  intros k y Hk; apply H; cbn [List.length]; lia.
Qed.

(** Only the message in last position can be enriched. *)
Lemma enrichedMessages_typed_last (ms : list Route.RequestMessage)
    (m : Route.RequestMessage) (n : nat) (summary : jsstring) :
  Route.enrichedMessages_typed (ms ++ [m]) n summary
    = ms ++ [Route.enrich_typed (S (List.length ms)) n summary
               (List.length ms) m].
Proof.
  unfold Route.enrichedMessages_typed.
  rewrite length_app, map_index_app; cbn [List.length Route.map_index].
  rewrite Nat.add_comm; cbn [Nat.add].
  rewrite map_index_id; [reflexivity|].
  intros k x Hk; unfold Route.enrich_typed.
  replace (Nat.eqb k (S (List.length ms) - 1)) with false
    by (symmetry; apply Nat.eqb_neq; lia).
  rewrite andb_false_r; reflexivity.
Qed.

Lemma user_turn_wired (E : Engine) (W : Route.World) (boundary : jsstring)
    (B : Page.Browser) (s : Page.State) :
  user_turn (wired E W boundary B) s = user_turn B s.
Proof. reflexivity. Qed.

Lemma outgoing_wired (E : Engine) (W : Route.World) (boundary : jsstring)
    (B : Page.Browser) (s : Page.State) :
  outgoing (wired E W boundary B) s = outgoing B s.
Proof. reflexivity. Qed.

(** The relay on the form the composer posts. *)
Lemma POST_outgoing (E : Engine) (W : Route.World) (boundary : jsstring)
    (B : Page.Browser) (s : Page.State) :
  Route.POST E W (received boundary (outgoing B s))
    = Route.POST_typed E W (outgoing B s)
        (map to_RequestMessage (Page.messages s ++ [user_turn B s])).
Proof. apply RouteFacts.POST_valid, outgoing_valid. Qed.

Lemma status_outgoing (E : Engine) (W : Route.World) (boundary : jsstring)
    (B : Page.Browser) (s : Page.State) :
  Route.status (fst (Route.POST E W (received boundary (outgoing B s))))
    = 200%N.
Proof.
  assert (Ha : Route.accepted (received boundary (outgoing B s))
               = Some (outgoing B s,
                       Page.serializeMessagesForRequest
                         (Page.messages s ++ [user_turn B s])))
    by (apply (received_accepted boundary (outgoing B s) _ _ eq_refl
                 (transcript_round_trip _))).
  apply (RouteFacts.POST_accepted E W _ _ _ Ha).
Qed.

(** X2.  When [/api/chat] is answered by the relay, a send that has
    something to send posts a form the relay answers with status 200, and
    the assistant turn appended after the user turn is the relay's reply:
    the composer's texts for a failed request never show. *)
Theorem relay_reply_is_shown (E : Engine) (W : Route.World)
    (boundary : jsstring) (B : Page.Browser) (s : Page.State) :
  Page.nothing_to_send s = false ->
  Route.status (fst (Route.POST E W (received boundary (outgoing B s))))
    = 200%N /\
  Page.requests (Page.handleSend (wired E W boundary B) s)
    = Page.requests s ++ [outgoing B s] /\
  exists assistantMessage,
    Page.messages (Page.handleSend (wired E W boundary B) s)
      = Page.messages s ++ [user_turn B s; assistantMessage] /\
    Page.msg_role assistantMessage = Page.assistant /\
    Page.msg_content assistantMessage
      = Route.reply (fst (Route.POST E W (received boundary (outgoing B s)))).
Proof.
  intros H.
  split; [apply status_outgoing|].
  destruct (handleSend_outgoing (wired E W boundary B) s H)
    as (Hr & a & Hm & Hrole & Hc).
  split; [exact Hr|].
  exists a; split; [exact Hm|split; [exact Hrole|]].
  rewrite Hc; cbn [Page.fetch_api_chat wired]; unfold relay_fetch.
  rewrite outgoing_wired.
  unfold Page.reply_content, Page.seen; cbn [Page.response_ok Page.response_json].
  rewrite status_outgoing; reflexivity.
Qed.

Lemma to_RequestMessage_user_turn (B : Page.Browser) (s : Page.State) :
  Route.is_user_message (to_RequestMessage (user_turn B s)) = true /\
  Route.content (to_RequestMessage (user_turn B s)) = trim (Page.input s).
Proof. split; reflexivity. Qed.

(** "Hi" and a text file, no credential: the reply shown is the relay's. *)
Lemma relay_reply_is_shown_witness :
  exists assistantMessage,
    Page.messages
      (Page.handleSend (wired sample_engine offline (lit "----x") desk)
         hi_with_notes)
      = [user_turn desk hi_with_notes; assistantMessage] /\
    Page.msg_content assistantMessage
      = Route.reply
          (fst (Route.POST sample_engine offline
                  (received (lit "----x") (outgoing desk hi_with_notes)))).
Proof.
  destruct (relay_reply_is_shown sample_engine offline (lit "----x") desk
              hi_with_notes eq_refl) as (_ & _ & a & Hm & _ & Hc).
  exists a; split; [exact Hm|exact Hc].
Defined.

(** X3.  Without a credential, the relay answers the form the composer
    posts from a state with the fallback text built from the trimmed input
    of that state and the summary of the files staged in it, with status
    200 and no upstream call. *)
Theorem composer_gets_the_fallback (E : Engine) (W : Route.World)
    (boundary : jsstring) (B : Page.Browser) (s : Page.State) :
  Route.configured W = false ->
  Route.POST E W (received boundary (outgoing B s))
    = (Route.json_response
         (Route.fallbackAssistant (trim (Page.input s)) (staged_summary s))
         200, []).
Proof.
  intros Hc; rewrite POST_outgoing; unfold Route.POST_typed.
  rewrite map_app; cbn [map].
  rewrite latest_user_content_last by reflexivity.
  rewrite collect_outgoing.
  unfold Route.configured in Hc.
  destruct (Route.OPENAI_API_KEY W) as [[|k key]|];
    [reflexivity|discriminate|reflexivity].
Qed.

(** "Hi" between blanks and a text file of two bytes. *)
Lemma composer_gets_the_fallback_witness :
  Route.POST sample_engine offline
    (received (lit "----x") (outgoing desk hi_with_notes))
    = (Route.json_response
         (Route.fallbackAssistant (lit "Hi")
            (lit "Attachments provided:" ++ nl
               ++ lit "• notes.txt (text/plain, ~1KB)")) 200, []).
Proof.
  pose proof (composer_gets_the_fallback sample_engine offline (lit "----x")
                desk hi_with_notes eq_refl) as H.
  rewrite H; vm_compute; reflexivity.
Defined.

(** X4.  With a credential, the one call the relay makes for the form the
    composer posts carries the conversation so far, each turn with its role
    and its content unchanged, followed by the new user turn: the trimmed
    input, with the attachment summary appended after a blank line exactly
    when drafts are staged. *)
Theorem upstream_gets_the_conversation (E : Engine) (W : Route.World)
    (boundary : jsstring) (B : Page.Browser) (s : Page.State)
    (k : N) (key : jsstring) :
  Route.OPENAI_API_KEY W = Some (k :: key) ->
  snd (Route.POST E W (received boundary (outgoing B s)))
    = [Route.upstream_call (k :: key)
         (map (fun m => Route.sent_as (role_of (Page.msg_role m))
                          (Page.msg_content m))
            (Page.messages s)
          ++ [Route.sent_as Route.user
                match Page.pendingAttachments s with
                | [] => trim (Page.input s)
                | _ :: _ =>
                    trim (Page.input s) ++ nl ++ nl ++ staged_summary s
                end])].
Proof.
  intros Hk; rewrite POST_outgoing.
  rewrite (Relay.POST_typed_log E W _ _ k key Hk).
  rewrite map_app; cbn [map].
  rewrite enrichedMessages_typed_last, collect_outgoing.
  rewrite map_app, map_map; cbn [map].
  do 3 f_equal.
  unfold Route.enrich_typed.
  rewrite Nat.sub_succ, Nat.sub_0_r, Nat.eqb_refl.
  unfold staged_summary.
  destruct (Page.pendingAttachments s) as [|d l]; reflexivity.
Qed.

(** "Hi" and a text file: the summary follows the text. *)
Lemma upstream_gets_the_conversation_witness :
  snd (Route.POST sample_engine (online (Normal completion_200))
         (received (lit "----x") (outgoing desk hi_with_notes)))
    = [Route.upstream_call sample_key
         [Route.sent_as Route.user
            (lit "Hi" ++ nl ++ nl ++ lit "Attachments provided:" ++ nl
               ++ lit "• notes.txt (text/plain, ~1KB)")]].
Proof.
  pose proof (upstream_gets_the_conversation sample_engine
                (online (Normal completion_200)) (lit "----x") desk
                hi_with_notes 115%N (lit "k-test") eq_refl) as H.
  rewrite H; vm_compute; reflexivity.
Defined.

End Exchange.

(* ================================================================== *)
(** * The relay: calls, previews, what is read *)
(* ================================================================== *)

Module RelayCalls.
Import JS Route RouteFacts Link Samples Scenarios.

(** ** The upstream call *)

Lemma map_from_length {A B} (f : nat -> A -> outcome B) (l : list A) :
  forall i ys, map_from f i l = Normal ys -> List.length ys = List.length l.
Proof.
  induction l as [|x l IH]; intros i ys; cbn [map_from].
  - intros [= <-]; reflexivity.
  - destruct (f i x) as [y|e]; cbn [obind]; [|discriminate].
    destruct (map_from f (S i) l) as [ys'|e] eqn:H; cbn [obind];
      [|discriminate].
    intros [= <-]; cbn [List.length]; f_equal; apply (IH _ _ H).
Qed.

Lemma enrichedMessages_length (E : Engine) (v : json) (n : nat)
    (summary : jsstring) (enriched : list json) :
  enrichedMessages E v n summary = Normal enriched ->
  exists elems, v = JArray elems /\ List.length enriched = List.length elems.
Proof.
  unfold enrichedMessages.
  destruct v as [| | | |elems|]; try discriminate.
  intros H; exists elems; split; [reflexivity|].
  apply (map_from_length _ _ _ _ H).
Qed.

Section Calls.
Variable E : Engine.
Variable W : World.

(** The log of an accepted request: empty, or the one call made for the
    enriched transcript. *)
Lemma POST_accepted_log (request : Request) (form : FormData) (v : json) :
  accepted request = Some (form, v) ->
  snd (POST E W request) = [] \/
  exists k key enriched sent,
    OPENAI_API_KEY W = Some (k :: key) /\
    enrichedMessages E v (List.length (collect_attachments form))
      (buildAttachmentSummary (collect_attachments form)) = Normal enriched /\
    map_from (fun _ => strip E) 0 enriched = Normal sent /\
    snd (POST E W request) = [upstream_call (k :: key) sent].
Proof.
  intros H.
  destruct (accepted_inv _ _ _ H) as (ct & raw & Hct & Hi & Hf & Hg & Hp).
  unfold POST, POST_try, call_fallbackAssistant, await_fetch,
    bind, lift, ret, raise.
  rewrite Hct, Hi, Hf; cbn [negb]; cbv beta iota zeta.
  rewrite Hg, Hp.
  destruct (latestUserMessage E v) as [latest|e];
    cbv beta iota zeta; [|left; reflexivity].
  destruct (OPENAI_API_KEY W) as [[|k key]|]; cbv beta iota zeta;
    [left; destruct (ToString E latest); reflexivity
    | |left; destruct (ToString E latest); reflexivity].
  destruct (enrichedMessages E v _ _) as [enriched|e] eqn:He;
    cbv beta iota zeta; [|left; reflexivity].
  destruct (map_from (fun _ => strip E) 0 enriched) as [sent|e] eqn:Hs;
    cbv beta iota zeta; [|left; reflexivity].
  right; exists k, key, enriched, sent.
  split; [reflexivity|split; [reflexivity|split; [exact Hs|]]].
  cbn [app].
  repeat (case_head; cbv beta iota zeta); reflexivity.
Qed.

Lemma POST_log_cases (request : Request) :
  snd (POST E W request) = [] \/
  exists form v, accepted request = Some (form, v).
Proof.
  destruct (request_cases request)
    as [Hw | (Hw & [(e & He) | [Hm | [Hn | (form & v & Ha)]]])].
  - left; rewrite (POST_wrong_content_type E W _ Hw); reflexivity.
  - left; rewrite (POST_formData_throws E W _ _ Hw He); reflexivity.
  - left; rewrite (POST_messages_missing E W _ Hw Hm); reflexivity.
  - left; rewrite (POST_messages_not_json E W _ Hw Hn); reflexivity.
  - right; exists form, v; exact Ha.
Qed.

(** X5.  Whatever the request, the handler calls the upstream service at
    most once; it calls it only with a non-empty credential, for a request
    that passed the three checks and whose transcript parsed as an array,
    and the call carries one message for each element of that array after
    the system prompt. *)
Theorem at_most_one_upstream_call (request : Request) :
  snd (POST E W request) = [] \/
  exists k key form elems sent,
    OPENAI_API_KEY W = Some (k :: key) /\
    accepted request = Some (form, JArray elems) /\
    List.length sent = List.length elems /\
    snd (POST E W request) = [upstream_call (k :: key) sent].
Proof.
  destruct (POST_log_cases request) as [H | (form & v & Ha)];
    [left; exact H|].
  destruct (POST_accepted_log _ _ _ Ha)
    as [H | (k & key & enriched & sent & Hk & He & Hs & Hlog)];
    [left; exact H|].
  right.
  destruct (enrichedMessages_length _ _ _ _ _ He) as (elems & -> & Hlen).
  exists k, key, form, elems, sent.
  split; [exact Hk|split; [exact Ha|split; [|exact Hlog]]].
  rewrite (map_from_length _ _ _ _ Hs); exact Hlen.
Qed.

(** X6.  When the upstream call itself fails, the reply is not the
    fallback: a rejected [fetch] is answered by the text of the [catch]
    clause naming the error, and so is an OK response whose body is not
    JSON, with the engine's syntax error. *)
Theorem failure_after_the_call (request : Request) (call : UpstreamCall) :
  snd (POST E W request) = [call] ->
  (forall error,
     fetch W call = Throw error ->
     fst (POST E W request) = POST_catch error) /\
  (forall response,
     fetch W call = Normal response ->
     ok response = true ->
     JSON_parse (up_body response) = None ->
     fst (POST E W request)
       = POST_catch (JsError (error_text E (JsonSyntax (up_body response))))).
Proof.
  intros Hlog.
  destruct (POST_log_cases request) as [H | (form & v & Ha)];
    [rewrite H in Hlog; discriminate|].
  destruct (accepted_inv _ _ _ Ha) as (ct & raw & Hct & Hi & Hf & Hg & Hp).
  revert Hlog.
  unfold POST, POST_try, call_fallbackAssistant, await_fetch,
    bind, lift, ret, raise.
  rewrite Hct, Hi, Hf; cbn [negb]; cbv beta iota zeta.
  rewrite Hg, Hp.
  repeat (case_head; cbv beta iota zeta); cbn [fst snd app];
    try discriminate;
    intros [= <-]; (split; [intros error Hfetch|intros r Hfetch Hok Hparse]);
    rewrite ?negb_true_iff, ?negb_false_iff in *;
    congruence.
Qed.

End Calls.

(** The connection drops under the call. *)
Lemma failure_after_the_call_witness :
  fst (POST sample_engine (online (Throw (JsError (lit "socket hang up"))))
         request_hello)
    = POST_catch (JsError (lit "socket hang up")).
Proof.
  assert (Hlog : snd (POST sample_engine
                        (online (Throw (JsError (lit "socket hang up"))))
                        request_hello) = [call_hello])
    by (vm_compute; reflexivity).
  exact (proj1 (failure_after_the_call sample_engine
                  (online (Throw (JsError (lit "socket hang up"))))
                  request_hello call_hello Hlog)
           (JsError (lit "socket hang up")) eq_refl).
Defined.

(** ** The preview of an image *)

Lemma base64_firstn (k : nat) :
  forall bs, firstn (4 * k) (base64 bs) = base64 (firstn (3 * k) bs).
Proof.
  induction k as [|k IH]; intros bs; [reflexivity|].
  replace (4 * S k) with (S (S (S (S (4 * k))))) by lia.
  replace (3 * S k) with (S (S (S (3 * k)))) by lia.
  destruct bs as [|a [|b [|c rest]]].
  - reflexivity.
  - cbn [firstn base64]; rewrite !firstn_nil; reflexivity.
  - cbn [firstn base64]; rewrite !firstn_nil; reflexivity.
  - cbn [firstn base64 app]; rewrite IH; reflexivity.
Qed.

Lemma slice_800_base64 (bs : list N) :
  slice0 800 (base64 bs) = base64 (firstn 600 bs).
Proof. exact (base64_firstn 200 bs). Qed.

Lemma base64_length (bs : list N) :
  List.length (base64 bs) = 4 * ((List.length bs + 2) / 3).
Proof.
  assert (H : forall n bs, List.length bs < n ->
              List.length (base64 bs) = 4 * ((List.length bs + 2) / 3)).
  { clear bs; induction n as [|n IH]; intros bs Hn; [lia|].
    destruct bs as [|a [|b [|c rest]]]; try reflexivity.
    cbn [base64 app List.length] in *.
    rewrite IH by lia.
    replace (S (S (S (List.length rest))) + 2)
      with (List.length rest + 2 + 1 * 3) by lia.
    rewrite Nat.div_add by lia; lia. }
  apply (H (S (List.length bs))); lia.
Qed.

(** X7.  The preview of a file part holds at most the first 600 bytes of
    an image, in base64, and nothing of any other file: for a type that
    starts with [image/] it is the label followed by the base64 text of
    the first 600 bytes and three dots, otherwise it is empty; it never
    exceeds 845 code units. *)
Theorem image_preview_is_truncated (entry : File) :
  (startsWith (file_type entry) (lit "image/") = true ->
   preview (detail_of entry)
     = nl ++ lit "   • Visual preview (base64, truncated): "
         ++ base64 (map Byte.to_N (firstn 600 (file_bytes entry)))
         ++ lit "...") /\
  (startsWith (file_type entry) (lit "image/") = false ->
   preview (detail_of entry) = []) /\
  List.length (preview (detail_of entry)) <= 845.
Proof.
  unfold detail_of; cbn [preview].
  rewrite slice_800_base64, <- firstn_map.
  destruct (startsWith (file_type entry) (lit "image/")).
  - split; [reflexivity|split; [discriminate|]].
    rewrite !length_app, base64_length, length_firstn.
    change (List.length nl) with 1.
    change (List.length (lit "   • Visual preview (base64, truncated): "))
      with 41.
    change (List.length (lit "...")) with 3.
    pose proof (Nat.Div0.div_le_mono
                  (Nat.min 600 (List.length (map Byte.to_N (file_bytes entry)))
                   + 2) 602 3 ltac:(lia)) as H.
    change (602 / 3) with 200 in H.
    lia.
  - split; [discriminate|split; [reflexivity|]].
    cbn [List.length]; lia.
Qed.

(** The first four bytes of a PNG file. *)
Lemma image_preview_is_truncated_witness :
  preview (detail_of photo_png)
    = nl ++ lit "   • Visual preview (base64, truncated): iVBORw==...".
Proof.
  pose proof (proj1 (image_preview_is_truncated photo_png) eq_refl) as H.
  rewrite H; vm_compute; reflexivity.
Defined.

(** ** The content-type check *)

Lemma startsWith_iff (s p : jsstring) :
  startsWith s p = true <-> exists b, s = p ++ b.
Proof.
  revert s; induction p as [|y p IH]; intros s.
  - split; [intros _; exists s; reflexivity|destruct s; reflexivity].
  - destruct s as [|x s]; cbn [startsWith].
    + split; [discriminate|intros (b & H); discriminate].
    + rewrite andb_true_iff, N.eqb_eq, IH; split.
      * intros (-> & b & ->); exists b; reflexivity.
      * intros (b & H); injection H as -> ->; split; [reflexivity|].
        exists b; reflexivity.
Qed.

Lemma includes_iff (s p : jsstring) :
  includes s p = true <-> exists a b, s = a ++ p ++ b.
Proof.
  induction s as [|x s IH].
  - cbn [includes]; rewrite orb_false_r, startsWith_iff; split.
    + intros (b & H); exists [], b; exact H.
    + intros ([|c a] & b & H); [exists b; exact H|discriminate].
  - cbn [includes]; rewrite orb_true_iff, startsWith_iff, IH; split.
    + intros [(b & H) | (a & b & H)].
      * exists [], b; exact H.
      * exists (x :: a), b; rewrite H; reflexivity.
    + intros ([|c a] & b & H).
      * left; exists b; exact H.
      * right; injection H as -> ->; exists a, b; reflexivity.
Qed.

(** X8.  The handler answers "Invalid payload format." with status 400
    exactly when the content type, taken as empty when the header is
    absent, does not hold [multipart/form-data] as a substring. *)
Theorem invalid_payload_format (E : Engine) (W : World) (request : Request) :
  POST E W request = (json_response (lit "Invalid payload format.") 400, [])
  <->
  ~ exists a b,
      content_type_of request = a ++ lit "multipart/form-data" ++ b.
Proof.
  rewrite <- includes_iff.
  split.
  - intros H Hi.
    assert (Hw : ~ wrong_content_type request)
      by (unfold wrong_content_type; rewrite Hi; discriminate).
    destruct (request_cases request)
      as [Hw' | (_ & [(e & He) | [Hm | [Hn | (form & v & Ha)]]])].
    + contradiction.
    + rewrite (POST_formData_throws E W _ _ Hw He) in H; discriminate.
    + rewrite (POST_messages_missing E W _ Hw Hm) in H.
      apply (f_equal (fun r => List.length (reply (fst r)))) in H.
      vm_compute in H; discriminate.
    + rewrite (POST_messages_not_json E W _ Hw Hn) in H.
      apply (f_equal (fun r => List.length (reply (fst r)))) in H.
      vm_compute in H; discriminate.
    + destruct (POST_accepted E W _ _ _ Ha) as [Hs _].
      rewrite H in Hs; discriminate.
  - intros H; apply POST_wrong_content_type.
    unfold wrong_content_type.
    destruct (includes _ _); [contradiction H|]; reflexivity.
Qed.

(** A JSON content type holds no [multipart/form-data]. *)
Lemma invalid_payload_format_witness :
  ~ exists a b,
      content_type_of request_json = a ++ lit "multipart/form-data" ++ b.
Proof.
  apply (proj1 (invalid_payload_format sample_engine offline request_json)).
  vm_compute; reflexivity.
Defined.

(** ** What of the form the handler reads *)

(** X9.  Of a multipart form the handler reads the first [messages] entry
    and the file parts, in order, and nothing else: two requests that agree
    on these get the same response and the same upstream call, whatever
    the names of the file fields, the other text fields and the rest of the
    content type. *)
Theorem only_messages_and_files_count (E : Engine) (W : World)
    (ct ct' : jsstring) (form form' : FormData) :
  includes ct (lit "multipart/form-data") = true ->
  includes ct' (lit "multipart/form-data") = true ->
  formData_get form (lit "messages") = formData_get form' (lit "messages") ->
  file_parts form = file_parts form' ->
  POST E W {| header_content_type := Some ct;
              request_formData := Normal form |}
    = POST E W {| header_content_type := Some ct';
                  request_formData := Normal form' |}.
Proof.
  intros Hi Hi' Hg Hf.
  unfold POST, POST_try, bind, lift.
  cbn [header_content_type request_formData].
  rewrite Hi, Hi'; cbn [negb]; cbv beta iota zeta.
  rewrite !Relay.collect_attachments_files, Hg, Hf; reflexivity.
Qed.

(** A field the handler does not read, the file under another name. *)
Lemma only_messages_and_files_count_witness :
  POST sample_engine offline
    {| header_content_type := Some (lit "multipart/form-data; boundary=a");
       request_formData := Normal form_posted |}
    = POST sample_engine offline
        {| header_content_type := Some (lit "multipart/form-data");
           request_formData := Normal form_renamed |}.
Proof.
  apply only_messages_and_files_count; vm_compute; reflexivity.
Defined.

(** ** The attachment references of the transcript *)

Lemma find_bare (ms : list RequestMessage) :
  option_map content (find is_user_message (map bare ms))
    = option_map content (find is_user_message ms).
Proof.
  induction ms as [|m ms IH]; [reflexivity|].
  cbn [map find].
  change (is_user_message (bare m)) with (is_user_message m).
  destruct (is_user_message m); [reflexivity|exact IH].
Qed.

Lemma latest_user_content_bare (ms : list RequestMessage) :
  latest_user_content (map bare ms) = latest_user_content ms.
Proof.
  unfold latest_user_content; rewrite <- map_rev.
  pose proof (find_bare (rev ms)) as H.
  destruct (find is_user_message (map bare (rev ms)));
    destruct (find is_user_message (rev ms)); cbn in H; congruence.
Qed.

Lemma sent_of_enrich_bare (len n : nat) (summary : jsstring) (i : nat)
    (m : RequestMessage) :
  sent_of (enrich_typed len n summary i (bare m))
    = sent_of (enrich_typed len n summary i m).
Proof.
  unfold enrich_typed.
  change (is_user_message (bare m)) with (is_user_message m).
  destruct (_ && _ && _); reflexivity.
Qed.

Lemma sent_bare (ms : list RequestMessage) (n : nat) (summary : jsstring) :
  map sent_of (enrichedMessages_typed (map bare ms) n summary)
    = map sent_of (enrichedMessages_typed ms n summary).
Proof.
  unfold enrichedMessages_typed; rewrite length_map.
  generalize (List.length ms) as len, 0 as i.
  induction ms as [|m ms IH]; intros len i; [reflexivity|].
  cbn [map map_index]; rewrite sent_of_enrich_bare, IH; reflexivity.
Qed.

Lemma POST_typed_bare (E : Engine) (W : World) (form : FormData)
    (ms : list RequestMessage) :
  POST_typed E W form (map bare ms) = POST_typed E W form ms.
Proof.
  unfold POST_typed; rewrite latest_user_content_bare, sent_bare.
  reflexivity.
Qed.

Lemma POST_typed_parts (E : Engine) (W : World) (form form' : FormData)
    (ms : list RequestMessage) :
  file_parts form = file_parts form' ->
  POST_typed E W form ms = POST_typed E W form' ms.
Proof.
  intros H; unfold POST_typed.
  rewrite !Relay.collect_attachments_files, H; reflexivity.
Qed.

(** X10.  The attachment references of the transcript are never used: two
    valid requests with the same file parts whose transcripts agree on the
    role and the content of every message get the same response and the
    same upstream call. *)
Theorem attachment_references_are_ignored (E : Engine) (W : World)
    (request request' : Request) (form form' : FormData)
    (ms ms' : list RequestMessage) :
  valid request = Some (form, ms) ->
  valid request' = Some (form', ms') ->
  file_parts form = file_parts form' ->
  map bare ms = map bare ms' ->
  POST E W request = POST E W request'.
Proof.
  intros Hv Hv' Hf Hb.
  rewrite (POST_valid E W _ _ _ Hv), (POST_valid E W _ _ _ Hv').
  rewrite <- (POST_typed_bare E W form ms), Hb, POST_typed_bare.
  apply POST_typed_parts, Hf.
Qed.

(** "Hello", with and without a reference to an earlier attachment. *)
Lemma attachment_references_are_ignored_witness :
  POST sample_engine (online (Normal completion_200)) request_refs
    = POST sample_engine (online (Normal completion_200)) request_hello.
Proof.
  assert (Hv : valid request_refs = Some (form_refs, messages_refs))
    by (vm_compute; reflexivity).
  assert (Hv' : valid request_hello = Some (form_hello, messages_hello))
    by (vm_compute; reflexivity).
  assert (Hf : file_parts form_refs = file_parts form_hello)
    by (vm_compute; reflexivity).
  assert (Hb : map bare messages_refs = map bare messages_hello)
    by (vm_compute; reflexivity).
  exact (attachment_references_are_ignored sample_engine
           (online (Normal completion_200)) request_refs request_hello
           form_refs form_hello messages_refs messages_hello
           Hv Hv' Hf Hb).
Defined.

End RelayCalls.

(* ================================================================== *)
(** * The composer: controls, transcript, identifiers, dictation *)
(* ================================================================== *)

Module ComposerState.
Import JS Page Link Controls Wire Exchange Samples Scenarios.

(** ** The controls and the handlers behind them *)

Lemma canSend_nothing_to_send (s : State) :
  canSend s = negb (nothing_to_send s).
Proof.
  unfold canSend, nothing_to_send.
  destruct (trim (input s)); destruct (pendingAttachments s); reflexivity.
Qed.

Lemma handleSend_sends (B : Browser) (s : State) :
  nothing_to_send s = false ->
  requests (handleSend B s) = requests s ++ [outgoing B s].
Proof. intros H; unfold handleSend; rewrite H; reflexivity. Qed.

(** X11.  The send button is disabled exactly when submitting does
    nothing: with the button disabled the submit handler leaves the state
    as it is, and with the button enabled it sends one request, the form
    made of the conversation with the new user turn and of the staged
    files, and empties the input and the staging area. *)
Theorem send_button_matches_submit (B : Browser) (s : State) :
  (submit_disabled s = true -> preventDefault B s = s) /\
  (submit_disabled s = false ->
   requests (preventDefault B s) = requests s ++ [outgoing B s] /\
   input (preventDefault B s) = [] /\
   pendingAttachments (preventDefault B s) = []).
Proof.
  unfold submit_disabled, preventDefault; rewrite canSend_nothing_to_send.
  rewrite negb_involutive.
  destruct (isThinking s); cbn [negb].
  - rewrite orb_true_r; split; [reflexivity|discriminate].
  - rewrite orb_false_r; unfold handleSend.
    destruct (nothing_to_send s); split;
      try reflexivity; try discriminate.
    intros _; split; [reflexivity|split; reflexivity].
Qed.

(** Blanks typed and nothing staged: the button is disabled, and a submit
    changes nothing. *)
Lemma send_button_matches_submit_witness :
  preventDefault desk blank = blank.
Proof.
  apply (proj1 (send_button_matches_submit desk blank)); reflexivity.
Defined.

(** X12.  The file input is disabled exactly when staging is full: with
    the input disabled [handleFileChange] leaves the state as it is,
    whatever the files, and with the input enabled a non-empty batch stages
    at least one file. *)
Theorem file_input_matches_staging (B : Browser) (s : State)
    (files : list File) :
  (attach_disabled s = true -> handleFileChange B files s = s) /\
  (attach_disabled s = false -> files <> [] ->
   List.length (pendingAttachments s)
     < List.length (pendingAttachments (handleFileChange B files s))).
Proof.
  unfold attach_disabled, MAX_ATTACHMENTS; split.
  - intros H; apply Z.leb_le in H.
    apply Composer.handleFileChange_full; lia.
  - intros H Hf; apply Z.leb_gt in H.
    rewrite <- !(length_map draft_file), Composer.handleFileChange_files.
    rewrite length_app, length_firstn, !length_map.
    destruct files as [|f files]; [congruence|].
    cbn [List.length]; lia.
Qed.

(** Four drafts staged: a fifth file is not taken. *)
Lemma file_input_matches_staging_witness :
  handleFileChange desk [notes_txt] full = full.
Proof.
  apply (proj1 (file_input_matches_staging desk full [notes_txt]));
    reflexivity.
Defined.

(** ** The transcript *)

Lemma step_exchange (B : Browser) (s : State) (e : event) :
  (messages (step B s e) = messages s /\ requests (step B s e) = requests s)
  \/
  (nothing_to_send s = false /\
   requests (step B s e) = requests s ++ [outgoing B s] /\
   exists assistantMessage,
     messages (step B s e) = messages s ++ [user_turn B s; assistantMessage]
     /\ msg_role assistantMessage = assistant).
Proof.
  destruct e as [files|id|text|]; cbn [step].
  - left; unfold handleFileChange.
    destruct files; [split; reflexivity|].
    destruct (_ <=? 0)%Z; split; reflexivity.
  - left; split; reflexivity.
  - left; split; reflexivity.
  - unfold preventDefault.
    destruct (negb (isThinking s)); [|left; split; reflexivity].
    destruct (nothing_to_send s) eqn:H.
    + left; unfold handleSend; rewrite H; split; reflexivity.
    + right; split; [reflexivity|].
      destruct (handleSend_outgoing B s H) as (Hr & a & Hm & Ha & _).
      split; [exact Hr|exists a; split; assumption].
Qed.

Lemma exchanges_S (n : nat) :
  exchanges (S n) = exchanges n ++ [user; assistant].
Proof.
  unfold exchanges.
  change (repeat [user; assistant] (S n))
    with ([user; assistant] :: repeat [user; assistant] n).
  rewrite repeat_cons, concat_app; cbn [List.concat app].
  reflexivity.
Qed.

Lemma step_alternates (B : Browser) (s : State) (e : event) :
  map msg_role (messages s) = exchanges (List.length (requests s)) ->
  map msg_role (messages (step B s e))
    = exchanges (List.length (requests (step B s e))).
Proof.
  intros H.
  destruct (step_exchange B s e) as [[-> ->] | (_ & -> & a & -> & Ha)];
    [exact H|].
  rewrite map_app, length_app, H; cbn [map List.length].
  rewrite Nat.add_1_r, exchanges_S, Ha; reflexivity.
Qed.

Lemma run_alternates (B : Browser) (events : list event) :
  forall s,
    map msg_role (messages s) = exchanges (List.length (requests s)) ->
    map msg_role (messages (run B events s))
      = exchanges (List.length (requests (run B events s))).
Proof.
  induction events as [|e events IH]; intros s H; [exact H|].
  apply IH, step_alternates, H.
Qed.

Lemma run_app (B : Browser) (l1 l2 : list event) (s : State) :
  run B (l1 ++ l2) s = run B l2 (run B l1 s).
Proof. apply fold_left_app. Qed.

(** X13.  Whatever the events, handled one after another from the initial
    state, the transcript is the greeting followed by one user turn and one
    assistant turn for every request sent, in that order; and the
    transcript only grows: later events leave every turn in place. *)
Theorem transcript_alternates (B : Browser) (speech : bool)
    (events later : list event) :
  map msg_role (messages (run B events (initial B speech)))
    = assistant
        :: List.concat
             (repeat [user; assistant]
                (List.length (requests (run B events (initial B speech)))))
  /\
  exists turns,
    messages (run B (events ++ later) (initial B speech))
      = messages (run B events (initial B speech)) ++ turns.
Proof.
  split.
  - apply (run_alternates B events (initial B speech)); reflexivity.
  - rewrite run_app.
    generalize (run B events (initial B speech)) as s.
    induction later as [|e later IH]; intros s.
    + exists []; rewrite app_nil_r; reflexivity.
    + destruct (IH (step B s e)) as (turns & Ht).
      change (run B (e :: later) s) with (run B later (step B s e)).
      rewrite Ht.
      destruct (step_exchange B s e) as [[-> _] | (_ & _ & a & -> & _)].
      * exists turns; reflexivity.
      * eexists; rewrite <- app_assoc; reflexivity.
Qed.

(** ** Every request sent is one the relay accepts *)

Lemma run_requests (B : Browser) (events : list event) :
  forall s formData,
    In formData (requests (run B events s)) ->
    In formData (requests s) \/ exists s', formData = outgoing B s'.
Proof.
  induction events as [|e events IH]; intros s formData H; [left; exact H|].
  change (run B (e :: events) s) with (run B events (step B s e)) in H.
  destruct (IH _ _ H) as [Hin | Hex]; [|right; exact Hex].
  destruct (step_exchange B s e) as [[_ Hr] | (_ & Hr & _)];
    rewrite Hr in Hin; [left; exact Hin|].
  apply in_app_or in Hin as [Hin | [<- | []]];
    [left; exact Hin|right; exists s; reflexivity].
Qed.

(** X14.  Whatever the events, every request the composer has sent is one
    the relay accepts when it arrives as posted: it passes the three
    checks, its transcript has the declared type, and the relay answers it
    with status 200, whatever the credential and the upstream service. *)
Theorem no_request_is_rejected (B : Browser) (speech : bool)
    (events : list event) (formData : Route.FormData)
    (E : Engine) (W : Route.World) (boundary : jsstring) :
  In formData (requests (run B events (initial B speech))) ->
  (exists transcript,
     Route.valid (received boundary formData) = Some (formData, transcript))
  /\
  Route.status (fst (Route.POST E W (received boundary formData))) = 200%N.
Proof.
  intros H.
  destruct (run_requests B events _ _ H) as [[] | (s' & ->)].
  split; [eexists; apply outgoing_valid|apply status_outgoing].
Qed.

(** A file picked, "Hi" typed, the form submitted. *)
Lemma no_request_is_rejected_witness :
  Route.status
    (fst (Route.POST sample_engine offline
            (received (lit "----x")
               (outgoing desk
                  (run desk [FileChange [notes_txt]; SetInput (lit "Hi")]
                     (initial desk false))))))
    = 200%N.
Proof.
  apply (no_request_is_rejected desk false session
           (outgoing desk
              (run desk [FileChange [notes_txt]; SetInput (lit "Hi")]
                 (initial desk false)))
           sample_engine offline (lit "----x")).
  left; reflexivity.
Defined.

(** ** Removing a draft *)

Lemma str_eqb_neq (a b : jsstring) : a <> b -> str_eqb a b = false.
Proof.
  intros H; destruct (str_eqb a b) eqn:Hb; [|reflexivity].
  apply RouteFacts.str_eqb_eq in Hb; contradiction.
Qed.

Lemma filter_absent (id : jsstring) (l : list AttachmentDraft) :
  ~ In id (map draft_id l) ->
  filter (fun item => negb (str_eqb (draft_id item) id)) l = l /\
  find (fun item => str_eqb (draft_id item) id) l = None.
Proof.
  induction l as [|d l IH]; intros H; [split; reflexivity|].
  cbn [map In] in H; cbn [filter find].
  rewrite str_eqb_neq by (intros Heq; apply H; left; exact Heq).
  cbn [negb].
  destruct IH as [-> ->]; [intros Hin; apply H; right; exact Hin|].
  split; reflexivity.
Qed.

Lemma filter_present (before after : list AttachmentDraft)
    (item : AttachmentDraft) :
  NoDup (map draft_id (before ++ item :: after)) ->
  filter (fun each => negb (str_eqb (draft_id each) (draft_id item)))
    (before ++ item :: after) = before ++ after /\
  find (fun each => str_eqb (draft_id each) (draft_id item))
    (before ++ item :: after) = Some item.
Proof.
  rewrite map_app; cbn [map]; intros H.
  apply NoDup_remove in H as [_ H].
  rewrite in_app_iff in H.
  destruct (filter_absent (draft_id item) before) as [Hb1 Hb2];
    [tauto|].
  destruct (filter_absent (draft_id item) after) as [Ha1 _];
    [tauto|].
  split.
  - rewrite filter_app, Hb1; cbn [filter].
    rewrite RouteFacts.str_eqb_refl; cbn [negb]; rewrite Ha1; reflexivity.
  - clear Hb1 Ha1 H.
    induction before as [|d l IH]; cbn [app find].
    + rewrite RouteFacts.str_eqb_refl; reflexivity.
    + cbn [find] in Hb2.
      destruct (str_eqb (draft_id d) (draft_id item)); [discriminate|].
      apply IH, Hb2.
Qed.

(** X15.  Removing a draft by an identifier no staged draft has changes
    nothing; when the staged identifiers are distinct, removing a staged
    draft by its identifier takes out that draft and no other, keeps the
    others in order, and revokes its object URL and no other. *)
Theorem removeAttachment_removes_one (s : State) :
  (forall id,
     ~ In id (map draft_id (pendingAttachments s)) ->
     removeAttachment id s = s) /\
  (forall before item after,
     pendingAttachments s = before ++ item :: after ->
     NoDup (map draft_id (pendingAttachments s)) ->
     pendingAttachments (removeAttachment (draft_id item) s)
       = before ++ after /\
     revoked (removeAttachment (draft_id item) s)
       = revoked s ++ [draft_preview item]).
Proof.
  split.
  - intros id H; unfold removeAttachment.
    destruct (filter_absent id _ H) as [-> ->].
    destruct s; reflexivity.
  - intros before item after Hp Hn; unfold removeAttachment.
    cbn [pendingAttachments revoked].
    rewrite Hp in Hn |- *.
    destruct (filter_present before after item Hn) as [-> ->].
    split; reflexivity.
Qed.

(** The second of three drafts is removed. *)
Lemma removeAttachment_removes_one_witness :
  pendingAttachments (removeAttachment (lit "id-1") three)
    = [draft_at 0 notes_txt; draft_at 2 notes_txt] /\
  revoked (removeAttachment (lit "id-1") three) = [lit "blob:1"].
Proof.
  assert (Hn : NoDup (map draft_id (pendingAttachments three))).
  { repeat constructor; vm_compute;
      intros H; repeat (destruct H as [H | H]; [discriminate H|]); exact H. }
  destruct (proj2 (removeAttachment_removes_one three)
              [draft_at 0 notes_txt] (draft_at 1 empty_bin)
              [draft_at 2 notes_txt] eq_refl Hn) as [Hp Hr].
  split; [exact Hp|exact Hr].
Defined.

(** ** Identifiers and object URLs *)

Section Distinct.
Variable B : Browser.
Hypothesis generateId_injective :
  forall m n, generateId B m = generateId B n -> m = n.
Hypothesis createObjectURL_injective :
  forall m n f g, createObjectURL B m f = createObjectURL B n g -> m = n.









End Distinct.



(** ** Dictation *)

Lemma trimStart_clean (s : jsstring) : clean (trimStart s).
Proof.
  induction s as [|c s IH]; [exact I|].
  cbn [trimStart]; destruct (is_space c) eqn:H; [exact IH|exact H].
Qed.

Lemma clean_trimStart (s : jsstring) : clean s -> trimStart s = s.
Proof.
  destruct s as [|c s]; [reflexivity|].
  cbn [clean trimStart]; intros ->; reflexivity.
Qed.

Lemma trimStart_suffix (s : jsstring) : exists u, s = u ++ trimStart s.
Proof.
  induction s as [|c s (u & IH)]; [exists []; reflexivity|].
  cbn [trimStart]; destruct (is_space c).
  - exists (c :: u); cbn [app]; rewrite <- IH; reflexivity.
  - exists []; reflexivity.
Qed.

Lemma clean_app (a b : jsstring) : clean (a ++ b) -> clean a.
Proof. destruct a; [intros _; exact I|intros H; exact H]. Qed.

Lemma clean_app_l (a b : jsstring) : a <> [] -> clean a -> clean (a ++ b).
Proof. destruct a; [congruence|intros _ H; exact H]. Qed.

(** [trim] leaves no white space at either end. *)
Lemma trim_clean (s : jsstring) : clean (trim s) /\ clean (rev (trim s)).
Proof.
  unfold trim; rewrite rev_involutive.
  split; [|apply trimStart_clean].
  destruct (trimStart_suffix (rev (trimStart s))) as (u & H).
  apply (f_equal (@rev N)) in H.
  rewrite rev_involutive, rev_app_distr in H.
  apply (clean_app _ (rev u)); rewrite <- H; apply trimStart_clean.
Qed.

Lemma trim_fixed (s : jsstring) : clean s -> clean (rev s) -> trim s = s.
Proof.
  intros H1 H2; unfold trim.
  rewrite (clean_trimStart s H1), (clean_trimStart _ H2).
  apply rev_involutive.
Qed.

Lemma trim_trim (s : jsstring) : trim (trim s) = trim s.
Proof. destruct (trim_clean s); apply trim_fixed; assumption. Qed.

Lemma trimStart_app_clean (u v : jsstring) :
  v <> [] -> clean v -> exists u', trimStart (u ++ v) = u' ++ v.
Proof.
  intros Hv Hc; induction u as [|c u (u' & IH)].
  - exists []; apply clean_trimStart, Hc.
  - cbn [app trimStart]; destruct (is_space c).
    + exists u'; exact IH.
    + exists (c :: u); reflexivity.
Qed.

Lemma trim_app_kept (a x : jsstring) :
  a <> [] -> clean a -> clean (rev a) ->
  exists rest, trim (a ++ x) = a ++ rest.
Proof.
  intros Ha H1 H2; unfold trim.
  rewrite (clean_trimStart (a ++ x)) by (apply clean_app_l; assumption).
  rewrite rev_app_distr.
  destruct (trimStart_app_clean (rev x) (rev a)) as (u' & ->);
    [|exact H2|].
  - intros H; apply (f_equal (@rev N)) in H.
    rewrite rev_involutive in H; contradiction.
  - exists (rev u'); rewrite rev_app_distr, rev_involutive; reflexivity.
Qed.

(** X17.  What [recognition.onresult] makes of the input: with nothing
    typed it is the transcript as recognised; with something typed it is a
    text without white space at either end; and what was typed, trimmed,
    is kept at its beginning whenever it is not blank. *)
Theorem dictation_keeps_what_was_typed
    (results : list SpeechRecognitionResult) (prev : jsstring) :
  (prev = [] -> onresult results prev = transcript_of results) /\
  (prev <> [] -> trim (onresult results prev) = onresult results prev) /\
  (trim prev <> [] ->
   exists rest, onresult results prev = trim prev ++ rest).
Proof.
  unfold onresult; split; [intros ->; reflexivity|split].
  - destruct prev as [|c prev]; [congruence|intros _; apply trim_trim].
  - destruct prev as [|c prev]; [intros H; contradiction H; reflexivity|].
    intros H; destruct (trim_clean (c :: prev)) as [H1 H2].
    apply trim_app_kept; assumption.
Qed.

(** "world" dictated after " hello ". *)
Lemma dictation_keeps_what_was_typed_witness :
  exists rest,
    onresult [[lit "world"]] (lit " hello ") = trim (lit " hello ") ++ rest.
Proof.
  apply (proj2 (proj2 (dictation_keeps_what_was_typed
                         [[lit "world"]] (lit " hello ")))).
  vm_compute; discriminate.
Defined.

End ComposerState.
